(** * Screencast service: the Recorder coordinator and its registry

    A shallow embedding of [js/dbusServices/screencast/screencastService.js].

    The [Recorder] class drives one recording: it owns a remote screen-cast
    session (a D-Bus proxy), a local GStreamer pipeline and a watch on the
    D-Bus name of the client that asked for the recording.  The
    [ScreencastService] class keeps one [Recorder] per client in a [Map]
    and holds the process alive while that map is not empty.

    JavaScript objects are mutated in place, so every method of [Recorder]
    is a computation over the object ([this]) that may throw and that leaves
    a trace of the calls it makes on its collaborators (GStreamer, D-Bus,
    the promise callbacks, the log).  Answers of the collaborators are read
    from an environment record [Env]. *)

From Stdlib Require Import Ascii.
From stdpp Require Import gmap strings list pretty.

#[local] Open Scope string_scope.
#[local] Open Scope Z_scope.

(** ** Enumerations of the source *)

Module PipelineState.
Inductive t : Set := INIT | PLAYING | FLUSHING | STOPPED | ERROR.

#[global] Instance eq_dec : EqDecision t.
Proof. solve_decision. Defined.

(** The enumeration maps each key to the string of the same spelling; the
    string is what a template literal prints. *)
Definition to_string (s : t) : string :=
  match s with
  | INIT => "INIT"
  | PLAYING => "PLAYING"
  | FLUSHING => "FLUSHING"
  | STOPPED => "STOPPED"
  | ERROR => "ERROR"
  end.
End PipelineState.

Module SessionState.
Inductive t : Set := INIT | ACTIVE | STOPPED.

#[global] Instance eq_dec : EqDecision t.
Proof. solve_decision. Defined.
End SessionState.

(** The part of GStreamer's interface the recorder uses. *)
Module Gst.
Inductive State : Set := NULL | READY | PAUSED | PLAYING.

Inductive StateChangeReturn : Set := FAILURE | SUCCESS | ASYNC | NO_PREROLL.

#[global] Instance State_eq_dec : EqDecision State.
Proof. solve_decision. Defined.

#[global] Instance StateChangeReturn_eq_dec : EqDecision StateChangeReturn.
Proof. solve_decision. Defined.

(** A pipeline (or any other element posting on the bus) is a handle. *)
Definition Element : Set := nat.

(** A bus message, by [message.type]; [STATE_CHANGED] carries [message.src]
    and the new state of [parse_state_changed], [ERROR] the text of
    [parse_error()[0].message]. *)
Inductive Message : Set :=
| STATE_CHANGED (src : Element) (newState : State)
| EOS
| ERROR (text : string)
| OTHER.
End Gst.

(** ** Values passed around *)

(** A JavaScript [Error] (or a [GLib.Error]); only its message is read. *)
Record Error : Set := { message : string }.

Definition new_Error (msg : string) : Error := {| message := msg |}.

#[global] Instance Error_eq_dec : EqDecision Error.
Proof. solve_decision. Defined.

(** A D-Bus method invocation: the handle on which the reply is sent and the
    unique bus name of the caller. *)
Record Invocation : Set := { serial : nat; get_sender : string }.

#[global] Instance Invocation_eq_dec : EqDecision Invocation.
Proof. solve_decision. Defined.

(** [{resolve, reject}]: the two settling functions of one promise, named
    by the promise they settle. *)
Record Request : Set := { promise : nat }.

#[global] Instance Request_eq_dec : EqDecision Request.
Proof. solve_decision. Defined.

(** The only closure ever passed as [onErrorCallback]:
    [() => this._removeRecorder(sender)]. *)
Inductive Callback : Set := RemoveRecorder (sender : string).

#[global] Instance Callback_eq_dec : EqDecision Callback.
Proof. solve_decision. Defined.

(** What [await] sees of a promise at the moment it is returned. *)
Inductive Promise : Set :=
| Pending (q : Request)
| Rejected (e : Error).

(** The options dictionary after [deepUnpack]: a missing key is [None]. *)
Record Options : Set := {
  opt_pipeline : option string;
  opt_framerate : option Z;
  opt_draw_cursor : option bool
}.

(** The text handed to [Gst.parse_launch_full], kept as the values the
    template literal of [_ensurePipeline] splices in. *)
Record PipelineDescr : Set := {
  descr_path : Z;
  descr_always_copy : bool;
  descr_max_framerate : Z;
  descr_pipeline : string;
  descr_threads : Z;
  descr_location : string
}.

#[global] Instance PipelineDescr_eq_dec : EqDecision PipelineDescr.
Proof. solve_decision. Defined.

(** A reply sent with [invocation.return_value]: [(bs)] or [(b)]. *)
Inductive Variant : Set :=
| V_bs (success : bool) (path : string)
| V_b (success : bool).

#[global] Instance Variant_eq_dec : EqDecision Variant.
Proof. solve_decision. Defined.

(** ** Calls on the collaborators, in the order they are made *)

Inductive Effect : Set :=
| Log (msg : string)
| MakeDirectoryWithParents (filePath : string)
| WatchName (sender : string) (id : N)
| UnwatchName (id : N)
| ConnectSignal (signal : string)
| PipelineSetState (p : Gst.Element) (s : Gst.State)
| PipelineSendEos (p : Gst.Element)
| BusAddWatch (p : Gst.Element)
| ParseLaunchFull (d : PipelineDescr)
| SessionRecordAreaSync (x y width height : Z) (cursor_mode : Z)
| SessionStartSync
| SessionStopSync
| AddRecentItem (filePath : string)
| Call (cb : Callback)
| Resolve (q : Request)
| Reject (q : Request) (e : Error)
| ReturnValue (invocation : Invocation) (v : Variant).

#[global] Instance Effect_eq_dec : EqDecision Effect.
Proof. solve_decision. Defined.

(** ** Answers of the collaborators *)

Inductive MkdirResult : Set :=
| MkdirDone
| MkdirExists            (* throws Gio.IOErrorEnum.EXISTS *)
| MkdirFails (e : Error) (* throws anything else *).

(** A broken-down local time, as [GLib.DateTime.new_now_local] returns. *)
Record DateTime : Set := {
  year : nat; month : nat; day : nat;
  hour : nat; minute : nat; second : nat
}.

Record Env : Type := {
  (* GStreamer *)
  set_state_NULL : Gst.StateChangeReturn;
  set_state_PLAYING : Gst.StateChangeReturn;
  parse_launch_full : Error + Gst.Element;
  pipewiresrc_0_3_57 : bool;
  videoconvert_1_20_4 : bool;
  get_num_processors : Z;
  (* the remote session *)
  RecordAreaSync : Error + string;
  StartSync : option Error;
  StopSync : option Error;
  CreateSessionSync : Error + string;
  new_SessionProxy : option Error;
  new_StreamProxy : option Error;
  ScreenSize : option (Z * Z); (* the cached property; null when there is none *)
  (* GLib and Gio *)
  make_directory_with_parents : MkdirResult;
  watch_name : positive;
  disable_save_to_disk : bool;
  DIRECTORY_VIDEOS : option string;
  get_home_dir : string;
  path_is_absolute : string -> bool;
  build_filenamev : list string -> string;
  (* the clock: the answer to the n-th reading within one call *)
  new_now_local : nat -> DateTime
}.

(** ** The Recorder object *)

Record Recorder : Set := {
  _startInvocation : Invocation;
  _onErrorCallback : option Callback;
  _x : Z;
  _y : Z;
  _width : Z;
  _height : Z;
  _filePath : string;
  _pipelineString : string;
  _framerate : Z;
  _drawCursor : bool;
  _pipelineState : PipelineState.t;
  _pipeline : option Gst.Element;
  _nameWatchId : N;
  _sessionState : SessionState.t;
  _sessionProxy : string;
  _streamProxy : option string;
  _startRequest : option Request;
  _stopRequest : option Request
}.

#[global] Instance Recorder_eq_dec : EqDecision Recorder.
Proof. solve_decision. Defined.

(** Assignments to the fields that change after construction. *)
Definition set_onErrorCallback (v : option Callback) (r : Recorder) : Recorder :=
  {| _startInvocation := _startInvocation r; _onErrorCallback := v;
     _x := _x r; _y := _y r; _width := _width r; _height := _height r;
     _filePath := _filePath r; _pipelineString := _pipelineString r;
     _framerate := _framerate r; _drawCursor := _drawCursor r;
     _pipelineState := _pipelineState r; _pipeline := _pipeline r;
     _nameWatchId := _nameWatchId r; _sessionState := _sessionState r;
     _sessionProxy := _sessionProxy r; _streamProxy := _streamProxy r;
     _startRequest := _startRequest r; _stopRequest := _stopRequest r |}.

Definition set_pipelineState (v : PipelineState.t) (r : Recorder) : Recorder :=
  {| _startInvocation := _startInvocation r; _onErrorCallback := _onErrorCallback r;
     _x := _x r; _y := _y r; _width := _width r; _height := _height r;
     _filePath := _filePath r; _pipelineString := _pipelineString r;
     _framerate := _framerate r; _drawCursor := _drawCursor r;
     _pipelineState := v; _pipeline := _pipeline r;
     _nameWatchId := _nameWatchId r; _sessionState := _sessionState r;
     _sessionProxy := _sessionProxy r; _streamProxy := _streamProxy r;
     _startRequest := _startRequest r; _stopRequest := _stopRequest r |}.

Definition set_pipeline (v : option Gst.Element) (r : Recorder) : Recorder :=
  {| _startInvocation := _startInvocation r; _onErrorCallback := _onErrorCallback r;
     _x := _x r; _y := _y r; _width := _width r; _height := _height r;
     _filePath := _filePath r; _pipelineString := _pipelineString r;
     _framerate := _framerate r; _drawCursor := _drawCursor r;
     _pipelineState := _pipelineState r; _pipeline := v;
     _nameWatchId := _nameWatchId r; _sessionState := _sessionState r;
     _sessionProxy := _sessionProxy r; _streamProxy := _streamProxy r;
     _startRequest := _startRequest r; _stopRequest := _stopRequest r |}.

Definition set_nameWatchId (v : N) (r : Recorder) : Recorder :=
  {| _startInvocation := _startInvocation r; _onErrorCallback := _onErrorCallback r;
     _x := _x r; _y := _y r; _width := _width r; _height := _height r;
     _filePath := _filePath r; _pipelineString := _pipelineString r;
     _framerate := _framerate r; _drawCursor := _drawCursor r;
     _pipelineState := _pipelineState r; _pipeline := _pipeline r;
     _nameWatchId := v; _sessionState := _sessionState r;
     _sessionProxy := _sessionProxy r; _streamProxy := _streamProxy r;
     _startRequest := _startRequest r; _stopRequest := _stopRequest r |}.

Definition set_sessionState (v : SessionState.t) (r : Recorder) : Recorder :=
  {| _startInvocation := _startInvocation r; _onErrorCallback := _onErrorCallback r;
     _x := _x r; _y := _y r; _width := _width r; _height := _height r;
     _filePath := _filePath r; _pipelineString := _pipelineString r;
     _framerate := _framerate r; _drawCursor := _drawCursor r;
     _pipelineState := _pipelineState r; _pipeline := _pipeline r;
     _nameWatchId := _nameWatchId r; _sessionState := v;
     _sessionProxy := _sessionProxy r; _streamProxy := _streamProxy r;
     _startRequest := _startRequest r; _stopRequest := _stopRequest r |}.

Definition set_streamProxy (v : option string) (r : Recorder) : Recorder :=
  {| _startInvocation := _startInvocation r; _onErrorCallback := _onErrorCallback r;
     _x := _x r; _y := _y r; _width := _width r; _height := _height r;
     _filePath := _filePath r; _pipelineString := _pipelineString r;
     _framerate := _framerate r; _drawCursor := _drawCursor r;
     _pipelineState := _pipelineState r; _pipeline := _pipeline r;
     _nameWatchId := _nameWatchId r; _sessionState := _sessionState r;
     _sessionProxy := _sessionProxy r; _streamProxy := v;
     _startRequest := _startRequest r; _stopRequest := _stopRequest r |}.

Definition set_startRequest (v : option Request) (r : Recorder) : Recorder :=
  {| _startInvocation := _startInvocation r; _onErrorCallback := _onErrorCallback r;
     _x := _x r; _y := _y r; _width := _width r; _height := _height r;
     _filePath := _filePath r; _pipelineString := _pipelineString r;
     _framerate := _framerate r; _drawCursor := _drawCursor r;
     _pipelineState := _pipelineState r; _pipeline := _pipeline r;
     _nameWatchId := _nameWatchId r; _sessionState := _sessionState r;
     _sessionProxy := _sessionProxy r; _streamProxy := _streamProxy r;
     _startRequest := v; _stopRequest := _stopRequest r |}.

Definition set_stopRequest (v : option Request) (r : Recorder) : Recorder :=
  {| _startInvocation := _startInvocation r; _onErrorCallback := _onErrorCallback r;
     _x := _x r; _y := _y r; _width := _width r; _height := _height r;
     _filePath := _filePath r; _pipelineString := _pipelineString r;
     _framerate := _framerate r; _drawCursor := _drawCursor r;
     _pipelineState := _pipelineState r; _pipeline := _pipeline r;
     _nameWatchId := _nameWatchId r; _sessionState := _sessionState r;
     _sessionProxy := _sessionProxy r; _streamProxy := _streamProxy r;
     _startRequest := _startRequest r; _stopRequest := v |}.

(** ** Method bodies as computations

    A method runs on [this], may mutate it, may throw, and appends to the
    trace.  A throw keeps the mutations and the trace made before it, as in
    JavaScript. *)

Inductive Completion (A : Type) : Type :=
| Normal (a : A)
| Throws (e : Error).
Arguments Normal {A} a.
Arguments Throws {A} e.

Record Run (A : Type) : Type := mkRun {
  completion : Completion A;
  this : Recorder;
  trace : list Effect
}.
Arguments mkRun {A} _ _ _.
Arguments completion {A} _.
Arguments this {A} _.
Arguments trace {A} _.

Definition M (A : Type) : Type := Recorder -> Run A.

#[global] Instance M_ret : MRet M :=
  fun A a r => mkRun (Normal a) r [].

#[global] Instance M_bind : MBind M :=
  fun A B k m r =>
    let x := m r in
    match completion x with
    | Normal a => let y := k a (this x) in
                  mkRun (completion y) (this y) (trace x ++ trace y)
    | Throws e => mkRun (Throws e) (this x) (trace x)
    end.

Definition getThis : M Recorder := fun r => mkRun (Normal r) r [].

Definition assign (f : Recorder -> Recorder) : M unit :=
  fun r => mkRun (Normal tt) (f r) [].

Definition emit (e : Effect) : M unit := fun r => mkRun (Normal tt) r [e].

Definition throw {A : Type} (e : Error) : M A := fun r => mkRun (Throws e) r [].

Definition log (msg : string) : M unit := emit (Log msg).

(** [new Promise(executor)] runs the executor at once; a throw inside it
    rejects the promise instead of leaving the constructor. *)
Definition new_Promise (q : Request) (executor : M unit) : M Promise :=
  fun r =>
    let x := executor r in
    match completion x with
    | Normal _ => mkRun (Normal (Pending q)) (this x) (trace x)
    | Throws e => mkRun (Normal (Rejected e)) (this x) (trace x)
    end.

(** ** class Recorder *)

Definition DEFAULT_PIPELINE : string :=
  "videoconvert chroma-mode=GST_VIDEO_CHROMA_MODE_NONE dither=GST_VIDEO_DITHER_NONE matrix-mode=GST_VIDEO_MATRIX_MODE_OUTPUT_ONLY n-threads=%T ! queue ! vp8enc cpu-used=16 max-quantizer=17 deadline=1 keyframe-mode=disabled threads=%T static-threshold=1000 buffer-size=20000 ! queue ! webmmux".
Definition DEFAULT_FRAMERATE : Z := 30.
Definition DEFAULT_DRAW_CURSOR : bool := true.

Section RecorderMethods.
Context (env : Env).

Definition _applyOptions (options : Options) : M unit :=
  assign (fun r =>
    {| _startInvocation := _startInvocation r; _onErrorCallback := _onErrorCallback r;
       _x := _x r; _y := _y r; _width := _width r; _height := _height r;
       _filePath := _filePath r;
       _pipelineString := default (_pipelineString r) (opt_pipeline options);
       _framerate := default (_framerate r) (opt_framerate options);
       _drawCursor := default (_drawCursor r) (opt_draw_cursor options);
       _pipelineState := _pipelineState r; _pipeline := _pipeline r;
       _nameWatchId := _nameWatchId r; _sessionState := _sessionState r;
       _sessionProxy := _sessionProxy r; _streamProxy := _streamProxy r;
       _startRequest := _startRequest r; _stopRequest := _stopRequest r |}).

Definition _addRecentItem : M unit :=
  r ← getThis;
  emit (AddRecentItem (_filePath r)).

Definition _watchSender (sender : string) : M unit :=
  emit (WatchName sender (Npos (watch_name env)));;
  assign (set_nameWatchId (Npos (watch_name env))).

Definition _unwatchSender : M unit :=
  r ← getThis;
  if decide (_nameWatchId r ≠ 0%N) then
    emit (UnwatchName (_nameWatchId r));;
    assign (set_nameWatchId 0%N)
  else mret tt.

Definition _teardownPipeline : M unit :=
  r ← getThis;
  match _pipeline r with
  | None => mret tt
  | Some p =>
      emit (PipelineSetState p Gst.NULL);;
      (if decide (set_state_NULL env ≠ Gst.SUCCESS)
       then log "Failed to set pipeline state to NULL"
       else mret tt);;
      assign (set_pipelineState PipelineState.STOPPED);;
      assign (set_pipeline None)
  end.

Definition _stopSession : M unit :=
  r ← getThis;
  if decide (_sessionState r = SessionState.ACTIVE) then
    assign (set_sessionState SessionState.STOPPED);;
    emit SessionStopSync;;
    match StopSync env with
    | Some e => throw e
    | None => mret tt
    end
  else mret tt.

Definition _bailOutOnError (error : Error) : M unit :=
  _teardownPipeline;;
  _unwatchSender;;
  _stopSession;;
  log ("Recorder error: " +:+ message error);;
  r ← getThis;
  match _onErrorCallback r with
  | Some cb => emit (Call cb);; assign (set_onErrorCallback None)
  | None => mret tt
  end;;
  r ← getThis;
  match _startRequest r with
  | Some q => emit (Reject q error);; assign (set_startRequest None)
  | None => mret tt
  end;;
  r ← getThis;
  match _stopRequest r with
  | Some q => emit (Reject q error);; assign (set_stopRequest None)
  | None => mret tt
  end.

Definition _handleFatalPipelineError (msg : string) : M unit :=
  assign (set_pipelineState PipelineState.ERROR);;
  _bailOutOnError (new_Error ("Fatal pipeline error: " +:+ msg)).

Definition _senderVanished : M unit :=
  _bailOutOnError (new_Error "Sender has vanished").

Definition _onSessionClosed : M unit :=
  r ← getThis;
  if decide (_sessionState r = SessionState.STOPPED) then
    mret tt (* We closed the session ourselves *)
  else
    assign (set_sessionState SessionState.STOPPED);;
    _bailOutOnError (new_Error "Session closed unexpectedly").

Definition _initSession (sessionPath : string) : M unit :=
  match new_SessionProxy env with
  | Some e => throw e
  | None => emit (ConnectSignal "Closed")
  end.

(** The number that takes the place of every [%T] in the description. *)
Definition _substituteThreadCount : Z :=
  Z.min (Z.max 1 (get_num_processors env)) 64.

Definition _ensurePipeline (nodeId : Z) : M bool :=
  r ← getThis;
  let needsCopy := pipewiresrc_0_3_57 env && negb (videoconvert_1_20_4 env) in
  let fullPipeline :=
    {| descr_path := nodeId; descr_always_copy := needsCopy;
       descr_max_framerate := _framerate r;
       descr_pipeline := _pipelineString r;
       descr_threads := _substituteThreadCount;
       descr_location := _filePath r |} in
  emit (ParseLaunchFull fullPipeline);;
  match parse_launch_full env with
  | inr p => assign (set_pipeline (Some p))
  | inl e => _handleFatalPipelineError ("Failed to create pipeline: " +:+ message e)
  end;;
  r ← getThis;
  mret (bool_decide (is_Some (_pipeline r))).

Definition _startPipeline (nodeId : Z) : M unit :=
  ok ← _ensurePipeline nodeId;
  if negb ok then mret tt
  else
    r ← getThis;
    match _pipeline r with
    | None => mret tt
    | Some p =>
        emit (BusAddWatch p);;
        emit (PipelineSetState p Gst.PLAYING);;
        let retval := set_state_PLAYING env in
        if decide (retval = Gst.SUCCESS ∨ retval = Gst.ASYNC) then
          mret tt (* wait for the state change message on the bus *)
        else _handleFatalPipelineError "Failed to start pipeline"
    end.

Definition startRecording (q : Request) : M Promise :=
  new_Promise q (
    assign (set_startRequest (Some q));;
    r ← getThis;
    emit (SessionRecordAreaSync (_x r) (_y r) (_width r) (_height r)
            (if _drawCursor r then 1 else 0));;
    match RecordAreaSync env with
    | inl e => throw e
    | inr streamPath =>
        match new_StreamProxy env with
        | Some e => throw e
        | None =>
            assign (set_streamProxy (Some streamPath));;
            emit (ConnectSignal "PipeWireStreamAdded");;
            emit SessionStartSync;;
            match StartSync env with
            | Some e => throw e
            | None => assign (set_sessionState SessionState.ACTIVE)
            end
        end
    end).

Definition stopRecording (q : Request) : M Promise :=
  r ← getThis;
  if decide (is_Some (_startRequest r)) then
    mret (Rejected (new_Error "Unable to stop recorder while still starting"))
  else
    new_Promise q (
      assign (set_stopRequest (Some q));;
      assign (set_pipelineState PipelineState.FLUSHING);;
      r ← getThis;
      match _pipeline r with
      | Some p => emit (PipelineSendEos p)
      | None => throw (new_Error "TypeError: this._pipeline is null")
      end).

Definition _onBusMessage (msg : Gst.Message) : M bool :=
  match msg with
  | Gst.STATE_CHANGED src newState =>
      r ← getThis;
      (if decide (_pipelineState r = PipelineState.INIT
                  ∧ _pipeline r = Some src
                  ∧ newState = Gst.PLAYING) then
         assign (set_pipelineState PipelineState.PLAYING);;
         match _startRequest r with
         | Some q => emit (Resolve q);; assign (set_startRequest None)
         | None => throw (new_Error "TypeError: this._startRequest is undefined")
         end
       else mret tt)
  | Gst.EOS =>
      r ← getThis;
      match _pipelineState r with
      | PipelineState.STOPPED
      | PipelineState.ERROR =>
          (* there should be no pipeline, so should never happen *)
          mret tt
      | PipelineState.PLAYING =>
          _addRecentItem;;
          _handleFatalPipelineError "Unexpected EOS message"
      | PipelineState.INIT =>
          _handleFatalPipelineError "Unexpected EOS message while in state INIT"
      | PipelineState.FLUSHING =>
          _addRecentItem;;
          _teardownPipeline;;
          _unwatchSender;;
          _stopSession;;
          r ← getThis;
          match _stopRequest r with
          | Some q => emit (Resolve q);; assign (set_stopRequest None)
          | None => throw (new_Error "TypeError: this._stopRequest is undefined")
          end
      end
  | Gst.ERROR text =>
      r ← getThis;
      match _pipelineState r with
      | PipelineState.STOPPED
      | PipelineState.ERROR => mret tt
      | PipelineState.INIT
      | PipelineState.PLAYING
      | PipelineState.FLUSHING =>
          _handleFatalPipelineError
            ("GStreamer error while in state "
               +:+ PipelineState.to_string (_pipelineState r) +:+ ": " +:+ text)
      end
  | Gst.OTHER => mret tt
  end;;
  mret true.

(** The constructor: the object after the plain assignments of its first
    lines, then the calls that may throw. *)
Definition Recorder_constructor (sessionPath : string) (x y width height : Z)
    (filePath : string) (options : Options) (invocation : Invocation)
    (onErrorCallback : option Callback) : Completion Recorder * list Effect :=
  let fresh :=
    {| _startInvocation := invocation; _onErrorCallback := onErrorCallback;
       _x := x; _y := y; _width := width; _height := height;
       _filePath := filePath;
       _pipelineString := DEFAULT_PIPELINE;
       _framerate := DEFAULT_FRAMERATE;
       _drawCursor := DEFAULT_DRAW_CURSOR;
       _pipelineState := PipelineState.INIT; _pipeline := None;
       _nameWatchId := 0%N; _sessionState := SessionState.INIT;
       _sessionProxy := sessionPath; _streamProxy := None;
       _startRequest := None; _stopRequest := None |} in
  let body : M unit :=
    emit (MakeDirectoryWithParents filePath);;
    match make_directory_with_parents env with
    | MkdirFails e => throw e
    | MkdirDone | MkdirExists => mret tt
    end;;
    _applyOptions options;;
    _watchSender (get_sender invocation);;
    _initSession sessionPath in
  let x := body fresh in
  match completion x with
  | Normal _ => (Normal (this x), trace x)
  | Throws e => (Throws e, trace x)
  end.

End RecorderMethods.

(** ** Destination paths *)

(** [GLib.DateTime.format] for the two patterns the source passes:
    [%Y] prints the year in decimal, [%m %d %H %M %S] print two digits,
    padded with a zero. *)
Definition two_digits (n : nat) : string :=
  (if decide (n < 10)%nat then "0" else "") +:+ pretty n.

Definition format_Y_m_d (t : DateTime) : string :=
  pretty (year t) +:+ "-" +:+ two_digits (month t) +:+ "-" +:+ two_digits (day t).

Definition format_H_M_S (t : DateTime) : string :=
  two_digits (hour t) +:+ "-" +:+ two_digits (minute t) +:+ "-" +:+ two_digits (second t).

(** A string is held as its UTF-8 bytes, the form in which it arrives
    over D-Bus and is handed to GLib as a file name.  [[...template]] does
    not iterate over bytes: the string iterator yields one code point at a
    time, which in UTF-8 is one lead byte together with the continuation
    bytes (10xxxxxx) that follow it.  A character is kept as the string of
    its bytes. *)
Definition is_continuation (b : Ascii.ascii) : bool :=
  match b with
  | Ascii.Ascii _ _ _ _ _ _ b6 b7 => b7 && negb b6
  end.

Definition is_ASCII (b : Ascii.ascii) : bool :=
  match b with
  | Ascii.Ascii _ _ _ _ _ _ _ b7 => negb b7
  end.

(** [[...template]]: the characters of the template, in order. *)
Fixpoint spread (template : string) : list string :=
  match template with
  | EmptyString => []
  | String b rest =>
      match spread rest with
      | String b' tail :: chars =>
          if is_continuation b' && negb (is_ASCII b)
          then String b (String b' tail) :: chars
          else String b "" :: String b' tail :: chars
      | chars => String b "" :: chars
      end
  end.

(** The variables of [_generateFilePath] that the loop body updates:
    [filename] and [escape], and beside them the number of clock readings
    made so far and the warnings logged so far. *)
Record Scan : Set := {
  filename : string;
  escape : bool;
  readings : nat;
  warnings : list Effect
}.

Section GenerateFilePath.
Context (env : Env).

Definition _getAbsolutePath (name : string) : string :=
  if path_is_absolute env name then name
  else
    let videoDir :=
      match DIRECTORY_VIDEOS env with
      | Some d => if decide (d = "") then get_home_dir env else d
      | None => get_home_dir env
      end in
    build_filenamev env [videoDir; name].

(** The arrow function passed to [forEach]; [c] is one character. *)
Definition scan_char (st : Scan) (c : string) : Scan :=
  if escape st then
    if decide (c = "%") then
      {| filename := filename st +:+ "%"; escape := false;
         readings := readings st; warnings := warnings st |}
    else if decide (c = "d") then
      let datetime := new_now_local env (readings st) in
      {| filename := filename st +:+ format_Y_m_d datetime; escape := false;
         readings := S (readings st); warnings := warnings st |}
    else if decide (c = "t") then
      let datetime := new_now_local env (readings st) in
      {| filename := filename st +:+ format_H_M_S datetime; escape := false;
         readings := S (readings st); warnings := warnings st |}
    else
      {| filename := filename st; escape := false;
         readings := readings st;
         warnings := warnings st ++ [Log ("Warning: Unknown escape " +:+ c)] |}
  else if decide (c = "%") then
    {| filename := filename st; escape := true;
       readings := readings st; warnings := warnings st |}
  else
    {| filename := filename st +:+ c; escape := false;
       readings := readings st; warnings := warnings st |}.

Fixpoint forEach (chars : list string) (st : Scan) : Scan :=
  match chars with
  | [] => st
  | c :: rest => forEach rest (scan_char st c)
  end.

(** The state of the loop variables when [forEach] returns, then the
    statement after the loop. *)
Definition scan_template (template : string) : Scan :=
  forEach (spread template)
    {| filename := ""; escape := false; readings := 0%nat; warnings := [] |}.

Definition expanded_filename (template : string) : string :=
  let st := scan_template template in
  if escape st then filename st +:+ "%" else filename st.

Definition _generateFilePath (template : string) : string * list Effect :=
  (_getAbsolutePath (expanded_filename template),
   warnings (scan_template template)).

End GenerateFilePath.

(** ** class ScreencastService *)

(** An [async] method suspended at its [await]: what it needs to go on. *)
Inductive Continuation : Set :=
| AwaitStart (sender : string) (filePath : string) (invocation : Invocation)
| AwaitStop (sender : string) (invocation : Invocation).

(** The promise an [async] method returns, seen when the call comes back. *)
Inductive AsyncResult : Set :=
| Returned
| Suspended (q : Request)
| Uncaught (e : Error).

(** The service object.  [_recorders] maps a sender to a reference; the
    Recorder objects themselves live in [heap], because signal handlers keep
    a Recorder reachable (and keep mutating it) after the map dropped it. *)
Record ScreencastService : Type := {
  _recorders : gmap string nat;
  heap : gmap nat Recorder;
  _holdCount : Z;
  awaiting : gmap nat Continuation;
  allocated : nat;
  journal : list Effect
}.

Definition set_recorders (v : gmap string nat) (s : ScreencastService) : ScreencastService :=
  {| _recorders := v; heap := heap s; _holdCount := _holdCount s;
     awaiting := awaiting s; allocated := allocated s; journal := journal s |}.

Definition set_heap (v : gmap nat Recorder) (s : ScreencastService) : ScreencastService :=
  {| _recorders := _recorders s; heap := v; _holdCount := _holdCount s;
     awaiting := awaiting s; allocated := allocated s; journal := journal s |}.

Definition set_holdCount (v : Z) (s : ScreencastService) : ScreencastService :=
  {| _recorders := _recorders s; heap := heap s; _holdCount := v;
     awaiting := awaiting s; allocated := allocated s; journal := journal s |}.

Definition set_awaiting (v : gmap nat Continuation) (s : ScreencastService) : ScreencastService :=
  {| _recorders := _recorders s; heap := heap s; _holdCount := _holdCount s;
     awaiting := v; allocated := allocated s; journal := journal s |}.

(** A fresh name for a new object or promise. *)
Definition allocate (s : ScreencastService) : nat * ScreencastService :=
  (allocated s,
   {| _recorders := _recorders s; heap := heap s; _holdCount := _holdCount s;
      awaiting := awaiting s; allocated := S (allocated s); journal := journal s |}).

Definition record (es : list Effect) (s : ScreencastService) : ScreencastService :=
  {| _recorders := _recorders s; heap := heap s; _holdCount := _holdCount s;
     awaiting := awaiting s; allocated := allocated s; journal := journal s ++ es |}.

Definition return_value (invocation : Invocation) (v : Variant)
    (s : ScreencastService) : ScreencastService :=
  record [ReturnValue invocation v] s.

(** Modelled from the spec: [hold] and [release] of the base class
    [ServiceImplementation] (js/dbusServices/dbusService.js, not among the
    sources).  The spec calls them the increment and the decrement of the
    process keep-alive counter. *)
Definition hold (s : ScreencastService) : ScreencastService :=
  set_holdCount (_holdCount s + 1) s.

Definition release (s : ScreencastService) : ScreencastService :=
  set_holdCount (_holdCount s - 1) s.

Definition _removeRecorder (sender : string) (s : ScreencastService) : ScreencastService :=
  match _recorders s !! sender with
  | None => s (* Map.delete returned false *)
  | Some _ =>
      let s := set_recorders (delete sender (_recorders s)) s in
      if decide (size (_recorders s) = 0%nat) then release s else s
  end.

Definition _addRecorder (sender : string) (recorder : nat)
    (s : ScreencastService) : ScreencastService :=
  let s := set_recorders (<[sender := recorder]> (_recorders s)) s in
  if decide (size (_recorders s) = 1%nat) then hold s else s.

(** The statements after [await recorder.startRecording()], for either way
    the promise settles ([None]: resolved). *)
Definition after_startRecording (sender filePath : string) (invocation : Invocation)
    (settled : option Error) (s : ScreencastService) : ScreencastService :=
  match settled with
  | None => return_value invocation (V_bs true filePath) s
  | Some error =>
      let s := record [Log ("Failed to start recorder: " +:+ message error)] s in
      let s := _removeRecorder sender s in
      return_value invocation (V_bs false "") s
  end.

(** The statements after [await recorder.stopRecording()]. *)
Definition after_stopRecording (sender : string) (invocation : Invocation)
    (settled : option Error) (s : ScreencastService) : ScreencastService :=
  let s :=
    match settled with
    | None => s
    | Some error =>
        record [Log (sender +:+ ": Error while stopping recorder: " +:+ message error)] s
    end in
  let s := _removeRecorder sender s in
  return_value invocation (V_b true) s.

Definition resume (k : Continuation) (settled : option Error)
    (s : ScreencastService) : ScreencastService :=
  match k with
  | AwaitStart sender filePath invocation =>
      after_startRecording sender filePath invocation settled s
  | AwaitStop sender invocation =>
      after_stopRecording sender invocation settled s
  end.

(** A promise settles once: the method waiting for it, if any, goes on, and
    later calls of [resolve] or [reject] find nobody. *)
Definition settle (q : Request) (settled : option Error)
    (s : ScreencastService) : ScreencastService :=
  match awaiting s !! promise q with
  | None => s
  | Some k => resume k settled (set_awaiting (delete (promise q) (awaiting s)) s)
  end.

Section ServiceMethods.
Context (env : Env).

(** The part [ScreencastAsync] and [ScreencastAreaAsync] share word for
    word once the geometry and the template are read from [params]: from
    [new Recorder] to the end of the method. *)
Definition record_into (sessionPath : string) (x y width height : Z)
    (filePath : string) (options : Options) (invocation : Invocation)
    (s : ScreencastService) : AsyncResult * ScreencastService :=
  let sender := get_sender invocation in
  let returnValue := V_bs false "" in
  match Recorder_constructor env sessionPath x y width height filePath options
          invocation (Some (RemoveRecorder sender)) with
  | (Throws error, tr) =>
      let s := record tr s in
      let s := record [Log ("Failed to create recorder: " +:+ message error)] s in
      (Returned, return_value invocation returnValue s)
  | (Normal recorder, tr) =>
      let s := record tr s in
      let '(ref, s) := allocate s in
      let s := set_heap (<[ref := recorder]> (heap s)) s in
      let s := _addRecorder sender ref s in
      let '(p, s) := allocate s in
      let q := {| promise := p |} in
      let x := startRecording env q recorder in
      let s := set_heap (<[ref := this x]> (heap s)) s in
      let s := record (trace x) s in
      match completion x with
      | Normal (Pending q) =>
          (Suspended q,
           set_awaiting (<[promise q := AwaitStart sender filePath invocation]> (awaiting s)) s)
      | Normal (Rejected error) =>
          (Returned, after_startRecording sender filePath invocation (Some error) s)
      | Throws error => (Uncaught error, s)
      end
  end.

Definition ScreencastAsync (params : string * Options) (invocation : Invocation)
    (s : ScreencastService) : AsyncResult * ScreencastService :=
  let returnValue := V_bs false "" in
  if disable_save_to_disk env then
    (Returned, return_value invocation returnValue s)
  else
    let sender := get_sender invocation in
    if decide (is_Some (_recorders s !! sender)) then
      (Returned, return_value invocation returnValue s)
    else
      match CreateSessionSync env with
      | inl error => (Uncaught error, s)
      | inr sessionPath =>
          let '(fileTemplate, options) := params in
          match ScreenSize env with
          | None =>
              (* destructuring null throws, outside any try *)
              (Uncaught (new_Error "TypeError: this._introspectProxy.ScreenSize is null"), s)
          | Some (screenWidth, screenHeight) =>
              let '(filePath, logged) := _generateFilePath env fileTemplate in
              let s := record logged s in
              record_into sessionPath 0 0 screenWidth screenHeight filePath options
                invocation s
          end
      end.

Definition ScreencastAreaAsync (params : Z * Z * Z * Z * string * Options)
    (invocation : Invocation)
    (s : ScreencastService) : AsyncResult * ScreencastService :=
  let returnValue := V_bs false "" in
  if disable_save_to_disk env then
    (Returned, return_value invocation returnValue s)
  else
    let sender := get_sender invocation in
    if decide (is_Some (_recorders s !! sender)) then
      (Returned, return_value invocation returnValue s)
    else
      match CreateSessionSync env with
      | inl error => (Uncaught error, s)
      | inr sessionPath =>
          let '(x, y, width, height, fileTemplate, options) := params in
          let '(filePath, logged) := _generateFilePath env fileTemplate in
          let s := record logged s in
          record_into sessionPath x y width height filePath options invocation s
      end.

Definition StopScreencastAsync (invocation : Invocation)
    (s : ScreencastService) : AsyncResult * ScreencastService :=
  let sender := get_sender invocation in
  match _recorders s !! sender with
  | None => (Returned, return_value invocation (V_b false) s)
  | Some ref =>
      match heap s !! ref with
      | None => (Uncaught (new_Error "dangling reference"), s)
      | Some recorder =>
          let '(p, s) := allocate s in
          let q := {| promise := p |} in
          let x := stopRecording q recorder in
          let s := set_heap (<[ref := this x]> (heap s)) s in
          let s := record (trace x) s in
          match completion x with
          | Normal (Pending q) =>
              (Suspended q,
               set_awaiting (<[promise q := AwaitStop sender invocation]> (awaiting s)) s)
          | Normal (Rejected error) =>
              (Returned, after_stopRecording sender invocation (Some error) s)
          | Throws error => (Uncaught error, s)
          end
      end
  end.

End ServiceMethods.

(** ** Signals and the event loop

    A Recorder is entered from outside through four callbacks: the name
    watch ([_senderVanished]), the [Closed] signal of the session
    ([_onSessionClosed]), the [PipeWireStreamAdded] signal of the stream
    ([_startPipeline]) and the bus watch ([_onBusMessage]).  The service is
    entered through its three D-Bus methods.  Each entry runs to completion
    before the next one starts. *)

Inductive Signal : Set :=
| NameVanished
| Closed
| PipeWireStreamAdded (nodeId : Z)
| BusMessage (msg : Gst.Message).

Definition handler (env : Env) (sig : Signal) : M unit :=
  match sig with
  | NameVanished => _senderVanished env
  | Closed => _onSessionClosed env
  | PipeWireStreamAdded nodeId => _startPipeline env nodeId
  | BusMessage msg => _onBusMessage env msg;; mret tt
  end.

(** [this._onErrorCallback()] runs inside the handler. *)
Definition run_callback (s : ScreencastService) (e : Effect) : ScreencastService :=
  match e with
  | Call (RemoveRecorder sender) => _removeRecorder sender s
  | _ => s
  end.

(** The methods waiting on a promise go on after the handler has returned,
    in the order in which the promises were settled. *)
Definition run_settlement (s : ScreencastService) (e : Effect) : ScreencastService :=
  match e with
  | Resolve q => settle q None s
  | Reject q error => settle q (Some error) s
  | _ => s
  end.

Definition deliver (env : Env) (ref : nat) (sig : Signal)
    (s : ScreencastService) : ScreencastService :=
  match heap s !! ref with
  | None => s
  | Some recorder =>
      let x := handler env sig recorder in
      let s := set_heap (<[ref := this x]> (heap s)) s in
      let s := record (trace x) s in
      let s := fold_left run_callback (trace x) s in
      let s :=
        match completion x with
        | Normal _ => s
        | Throws e => record [Log ("Uncaught exception: " +:+ message e)] s
        end in
      fold_left run_settlement (trace x) s
  end.

Inductive Event : Set :=
| CallScreencast (params : string * Options) (invocation : Invocation)
| CallScreencastArea (params : Z * Z * Z * Z * string * Options) (invocation : Invocation)
| CallStopScreencast (invocation : Invocation)
| Emit (ref : nat) (sig : Signal).

Definition step (s : ScreencastService) (turn : Env * Event) : ScreencastService :=
  let '(env, ev) := turn in
  match ev with
  | CallScreencast params invocation => (ScreencastAsync env params invocation s).2
  | CallScreencastArea params invocation => (ScreencastAreaAsync env params invocation s).2
  | CallStopScreencast invocation => (StopScreencastAsync invocation s).2
  | Emit ref sig => deliver env ref sig s
  end.

(** The service after its constructor: [hold()] and [release()] around the
    initialisation of GStreamer, then two empty maps. *)
Definition ScreencastService_constructor : ScreencastService :=
  let s :=
    {| _recorders := ∅; heap := ∅; _holdCount := 0; awaiting := ∅;
       allocated := 0%nat; journal := [] |} in
  release (hold s).

(** ** Reading a trace *)

(** The replies sent on one invocation. *)
Definition replies (invocation : Invocation) (tr : list Effect) : list Variant :=
  omap (fun e => match e with
                 | ReturnValue i v => if decide (i = invocation) then Some v else None
                 | _ => None
                 end) tr.

(** ** The unified fatal-error path

    [_bailOutOnError] is reached from three places: the name watch, the
    [Closed] signal, and [_handleFatalPipelineError]. *)

Inductive Origin : Set :=
| SenderVanished
| SessionClosed
| PipelineFatal (msg : string).

Definition unified_error_path (env : Env) (o : Origin) : M unit :=
  match o with
  | SenderVanished => _senderVanished env
  | SessionClosed => _onSessionClosed env
  | PipelineFatal msg => _handleFatalPipelineError env msg
  end.

(** [_onSessionClosed] returns before the path when the recorder stopped
    the session itself; the other two origins always enter it. *)
Definition entered (o : Origin) (r : Recorder) : bool :=
  match o with
  | SessionClosed => bool_decide (_sessionState r ≠ SessionState.STOPPED)
  | _ => true
  end.

(** The notifications a recorder handles, one after the other.  An
    exception that leaves a handler is caught by the main loop, and the next
    notification is handled all the same. *)
Fixpoint notified (turns : list (Env * Signal)) (r : Recorder) : Recorder * list Effect :=
  match turns with
  | [] => (r, [])
  | (env, sig) :: rest =>
      let x := handler env sig r in
      let '(r', tr) := notified rest (this x) in
      (r', (trace x ++ tr)%list)
  end.

Definition stream_added (sig : Signal) : bool :=
  match sig with
  | PipeWireStreamAdded _ => true
  | _ => false
  end.

(** The teardown steps the spec names, and the calls that carry them out. *)
Inductive Stage : Set :=
| TearDownPipeline
| StopWatching
| StopRemoteSession
| RejectOutcome
| NotifyRegistry.

Definition stage (e : Effect) : option Stage :=
  match e with
  | PipelineSetState _ Gst.NULL => Some TearDownPipeline
  | UnwatchName _ => Some StopWatching
  | SessionStopSync => Some StopRemoteSession
  | Reject _ _ => Some RejectOutcome
  | Call _ => Some NotifyRegistry
  | _ => None
  end.

Definition stages (tr : list Effect) : list Stage := omap stage tr.

(** The order as the spec lists it: rejection before notification. *)
Definition spec_position (s : Stage) : nat :=
  match s with
  | TearDownPipeline => 0
  | StopWatching => 1
  | StopRemoteSession => 2
  | RejectOutcome => 3
  | NotifyRegistry => 4
  end.

(** The order of the statements of [_bailOutOnError]. *)
Definition code_position (s : Stage) : nat :=
  match s with
  | TearDownPipeline => 0
  | StopWatching => 1
  | StopRemoteSession => 2
  | NotifyRegistry => 3
  | RejectOutcome => 4
  end.

(** No step comes before a step of lower position. *)
Fixpoint in_order (position : Stage -> nat) (l : list Stage) : bool :=
  match l with
  | a :: (b :: _) as rest => (position a <=? position b)%nat && in_order position rest
  | _ => true
  end.

Definition when {A : Type} (b : bool) (l : list A) : list A :=
  if b then l else [].

(** ** The lifecycle order of the pipeline states *)

Definition rank (s : PipelineState.t) : nat :=
  match s with
  | PipelineState.INIT => 0
  | PipelineState.PLAYING => 1
  | PipelineState.FLUSHING => 2
  | PipelineState.STOPPED => 3
  | PipelineState.ERROR => 3
  end.

(** ** Template expansion as the spec words it

    [%d] is the date, [%t] the time, [%%] a percent sign, any other escape
    nothing: the character after the percent sign is dropped; a percent
    sign that ends the template stays.  The template is read character by
    character; [n] counts the clock readings made so far. *)
Fixpoint spec_expand (env : Env) (n : nat) (chars : list string) : string :=
  match chars with
  | [] => ""
  | c :: rest =>
      if decide (c = "%") then
        match rest with
        | [] => "%"
        | e :: rest' =>
            if decide (e = "%") then "%" +:+ spec_expand env n rest'
            else if decide (e = "d") then
              format_Y_m_d (new_now_local env n) +:+ spec_expand env (S n) rest'
            else if decide (e = "t") then
              format_H_M_S (new_now_local env n) +:+ spec_expand env (S n) rest'
            else spec_expand env n rest'
        end
      else c +:+ spec_expand env n rest
  end.

(** One warning, naming the character dropped, for each escape that is
    none of [%%], [%d], [%t]. *)
Fixpoint spec_warnings (chars : list string) : list Effect :=
  match chars with
  | [] => []
  | c :: rest =>
      if decide (c = "%") then
        match rest with
        | [] => []
        | e :: rest' =>
            if decide (e = "%" ∨ e = "d" ∨ e = "t")
            then spec_warnings rest'
            else Log ("Warning: Unknown escape " +:+ e) :: spec_warnings rest'
        end
      else spec_warnings rest
  end.

(** ** The keep-alive count and the registry *)

(** 1 while some client has a recorder, 0 otherwise. *)
Definition occupied (s : ScreencastService) : Z :=
  if decide (_recorders s = ∅) then 0 else 1.

(** ** Sample values *)

Definition sample_env : Env :=
  {| set_state_NULL := Gst.SUCCESS;
     set_state_PLAYING := Gst.ASYNC;
     parse_launch_full := inr 7%nat;
     pipewiresrc_0_3_57 := true;
     videoconvert_1_20_4 := true;
     get_num_processors := 8;
     RecordAreaSync := inr "/org/gnome/Mutter/ScreenCast/Stream/u1";
     StartSync := None;
     StopSync := None;
     CreateSessionSync := inr "/org/gnome/Mutter/ScreenCast/Session/u1";
     new_SessionProxy := None;
     new_StreamProxy := None;
     ScreenSize := Some (1920, 1080);
     make_directory_with_parents := MkdirExists;
     watch_name := 5%positive;
     disable_save_to_disk := false;
     DIRECTORY_VIDEOS := Some "/home/user/Videos";
     get_home_dir := "/home/user";
     path_is_absolute :=
       (fun name => match name with String c _ => Ascii.eqb c "/"%char | _ => false end);
     build_filenamev := (fun l => foldr (fun a b => if decide (b = "") then a else a +:+ "/" +:+ b) "" l);
     new_now_local :=
       (fun _ => {| year := 2024; month := 3; day := 9;
                    hour := 7; minute := 5; second := 3 |}) |}.

(** The same machine when the session refuses to start. *)
Definition env_StartSync_fails : Env :=
  {| set_state_NULL := set_state_NULL sample_env;
     set_state_PLAYING := set_state_PLAYING sample_env;
     parse_launch_full := parse_launch_full sample_env;
     pipewiresrc_0_3_57 := pipewiresrc_0_3_57 sample_env;
     videoconvert_1_20_4 := videoconvert_1_20_4 sample_env;
     get_num_processors := get_num_processors sample_env;
     RecordAreaSync := RecordAreaSync sample_env;
     StartSync := Some (new_Error "GDBus.Error: Timeout was reached");
     StopSync := StopSync sample_env;
     CreateSessionSync := CreateSessionSync sample_env;
     new_SessionProxy := new_SessionProxy sample_env;
     new_StreamProxy := new_StreamProxy sample_env;
     ScreenSize := ScreenSize sample_env;
     make_directory_with_parents := make_directory_with_parents sample_env;
     watch_name := watch_name sample_env;
     disable_save_to_disk := disable_save_to_disk sample_env;
     DIRECTORY_VIDEOS := DIRECTORY_VIDEOS sample_env;
     get_home_dir := get_home_dir sample_env;
     path_is_absolute := path_is_absolute sample_env;
     build_filenamev := build_filenamev sample_env;
     new_now_local := new_now_local sample_env |}.

(** The same machine when the compositor cannot create a session. *)
Definition env_CreateSession_fails : Env :=
  {| set_state_NULL := set_state_NULL sample_env;
     set_state_PLAYING := set_state_PLAYING sample_env;
     parse_launch_full := parse_launch_full sample_env;
     pipewiresrc_0_3_57 := pipewiresrc_0_3_57 sample_env;
     videoconvert_1_20_4 := videoconvert_1_20_4 sample_env;
     get_num_processors := get_num_processors sample_env;
     RecordAreaSync := RecordAreaSync sample_env;
     StartSync := StartSync sample_env;
     StopSync := StopSync sample_env;
     CreateSessionSync := inl (new_Error "GDBus.Error: org.freedesktop.DBus.Error.ServiceUnknown");
     new_SessionProxy := new_SessionProxy sample_env;
     new_StreamProxy := new_StreamProxy sample_env;
     ScreenSize := ScreenSize sample_env;
     make_directory_with_parents := make_directory_with_parents sample_env;
     watch_name := watch_name sample_env;
     disable_save_to_disk := disable_save_to_disk sample_env;
     DIRECTORY_VIDEOS := DIRECTORY_VIDEOS sample_env;
     get_home_dir := get_home_dir sample_env;
     path_is_absolute := path_is_absolute sample_env;
     build_filenamev := build_filenamev sample_env;
     new_now_local := new_now_local sample_env |}.

Definition sample_invocation : Invocation := {| serial := 1; get_sender := ":1.42" |}.

(** The character U+00E9 (e with an acute accent): two bytes in UTF-8. *)
Definition e_acute : string :=
  String (Ascii.ascii_of_nat 195) (String (Ascii.ascii_of_nat 169) "").

Definition no_options : Options :=
  {| opt_pipeline := None; opt_framerate := None; opt_draw_cursor := None |}.

(** A recorder in the middle of a recording: the start has resolved, the
    pipeline plays, the session is active, the client is watched. *)
Definition recording : Recorder :=
  {| _startInvocation := sample_invocation;
     _onErrorCallback := Some (RemoveRecorder ":1.42");
     _x := 0; _y := 0; _width := 1920; _height := 1080;
     _filePath := "/home/user/Videos/cap.webm";
     _pipelineString := DEFAULT_PIPELINE;
     _framerate := DEFAULT_FRAMERATE;
     _drawCursor := DEFAULT_DRAW_CURSOR;
     _pipelineState := PipelineState.PLAYING; _pipeline := Some 7%nat;
     _nameWatchId := 5%N; _sessionState := SessionState.ACTIVE;
     _sessionProxy := "/org/gnome/Mutter/ScreenCast/Session/u1";
     _streamProxy := Some "/org/gnome/Mutter/ScreenCast/Stream/u1";
     _startRequest := None; _stopRequest := None |}.

(** The same recorder before its pipeline reached PLAYING: the start is
    still pending. *)
Definition starting : Recorder :=
  set_startRequest (Some {| promise := 1 |})
    (set_pipelineState PipelineState.INIT recording).

(** The same recorder after an accepted [stopRecording]. *)
Definition stopping : Recorder :=
  set_stopRequest (Some {| promise := 2 |})
    (set_pipelineState PipelineState.FLUSHING recording).

(** A recorder as [ScreencastAsync] leaves it when [StartSync] throws: the
    constructor ran, the executor of [startRecording] stopped half-way, the
    session never became ACTIVE. *)
Definition constructed : Recorder :=
  match (Recorder_constructor sample_env "/org/gnome/Mutter/ScreenCast/Session/u1"
           0 0 1920 1080 "/home/user/Videos/cap.webm" no_options sample_invocation
           (Some (RemoveRecorder ":1.42"))).1 with
  | Normal r => r
  | Throws _ => recording
  end.

Definition never_started : Recorder :=
  this (startRecording env_StartSync_fails {| promise := 1 |} constructed).

(** ** Predicates used in the statements *)

(** Nothing is left to release, to reject or to notify. *)
Definition spent (r : Recorder) : Prop :=
  _pipeline r = None
  ∧ _nameWatchId r = 0%N
  ∧ _sessionState r ≠ SessionState.ACTIVE
  ∧ _onErrorCallback r = None
  ∧ _startRequest r = None
  ∧ _stopRequest r = None.

(** Nothing is left to release but, possibly, a pipeline. *)
Definition drained (r : Recorder) : Prop :=
  _nameWatchId r = 0%N
  ∧ _sessionState r ≠ SessionState.ACTIVE
  ∧ _onErrorCallback r = None
  ∧ _startRequest r = None
  ∧ _stopRequest r = None.

(** A computation that never moves the pipeline state backwards. *)
Definition nondecreasing {A : Type} (m : M A) : Prop :=
  ∀ r, (rank (_pipelineState r) ≤ rank (_pipelineState (this (m r))))%nat.

(** The keep-alive count moved exactly as the registry went from empty to
    occupied or back. *)
Definition tracks (s s' : ScreencastService) : Prop :=
  _holdCount s' - _holdCount s = occupied s' - occupied s.

(** An effect that only writes to the log. *)
Definition is_Log (e : Effect) : Prop := ∃ msg, e = Log msg.

Definition stop_invocation : Invocation := {| serial := 2; get_sender := ":1.42" |}.

(** One whole recording, from the call that starts it to the end of
    stream that follows the call that stops it. *)
Definition sample_session : list (Env * Event) :=
  [(sample_env, CallScreencast ("cap-%d.webm", no_options) sample_invocation);
   (sample_env, Emit 0 (PipeWireStreamAdded 33));
   (sample_env, Emit 0 (BusMessage (Gst.STATE_CHANGED 7%nat Gst.PLAYING)));
   (sample_env, CallStopScreencast stop_invocation);
   (sample_env, Emit 0 (BusMessage Gst.EOS));
   (sample_env, Emit 0 Closed)].

(** The service while that recording plays. *)
Definition playing_service : ScreencastService :=
  fold_left step (take 3 sample_session) ScreencastService_constructor.

(** ** More predicates used in the statements *)

(** A run that sets none of these fields: the configuration is as it
    was, the callback, the two pending outcomes and the name watch are as
    they were or cleared, the session state is as it was or STOPPED.  (The
    pipeline and its state are not among them.) *)
Definition winds_down (r r' : Recorder) : Prop :=
  _startInvocation r' = _startInvocation r
  ∧ (_x r', _y r', _width r', _height r') = (_x r, _y r, _width r, _height r)
  ∧ _filePath r' = _filePath r
  ∧ (_pipelineString r', _framerate r', _drawCursor r')
    = (_pipelineString r, _framerate r, _drawCursor r)
  ∧ (_sessionProxy r', _streamProxy r') = (_sessionProxy r, _streamProxy r)
  ∧ (_onErrorCallback r' = _onErrorCallback r ∨ _onErrorCallback r' = None)
  ∧ (_startRequest r' = _startRequest r ∨ _startRequest r' = None)
  ∧ (_stopRequest r' = _stopRequest r ∨ _stopRequest r' = None)
  ∧ (_nameWatchId r' = _nameWatchId r ∨ _nameWatchId r' = 0%N)
  ∧ (_sessionState r' = _sessionState r ∨ _sessionState r' = SessionState.STOPPED).

(** A computation that sets none of them. *)
Definition winding_down {A : Type} (m : M A) : Prop :=
  ∀ r, winds_down r (this (m r)).

(** Every reference the registry holds points at an object. *)
Definition heap_closed (s : ScreencastService) : Prop :=
  ∀ sender ref, _recorders s !! sender = Some ref -> is_Some (heap s !! ref).

(** Objects stay, registrations only go away. *)
Definition outlives (s s' : ScreencastService) : Prop :=
  (∀ ref, is_Some (heap s !! ref) -> is_Some (heap s' !! ref))
  ∧ (∀ sender ref, _recorders s' !! sender = Some ref -> _recorders s !! sender = Some ref).

(** A template without any percent sign. *)
Fixpoint plain (template : string) : bool :=
  match template with
  | EmptyString => true
  | String c rest => negb (Ascii.eqb c "%"%char) && plain rest
  end.

(** The callbacks run and the promises settled by a trace, in order. *)
Definition callbacks_of (tr : list Effect) : list Callback :=
  omap (fun e => match e with Call cb => Some cb | _ => None end) tr.

Definition settlements_of (tr : list Effect) : list (Request * option Error) :=
  omap (fun e => match e with
                 | Resolve q => Some (q, None)
                 | Reject q error => Some (q, Some error)
                 | _ => None
                 end) tr.

(** The same machine when the pipeline description does not parse. *)
Definition env_parse_fails : Env :=
  {| set_state_NULL := set_state_NULL sample_env;
     set_state_PLAYING := set_state_PLAYING sample_env;
     parse_launch_full := inl (new_Error "no element vp8enc");
     pipewiresrc_0_3_57 := pipewiresrc_0_3_57 sample_env;
     videoconvert_1_20_4 := videoconvert_1_20_4 sample_env;
     get_num_processors := get_num_processors sample_env;
     RecordAreaSync := RecordAreaSync sample_env;
     StartSync := StartSync sample_env;
     StopSync := StopSync sample_env;
     CreateSessionSync := CreateSessionSync sample_env;
     new_SessionProxy := new_SessionProxy sample_env;
     new_StreamProxy := new_StreamProxy sample_env;
     ScreenSize := ScreenSize sample_env;
     make_directory_with_parents := make_directory_with_parents sample_env;
     watch_name := watch_name sample_env;
     disable_save_to_disk := disable_save_to_disk sample_env;
     DIRECTORY_VIDEOS := DIRECTORY_VIDEOS sample_env;
     get_home_dir := get_home_dir sample_env;
     path_is_absolute := path_is_absolute sample_env;
     build_filenamev := build_filenamev sample_env;
     new_now_local := new_now_local sample_env |}.

(** The same machine when the session refuses to stop. *)
Definition env_StopSync_fails : Env :=
  {| set_state_NULL := set_state_NULL sample_env;
     set_state_PLAYING := set_state_PLAYING sample_env;
     parse_launch_full := parse_launch_full sample_env;
     pipewiresrc_0_3_57 := pipewiresrc_0_3_57 sample_env;
     videoconvert_1_20_4 := videoconvert_1_20_4 sample_env;
     get_num_processors := get_num_processors sample_env;
     RecordAreaSync := RecordAreaSync sample_env;
     StartSync := StartSync sample_env;
     StopSync := Some (new_Error "GDBus.Error: Timeout was reached");
     CreateSessionSync := CreateSessionSync sample_env;
     new_SessionProxy := new_SessionProxy sample_env;
     new_StreamProxy := new_StreamProxy sample_env;
     ScreenSize := ScreenSize sample_env;
     make_directory_with_parents := make_directory_with_parents sample_env;
     watch_name := watch_name sample_env;
     disable_save_to_disk := disable_save_to_disk sample_env;
     DIRECTORY_VIDEOS := DIRECTORY_VIDEOS sample_env;
     get_home_dir := get_home_dir sample_env;
     path_is_absolute := path_is_absolute sample_env;
     build_filenamev := build_filenamev sample_env;
     new_now_local := new_now_local sample_env |}.

(** The service right after the call that starts a recording, and after
    the call that stops it. *)
Definition starting_service : ScreencastService :=
  fold_left step (take 1 sample_session) ScreencastService_constructor.

Definition stopping_service : ScreencastService :=
  fold_left step (take 4 sample_session) ScreencastService_constructor.

(** ** The fatal-error path in one piece

    The recorder after the three release steps, the recorder after the
    callback and the pending outcomes are dropped, and the whole run of
    [_bailOutOnError] written out from them. *)
Definition released (r : Recorder) : Recorder :=
  set_sessionState
    (if decide (_sessionState r = SessionState.ACTIVE) then SessionState.STOPPED
     else _sessionState r)
    (set_nameWatchId 0%N
       (set_pipeline None
          (set_pipelineState
             (if _pipeline r is Some _ then PipelineState.STOPPED else _pipelineState r)
             r))).

Definition cleared (r : Recorder) : Recorder :=
  set_stopRequest None (set_startRequest None (set_onErrorCallback None r)).

Definition release_trace (env : Env) (r : Recorder) : list Effect :=
  (match _pipeline r with
   | Some p =>
       PipelineSetState p Gst.NULL
       :: (if decide (set_state_NULL env ≠ Gst.SUCCESS)
           then [Log "Failed to set pipeline state to NULL"] else [])
   | None => []
   end
   ++ (if decide (_nameWatchId r ≠ 0%N) then [UnwatchName (_nameWatchId r)] else [])
   ++ (if decide (_sessionState r = SessionState.ACTIVE) then [SessionStopSync] else []))%list.

Definition rejections (error : Error) (r : Recorder) : list Effect :=
  (match _startRequest r with Some q => [Reject q error] | None => [] end
   ++ match _stopRequest r with Some q => [Reject q error] | None => [] end)%list.

Definition bailed_out (env : Env) (error : Error) (r : Recorder) : Run unit :=
  match (if decide (_sessionState r = SessionState.ACTIVE) then StopSync env else None) with
  | Some e => mkRun (Throws e) (released r) (release_trace env r)
  | None =>
      mkRun (Normal tt) (cleared (released r))
        (release_trace env r
         ++ Log ("Recorder error: " +:+ message error)
         :: match _onErrorCallback r with Some cb => [Call cb] | None => [] end
         ++ rejections error r)%list
  end.

(** ** The text handed to GStreamer

    [String.prototype.replaceAll] for the pattern [%T]: every occurrence,
    found from left to right, is replaced. *)
Fixpoint replaceAll_T (replacement : string) (s : string) : string :=
  match s with
  | EmptyString => ""
  | String c rest =>
      match rest with
      | String d rest' =>
          if Ascii.eqb c "%"%char && Ascii.eqb d "T"%char
          then replacement +:+ replaceAll_T replacement rest'
          else String c (replaceAll_T replacement rest)
      | EmptyString => String c ""
      end
  end.

(** Whether [%T] occurs in a text. *)
Fixpoint has_T (s : string) : bool :=
  match s with
  | EmptyString => false
  | String c rest =>
      match rest with
      | String d _ => (Ascii.eqb c "%"%char && Ascii.eqb d "T"%char) || has_T rest
      | EmptyString => false
      end
  end.

Definition LF : string := String (Ascii.ascii_of_nat 10) "".
Definition DQUOTE : string := String (Ascii.ascii_of_nat 34) "".

(** The template literal of [_ensurePipeline], before the thread count is
    put in. *)
Definition fullPipeline_template (d : PipelineDescr) : string :=
  LF +:+ "            pipewiresrc path=" +:+ pretty (descr_path d)
  +:+ LF +:+ "                        always-copy="
  +:+ (if descr_always_copy d then "true" else "false")
  +:+ LF +:+ "                        do-timestamp=true"
  +:+ LF +:+ "                        keepalive-time=1000"
  +:+ LF +:+ "                        resend-last=true !"
  +:+ LF +:+ "            video/x-raw,max-framerate=" +:+ pretty (descr_max_framerate d)
  +:+ "/1 !"
  +:+ LF +:+ "            " +:+ descr_pipeline d +:+ " !"
  +:+ LF +:+ "            filesink location=" +:+ DQUOTE +:+ descr_location d +:+ DQUOTE.

(** The text after [_substituteThreadCount]. *)
Definition fullPipeline (d : PipelineDescr) : string :=
  replaceAll_T (pretty (descr_threads d)) (fullPipeline_template d).


(** A text in which neither [%] nor [T] occurs, a text that starts with
    [T], and a text that ends with [%]. *)
Fixpoint inert (s : string) : bool :=
  match s with
  | EmptyString => true
  | String c rest =>
      negb (Ascii.eqb c "%"%char) && negb (Ascii.eqb c "T"%char) && inert rest
  end.

Definition starts_T (s : string) : bool :=
  match s with
  | String c _ => Ascii.eqb c "T"%char
  | EmptyString => false
  end.

Fixpoint ends_percent (s : string) : bool :=
  match s with
  | EmptyString => false
  | String c EmptyString => Ascii.eqb c "%"%char
  | String _ rest => ends_percent rest
  end.

(** ** A fatal error, seen from outside

    What it means for a run [x] on the recorder [r] to treat something as
    a fatal error with the message [msg]: the release steps happen in their
    order, the recorder ends without pipeline, name watch and active
    session, and, unless the remote stop throws, the registry is notified
    and every pending outcome is rejected with the message and cleared.
    When the remote stop throws, its exception leaves the handler and
    nothing is settled. *)
Definition ends_as_fatal_error {A : Type} (env : Env) (msg : string) (r : Recorder)
    (x : Run A) : Prop :=
  let stop := bool_decide (_sessionState r = SessionState.ACTIVE) in
  let cut := stop && bool_decide (is_Some (StopSync env)) in
  _pipeline (this x) = None
  ∧ _nameWatchId (this x) = 0%N
  ∧ _sessionState (this x) ≠ SessionState.ACTIVE
  ∧ stages (trace x)
    = (when (bool_decide (is_Some (_pipeline r))) [TearDownPipeline]
       ++ when (bool_decide (_nameWatchId r ≠ 0%N)) [StopWatching]
       ++ when stop [StopRemoteSession]
       ++ when (negb cut)
            (when (bool_decide (is_Some (_onErrorCallback r))) [NotifyRegistry]
             ++ when (bool_decide (is_Some (_startRequest r))) [RejectOutcome]
             ++ when (bool_decide (is_Some (_stopRequest r))) [RejectOutcome]))%list
  ∧ ((_sessionState r = SessionState.ACTIVE -> StopSync env = None) ->
       (∃ a, completion x = Normal a)
       ∧ _onErrorCallback (this x) = None
       ∧ _startRequest (this x) = None
       ∧ _stopRequest (this x) = None
       ∧ ∀ q, _startRequest r = Some q ∨ _stopRequest r = Some q ->
              Reject q (new_Error ("Fatal pipeline error: " +:+ msg)) ∈ trace x)
  ∧ (∀ e, _sessionState r = SessionState.ACTIVE -> StopSync env = Some e ->
       completion x = Throws e ∧ settlements_of (trace x) = []).

(** * Properties *)

(** ** Running a computation *)

(** Unfolds the plumbing of [M] and nothing else. *)
Ltac step_M :=
  cbv beta iota zeta delta
    [mbind M_bind mret M_ret getThis assign emit throw log new_Promise
     completion this trace].

(** Case analysis on the two answers the teardown reads. *)
Ltac split_env env :=
  let sn := fresh "sn" in
  let ss := fresh "ss" in
  destruct env as [sn ? ? ? ? ? ? ? ss ? ? ? ? ? ? ? ? ? ? ? ?];
  destruct sn, ss.

(** Names for the fields of a recorder that change after construction. *)
Ltac name_fields r :=
  destruct r as [? cb ? ? ? ? ? ? ? ? ps pl w ss ? ? sq tq].

Lemma then_ret {A : Type} (m : M unit) (a : A) (r : Recorder) :
  this ((m;; mret a) r) = this (m r)
  ∧ trace ((m;; mret a) r) = trace (m r)
  ∧ completion ((m;; mret a) r)
      = match completion (m r) with Normal _ => Normal a | Throws e => Throws e end.
Proof.
  step_M. destruct (m r) as [[[]|e] r' tr]; cbn; rewrite ?app_nil_r; done.
Qed.

Lemma emit_then {A : Type} (e : Effect) (m : M A) (r : Recorder) :
  (emit e;; m) r = mkRun (completion (m r)) (this (m r)) (e :: trace (m r)).
Proof. step_M. destruct (m r) as [[a|err] r' tr]; reflexivity. Qed.

Lemma assign_then {A : Type} (f : Recorder -> Recorder) (m : M A) (r : Recorder) :
  (assign f;; m) r = m (f r).
Proof. step_M. destruct (m (f r)) as [c r' tr]. destruct c; reflexivity. Qed.

Lemma this_then {A : Type} (k : Recorder -> M A) (r : Recorder) :
  (getThis ≫= k) r = k r r.
Proof. step_M. destruct (k r r) as [c r' tr]. destruct c; reflexivity. Qed.

Lemma bind_run {A B : Type} (m : M A) (k : A -> M B) (r : Recorder) :
  (m ≫= k) r
  = match completion (m r) with
    | Normal a =>
        mkRun (completion (k a (this (m r)))) (this (k a (this (m r))))
          (trace (m r) ++ trace (k a (this (m r))))
    | Throws e => mkRun (Throws e) (this (m r)) (trace (m r))
    end.
Proof. reflexivity. Qed.

Lemma ret_run {A : Type} (a : A) (r : Recorder) : (mret a : M A) r = mkRun (Normal a) r [].
Proof. reflexivity. Qed.

(** ** The fatal-error path, written out *)

Lemma bailOut_closed (env : Env) (error : Error) (r : Recorder) :
  _bailOutOnError env error r = bailed_out env error r.
Proof.
  split_env env; name_fields r; destruct cb, pl, w, ss, sq, tq; vm_compute; reflexivity.
Qed.

Lemma path_closed (env : Env) (o : Origin) (r : Recorder) :
  unified_error_path env o r
  = match o with
    | SenderVanished => bailed_out env (new_Error "Sender has vanished") r
    | SessionClosed =>
        if decide (_sessionState r = SessionState.STOPPED) then mkRun (Normal tt) r []
        else bailed_out env (new_Error "Session closed unexpectedly")
               (set_sessionState SessionState.STOPPED r)
    | PipelineFatal msg =>
        bailed_out env (new_Error ("Fatal pipeline error: " +:+ msg))
          (set_pipelineState PipelineState.ERROR r)
    end.
Proof.
  destruct o; unfold unified_error_path.
  - apply bailOut_closed.
  - unfold _onSessionClosed. rewrite this_then.
    case_decide; [reflexivity|]. rewrite assign_then. apply bailOut_closed.
  - unfold _handleFatalPipelineError. rewrite assign_then. apply bailOut_closed.
Qed.

Lemma entered_closed (o : Origin) (r : Recorder) :
  entered o r = true ->
  ∃ error r0,
    (∀ env, unified_error_path env o r = bailed_out env error r0)
    ∧ _onErrorCallback r0 = _onErrorCallback r
    ∧ _startRequest r0 = _startRequest r
    ∧ _stopRequest r0 = _stopRequest r.
Proof.
  intros He. destruct o; cbn [entered] in He.
  - exists (new_Error "Sender has vanished"), r.
    split; [intros env; apply (path_closed env SenderVanished)|done].
  - apply bool_decide_eq_true in He.
    exists (new_Error "Session closed unexpectedly"),
      (set_sessionState SessionState.STOPPED r).
    split; [|done].
    intros env. rewrite (path_closed env SessionClosed).
    rewrite decide_False by exact He. reflexivity.
  - exists (new_Error ("Fatal pipeline error: " +:+ msg)),
      (set_pipelineState PipelineState.ERROR r).
    split; [intros env; apply (path_closed env (PipelineFatal msg))|done].
Qed.

Lemma release_trace_silent (env : Env) (r : Recorder) :
  settlements_of (release_trace env r) = [] ∧ callbacks_of (release_trace env r) = [].
Proof.
  unfold release_trace, settlements_of, callbacks_of. rewrite !omap_app.
  destruct (_pipeline r); repeat case_decide; done.
Qed.

Lemma fatal_closed (env : Env) (msg : string) (r : Recorder) :
  _handleFatalPipelineError env msg r
  = bailed_out env (new_Error ("Fatal pipeline error: " +:+ msg))
      (set_pipelineState PipelineState.ERROR r).
Proof. apply (path_closed env (PipelineFatal msg)). Qed.

Lemma bailed_out_releases (env : Env) (error : Error) (r : Recorder) :
  _pipeline (this (bailed_out env error r)) = None
  ∧ _nameWatchId (this (bailed_out env error r)) = 0%N
  ∧ _sessionState (this (bailed_out env error r)) ≠ SessionState.ACTIVE
  ∧ _pipelineState (this (bailed_out env error r))
    = (if _pipeline r is Some _ then PipelineState.STOPPED else _pipelineState r).
Proof.
  unfold bailed_out.
  assert (Hss : _sessionState (released r) ≠ SessionState.ACTIVE).
  { unfold released. cbn [_sessionState set_sessionState]. case_decide; [discriminate|done]. }
  destruct (if decide _ then _ else _); done.
Qed.

Lemma bailed_out_normal (env : Env) (error : Error) (r : Recorder) :
  completion (bailed_out env error r) = Normal tt ->
  bailed_out env error r
  = mkRun (Normal tt) (cleared (released r))
      (release_trace env r
       ++ Log ("Recorder error: " +:+ message error)
       :: match _onErrorCallback r with Some cb => [Call cb] | None => [] end
       ++ rejections error r)%list.
Proof. unfold bailed_out. destruct (if decide _ then _ else _); [discriminate|reflexivity]. Qed.

Lemma EOS_flushing_closed (env : Env) (r : Recorder) :
  _pipelineState r = PipelineState.FLUSHING ->
  _onBusMessage env Gst.EOS r
  = match (if decide (_sessionState r = SessionState.ACTIVE) then StopSync env else None)
    with
    | Some e =>
        mkRun (Throws e) (released r) (AddRecentItem (_filePath r) :: release_trace env r)
    | None =>
        match _stopRequest r with
        | Some q =>
            mkRun (Normal true) (set_stopRequest None (released r))
              (AddRecentItem (_filePath r) :: release_trace env r ++ [Resolve q])
        | None =>
            mkRun (Throws (new_Error "TypeError: this._stopRequest is undefined"))
              (released r) (AddRecentItem (_filePath r) :: release_trace env r ++ [])
        end
    end.
Proof.
  split_env env; name_fields r; cbn [_pipelineState]; intros ->;
    destruct pl, w, ss, tq; vm_compute; reflexivity.
Qed.

Lemma settlements_app (tr1 tr2 : list Effect) :
  settlements_of (tr1 ++ tr2) = (settlements_of tr1 ++ settlements_of tr2)%list.
Proof. apply omap_app. Qed.

Lemma settlements_AddRecentItem (filePath : string) (tr : list Effect) :
  settlements_of (AddRecentItem filePath :: tr) = settlements_of tr.
Proof. reflexivity. Qed.

Lemma spent_cleared_released (r : Recorder) : spent (cleared (released r)).
Proof.
  unfold spent, cleared, released.
  cbn [_pipeline _nameWatchId _sessionState _onErrorCallback _startRequest _stopRequest
       set_stopRequest set_startRequest set_onErrorCallback set_sessionState
       set_nameWatchId set_pipeline set_pipelineState].
  repeat split. case_decide; [discriminate|done].
Qed.

(** ** The unified fatal-error path *)

Lemma unified_error_path_stages (env : Env) (o : Origin) (r : Recorder) :
  stages (trace (unified_error_path env o r))
  = when (entered o r)
      (when (bool_decide (is_Some (_pipeline r))) [TearDownPipeline]
       ++ when (bool_decide (_nameWatchId r ≠ 0%N)) [StopWatching]
       ++ when (match o with
                | SessionClosed => false
                | _ => bool_decide (_sessionState r = SessionState.ACTIVE)
                end) [StopRemoteSession]
       ++ when (negb (match o with
                      | SessionClosed => false
                      | _ => bool_decide (_sessionState r = SessionState.ACTIVE)
                      end && bool_decide (is_Some (StopSync env))))
            (when (bool_decide (is_Some (_onErrorCallback r))) [NotifyRegistry]
             ++ when (bool_decide (is_Some (_startRequest r))) [RejectOutcome]
             ++ when (bool_decide (is_Some (_stopRequest r))) [RejectOutcome]))%list.
Proof.
  split_env env; destruct o; name_fields r; destruct cb, pl, w, ss, sq, tq;
    vm_compute; reflexivity.
Qed.

(** C1, as the code has it.  Whatever the origin, the path tears down the
    pipeline (if there is one), then stops watching the sender (if it is
    watched), then asks the remote session to stop (if it is ACTIVE; never
    after an unexpected close, which has already marked it STOPPED), then
    notifies the registry, and only then rejects the pending start and stop
    outcomes.  When the remote stop itself throws, the path ends there. *)
Theorem unified_error_path_order (env : Env) (o : Origin) (r : Recorder) :
  let tr := stages (trace (unified_error_path env o r)) in
  let stop :=
    match o with
    | SessionClosed => false
    | _ => bool_decide (_sessionState r = SessionState.ACTIVE)
    end in
  let cut := stop && bool_decide (is_Some (StopSync env)) in
  in_order code_position tr = true
  ∧ tr = when (entered o r)
           (when (bool_decide (is_Some (_pipeline r))) [TearDownPipeline]
            ++ when (bool_decide (_nameWatchId r ≠ 0%N)) [StopWatching]
            ++ when stop [StopRemoteSession]
            ++ when (negb cut)
                 (when (bool_decide (is_Some (_onErrorCallback r))) [NotifyRegistry]
                  ++ when (bool_decide (is_Some (_startRequest r))) [RejectOutcome]
                  ++ when (bool_decide (is_Some (_stopRequest r))) [RejectOutcome]))%list.
Proof.
  split_env env; destruct o; name_fields r; destruct cb, pl, w, ss, sq, tq;
    split; vm_compute; reflexivity.
Qed.

(** C1, as the claim words it, fails: with a start pending, the registry
    is notified before the start outcome is rejected. *)
Lemma notification_precedes_rejection :
  trace (unified_error_path sample_env SenderVanished starting)
    = [PipelineSetState 7%nat Gst.NULL; UnwatchName 5%N; SessionStopSync;
       Log "Recorder error: Sender has vanished";
       Call (RemoveRecorder ":1.42");
       Reject {| promise := 1%nat |} (new_Error "Sender has vanished")]
  ∧ in_order spec_position
      (stages (trace (unified_error_path sample_env SenderVanished starting))) = false.
Proof. split; vm_compute; reflexivity. Qed.

(** Once the path has run to its end, the recorder owns nothing more. *)
Lemma ran_once_spent (env : Env) (o : Origin) (r : Recorder) :
  entered o r = true ->
  completion (unified_error_path env o r) = Normal tt ->
  spent (this (unified_error_path env o r))
  ∧ (_sessionState r ≠ SessionState.INIT ->
     _sessionState (this (unified_error_path env o r)) = SessionState.STOPPED).
Proof.
  unfold spent.
  split_env env; destruct o; name_fields r; destruct cb, pl, w, ss, sq, tq;
    intros He Hc; vm_compute in He, Hc; try discriminate He; try discriminate Hc;
    (split; [repeat (split; [vm_compute; first [reflexivity | discriminate]|]);
             vm_compute; reflexivity
            | intros Hi; vm_compute; first [reflexivity | contradiction]]).
Qed.

(** On a spent recorder the path finds nothing to do but write its log
    line; the only fields it can still change are the two state marks. *)
Lemma spent_path (env : Env) (o : Origin) (r : Recorder) :
  spent r ->
  completion (unified_error_path env o r) = Normal tt
  ∧ stages (trace (unified_error_path env o r)) = []
  ∧ Forall is_Log (trace (unified_error_path env o r))
  ∧ this (unified_error_path env o r)
      = match o with
        | SenderVanished => r
        | SessionClosed => set_sessionState SessionState.STOPPED r
        | PipelineFatal _ => set_pipelineState PipelineState.ERROR r
        end
  ∧ (_sessionState r = SessionState.STOPPED ->
     unified_error_path env SessionClosed r = mkRun (Normal tt) r []).
Proof.
  unfold spent. name_fields r. cbn [_pipeline _nameWatchId _sessionState
    _onErrorCallback _startRequest _stopRequest].
  intros (-> & -> & Hss & -> & -> & ->).
  destruct ss; [|contradiction|]; destruct o;
    (split; [vm_compute; reflexivity|]);
    (split; [vm_compute; reflexivity|]);
    (split; [vm_compute; repeat constructor; eexists; reflexivity|]);
    (split; [vm_compute; reflexivity|]);
    intros Hs; first [discriminate Hs | vm_compute; reflexivity].
Qed.

(** One notification on a recorder that has nothing left but, possibly, a
    pipeline: it can tear a pipeline down and nothing else, and unless it is
    the stream that is added it installs none. *)
Ltac after_the_run :=
  split; [unfold drained; repeat split; vm_compute; solve [reflexivity | discriminate]|];
  split; [vm_compute; repeat constructor|];
  split; [intros Hs; first [discriminate Hs | vm_compute; reflexivity]|];
  intros Hp Hsa; first [discriminate Hp | discriminate Hsa | split; vm_compute; reflexivity].

Lemma later_signal (env : Env) (sig : Signal) (r : Recorder) :
  drained r ->
  drained (this (handler env sig r))
  ∧ Forall (eq TearDownPipeline) (stages (trace (handler env sig r)))
  ∧ (_sessionState r = SessionState.STOPPED ->
     _sessionState (this (handler env sig r)) = SessionState.STOPPED)
  ∧ (_pipeline r = None -> stream_added sig = false ->
     _pipeline (this (handler env sig r)) = None
     ∧ stages (trace (handler env sig r)) = []).
Proof.
  unfold drained at 1. name_fields r.
  cbn [_nameWatchId _sessionState _onErrorCallback _startRequest _stopRequest].
  intros (-> & Hss & -> & -> & ->).
  destruct ss; [|by destruct Hss|]; clear Hss;
    destruct env as [sn sp pf ? ? ? ? ? st ? ? ? ? ? ? ? ? ? ? ? ?];
    destruct sig as [| |nodeId|[src newState| |text|]].
  all: [> destruct sn, pl; after_the_run
        | destruct sn, pl; after_the_run
        | destruct pf; [destruct sn, pl; after_the_run | destruct sn, sp, pl; after_the_run]
        | destruct pl; unfold handler, _onBusMessage; step_M; case_decide; after_the_run
        | destruct sn, pl, ps; after_the_run
        | destruct sn, pl, ps; after_the_run
        | destruct pl; after_the_run
        | destruct sn, pl; after_the_run
        | destruct sn, pl; after_the_run
        | destruct pf; [destruct sn, pl; after_the_run | destruct sn, sp, pl; after_the_run]
        | destruct pl; unfold handler, _onBusMessage; step_M; case_decide; after_the_run
        | destruct sn, pl, ps; after_the_run
        | destruct sn, pl, ps; after_the_run
        | destruct pl; after_the_run ].
Qed.

Lemma stages_app (tr1 tr2 : list Effect) :
  stages (tr1 ++ tr2) = (stages tr1 ++ stages tr2)%list.
Proof. apply omap_app. Qed.

Lemma later_signals (turns : list (Env * Signal)) (r : Recorder) :
  drained r ->
  drained (notified turns r).1
  ∧ Forall (eq TearDownPipeline) (stages (notified turns r).2)
  ∧ (_sessionState r = SessionState.STOPPED ->
     _sessionState (notified turns r).1 = SessionState.STOPPED)
  ∧ (_pipeline r = None -> Forall (fun turn => stream_added turn.2 = false) turns ->
     _pipeline (notified turns r).1 = None ∧ stages (notified turns r).2 = []).
Proof.
  revert r. induction turns as [|[env sig] turns IH]; intros r Hd.
  - cbn [notified fst snd]. split; [exact Hd|]. split; [constructor|]. by split.
  - cbn [notified].
    destruct (later_signal env sig r Hd) as (Hd1 & Hf1 & Hs1 & Hp1).
    destruct (IH (this (handler env sig r)) Hd1) as (Hd2 & Hf2 & Hs2 & Hp2).
    destruct (notified turns (this (handler env sig r))) as [r' tr] eqn:E.
    cbn [fst snd] in *. rewrite stages_app.
    split; [exact Hd2|]. split; [by apply Forall_app|]. split; [auto|].
    intros Hp Hall. apply Forall_cons in Hall as [Hsig Hall]. cbn [snd] in Hsig.
    destruct (Hp1 Hp Hsig) as [Hp1' Hst1]. destruct (Hp2 Hp1' Hall) as [Hp2' Hst2].
    by rewrite Hst1, Hst2.
Qed.

(** C2, as the code has it.  After the path has run once to its end,
    whatever notifications the recorder handles later, in whatever order,
    none of them releases the name watch or the session again, rejects an
    outcome or notifies the registry: the only step that can still happen is
    the teardown of a pipeline, and only of one that a later stream-added
    notification installed.  With no such notification in between, nothing
    is released at all, and a later trigger of any origin writes a log line
    at most and can change only the two state marks ([_sessionState] to
    STOPPED on a [Closed] signal, [_pipelineState] to ERROR on a fatal
    pipeline error).  When the session had left INIT before the first run,
    a later [Closed] signal does nothing at all. *)
Theorem later_trigger_releases_nothing (env1 env2 : Env) (o1 o2 : Origin) (r : Recorder)
    (turns : list (Env * Signal)) :
  entered o1 r = true ->
  completion (unified_error_path env1 o1 r) = Normal tt ->
  let r1 := this (unified_error_path env1 o1 r) in
  let r2 := (notified turns r1).1 in
  let x2 := unified_error_path env2 o2 r2 in
  Forall (eq TearDownPipeline) (stages (notified turns r1).2)
  ∧ drained r2
  ∧ (Forall (fun turn => stream_added turn.2 = false) turns ->
     stages (notified turns r1).2 = []
     ∧ spent r2
     ∧ completion x2 = Normal tt
     ∧ stages (trace x2) = []
     ∧ Forall is_Log (trace x2)
     ∧ this x2 = match o2 with
                 | SenderVanished => r2
                 | SessionClosed => set_sessionState SessionState.STOPPED r2
                 | PipelineFatal _ => set_pipelineState PipelineState.ERROR r2
                 end
     ∧ (_sessionState r ≠ SessionState.INIT ->
        unified_error_path env2 SessionClosed r2 = mkRun (Normal tt) r2 [])).
Proof.
  intros He Hc r1 r2 x2. subst x2 r2 r1.
  destruct (ran_once_spent env1 o1 r He Hc) as [Hspent Hstopped].
  assert (Hd : drained (this (unified_error_path env1 o1 r))).
  { destruct Hspent as (_ & Hd). exact Hd. }
  destruct (later_signals turns _ Hd) as (Hd2 & Hf & Hs & Hp).
  split; [exact Hf|]. split; [exact Hd2|]. intros Hall.
  destruct (Hp (proj1 Hspent) Hall) as [Hp2 Hst].
  assert (Hspent2 : spent (notified turns (this (unified_error_path env1 o1 r))).1).
  { split; [exact Hp2 | exact Hd2]. }
  destruct (spent_path env2 o2 _ Hspent2) as (H1 & H2 & H3 & H4 & _).
  destruct (spent_path env2 SessionClosed _ Hspent2) as (_ & _ & _ & _ & H5).
  do 6 (split; [assumption|]).
  intros Hi. apply H5, Hs, Hstopped, Hi.
Qed.

Lemma later_trigger_releases_nothing_witness :
  let r1 := this (unified_error_path sample_env (PipelineFatal "boom") recording) in
  entered (PipelineFatal "boom") recording = true
  ∧ completion (unified_error_path sample_env (PipelineFatal "boom") recording) = Normal tt
  ∧ _sessionState recording ≠ SessionState.INIT
  ∧ unified_error_path sample_env SessionClosed r1 = mkRun (Normal tt) r1 []
  ∧ stages (notified [(sample_env, NameVanished);
                      (sample_env, BusMessage (Gst.ERROR "again"));
                      (sample_env, Closed)] r1).2 = [].
Proof.
  assert (He : entered (PipelineFatal "boom") recording = true) by reflexivity.
  assert (Hc : completion (unified_error_path sample_env (PipelineFatal "boom") recording)
               = Normal tt) by (vm_compute; reflexivity).
  assert (Hi : _sessionState recording ≠ SessionState.INIT) by discriminate.
  split; [exact He|]. split; [exact Hc|]. split; [exact Hi|]. split.
  - destruct (later_trigger_releases_nothing sample_env sample_env (PipelineFatal "boom")
                SessionClosed recording [] He Hc) as (_ & _ & H).
    destruct (H (Forall_nil_2 _)) as (_ & _ & _ & _ & _ & _ & Hclosed).
    exact (Hclosed Hi).
  - destruct (later_trigger_releases_nothing sample_env sample_env (PipelineFatal "boom")
                SessionClosed recording
                [(sample_env, NameVanished);
                 (sample_env, BusMessage (Gst.ERROR "again"));
                 (sample_env, Closed)] He Hc) as (_ & _ & H).
    assert (Hall : Forall (fun turn : Env * Signal => stream_added turn.2 = false)
                     [(sample_env, NameVanished);
                      (sample_env, BusMessage (Gst.ERROR "again"));
                      (sample_env, Closed)]) by (repeat constructor).
    exact (proj1 (H Hall)).
Defined.

(** C2, as the claim words it, fails when the session never became ACTIVE:
    after the path has run (for a vanished sender, or for a fatal pipeline
    error), a [Closed] signal still moves [_sessionState] from INIT to
    STOPPED and writes a log line. *)
Lemma Closed_after_the_path_changes_state :
  let r1 := this (unified_error_path sample_env SenderVanished never_started) in
  let r1' := this (unified_error_path sample_env (PipelineFatal "boom") never_started) in
  (_sessionState r1 = SessionState.INIT
   ∧ _sessionState (this (unified_error_path sample_env SessionClosed r1))
       = SessionState.STOPPED
   ∧ trace (unified_error_path sample_env SessionClosed r1)
       = [Log "Recorder error: Session closed unexpectedly"])
  ∧ (_sessionState r1' = SessionState.INIT
     ∧ _sessionState (this (unified_error_path sample_env SessionClosed r1'))
         = SessionState.STOPPED
     ∧ this (unified_error_path sample_env SessionClosed r1') ≠ r1').
Proof.
  cbv zeta. split; [|split; [|split]].
  - (split; [|split]); vm_compute; reflexivity.
  - vm_compute; reflexivity.
  - vm_compute; reflexivity.
  - intros H. apply (f_equal _sessionState) in H. vm_compute in H. discriminate H.
Qed.

(** ** Bus messages *)

Lemma bailed_out_no_recent_item (env : Env) (error : Error) (r : Recorder)
    (filePath : string) :
  AddRecentItem filePath ∉ trace (bailed_out env error r).
Proof.
  unfold bailed_out, release_trace, rejections.
  destruct (if decide (_sessionState r = SessionState.ACTIVE) then StopSync env else None);
    cbn [trace];
    destruct (_pipeline r), (_onErrorCallback r), (_startRequest r), (_stopRequest r);
    repeat case_decide; cbn [app];
    intros Hin; repeat (apply elem_of_cons in Hin as [Hin|Hin]; [discriminate Hin|]);
    by apply elem_of_nil in Hin.
Qed.

(** The fatal-error path behind a prefix of calls that are no steps of
    it: the run counts as a fatal error with the message it was given. *)
Lemma fatal_path_outcome {A : Type} (env : Env) (msg : string) (r : Recorder)
    (pre : list Effect) (x : Run A) :
  stages pre = [] -> settlements_of pre = [] ->
  this x = this (_handleFatalPipelineError env msg r) ->
  trace x = (pre ++ trace (_handleFatalPipelineError env msg r))%list ->
  (∀ e, completion (_handleFatalPipelineError env msg r) = Throws e ->
        completion x = Throws e) ->
  (completion (_handleFatalPipelineError env msg r) = Normal tt ->
   ∃ a, completion x = Normal a) ->
  ends_as_fatal_error env msg r x.
Proof.
  intros Hpre Hpre' Hthis Htrace Hthrow Hnormal. unfold ends_as_fatal_error.
  rewrite Hthis, Htrace, stages_app, settlements_app, Hpre, Hpre'. cbn [app].
  pose proof (bailed_out_releases env (new_Error ("Fatal pipeline error: " +:+ msg))
                (set_pipelineState PipelineState.ERROR r)) as (B1 & B2 & B3 & _).
  rewrite <- fatal_closed in B1, B2, B3.
  split; [exact B1|]. split; [exact B2|]. split; [exact B3|]. clear B1 B2 B3.
  split; [|split].
  - pose proof (unified_error_path_stages env (PipelineFatal msg) r) as H.
    cbn [unified_error_path entered when] in H. exact H.
  - intros Hok.
    assert (E : _handleFatalPipelineError env msg r
                = mkRun (Normal tt)
                    (cleared (released (set_pipelineState PipelineState.ERROR r)))
                    (release_trace env (set_pipelineState PipelineState.ERROR r)
                     ++ Log ("Recorder error: "
                               +:+ message (new_Error ("Fatal pipeline error: " +:+ msg)))
                     :: match _onErrorCallback r with Some cb => [Call cb] | None => [] end
                     ++ rejections (new_Error ("Fatal pipeline error: " +:+ msg))
                          (set_pipelineState PipelineState.ERROR r))%list).
    { rewrite fatal_closed. unfold bailed_out.
      cbn [_sessionState _onErrorCallback set_pipelineState].
      case_decide as Ha; [rewrite (Hok Ha)|]; reflexivity. }
    rewrite E in Hnormal |- *. cbn [completion this trace] in *.
    split; [exact (Hnormal eq_refl)|]. do 3 (split; [reflexivity|]).
    intros q Hq. unfold rejections. cbn [_startRequest _stopRequest set_pipelineState].
    rewrite !elem_of_app, elem_of_cons, !elem_of_app.
    destruct Hq as [-> | ->]; rewrite !elem_of_cons; tauto.
  - intros e Ha He.
    assert (E : _handleFatalPipelineError env msg r
                = mkRun (Throws e) (released (set_pipelineState PipelineState.ERROR r))
                    (release_trace env (set_pipelineState PipelineState.ERROR r))).
    { rewrite fatal_closed. unfold bailed_out.
      cbn [_sessionState set_pipelineState]. rewrite decide_True, He by exact Ha.
      reflexivity. }
    rewrite E in Hthrow |- *. cbn [completion this trace] in *.
    split; [exact (Hthrow e eq_refl)|]. apply release_trace_silent.
Qed.

(** C3, as the code has it.  An end-of-stream message is dispatched on
    [_pipelineState]: ignored in STOPPED and ERROR; a fatal error in PLAYING
    (after the file is added to the recent items) and in INIT; in FLUSHING
    the file is added to the recent items, the pipeline, the name watch and
    the session are released and then the pending stop outcome is resolved,
    unless the remote stop throws: then its exception leaves the handler
    and the stop outcome is neither resolved nor rejected. *)
Theorem EOS_dispatch (env : Env) (r : Recorder) :
  let x := _onBusMessage env Gst.EOS r in
  (_pipelineState r = PipelineState.STOPPED ∨ _pipelineState r = PipelineState.ERROR ->
     x = mkRun (Normal true) r [])
  ∧ (_pipelineState r = PipelineState.PLAYING ->
     head (trace x) = Some (AddRecentItem (_filePath r))
     ∧ ends_as_fatal_error env "Unexpected EOS message" r x)
  ∧ (_pipelineState r = PipelineState.INIT ->
     (AddRecentItem (_filePath r) ∉ trace x)
     ∧ ends_as_fatal_error env "Unexpected EOS message while in state INIT" r x)
  ∧ (_pipelineState r = PipelineState.FLUSHING ->
     head (trace x) = Some (AddRecentItem (_filePath r))
     ∧ _pipeline (this x) = None
     ∧ _nameWatchId (this x) = 0%N
     ∧ _sessionState (this x) ≠ SessionState.ACTIVE
     ∧ stages (trace x) =
         (when (bool_decide (is_Some (_pipeline r))) [TearDownPipeline]
          ++ when (bool_decide (_nameWatchId r ≠ 0%N)) [StopWatching]
          ++ when (bool_decide (_sessionState r = SessionState.ACTIVE)) [StopRemoteSession])%list
     ∧ (∀ q, _stopRequest r = Some q ->
            (_sessionState r = SessionState.ACTIVE -> StopSync env = None) ->
            completion x = Normal true
            ∧ last (trace x) = Some (Resolve q)
            ∧ settlements_of (trace x) = [(q, None)]
            ∧ _stopRequest (this x) = None
            ∧ _pipelineState (this x) =
                (if _pipeline r is Some _ then PipelineState.STOPPED
                 else PipelineState.FLUSHING))
     ∧ (∀ e, _sessionState r = SessionState.ACTIVE -> StopSync env = Some e ->
            completion x = Throws e
            ∧ settlements_of (trace x) = []
            ∧ _stopRequest (this x) = _stopRequest r)).
Proof.
  cbv zeta. split; [|split; [|split]].
  - intros Hps. unfold _onBusMessage. step_M.
    destruct Hps as [-> | ->]; destruct r; reflexivity.
  - intros Hps.
    set (fatal := _handleFatalPipelineError env "Unexpected EOS message").
    assert (E : _onBusMessage env Gst.EOS r
                = ((emit (AddRecentItem (_filePath r));; fatal);; mret true) r).
    { unfold _onBusMessage, _addRecentItem. step_M. rewrite Hps. reflexivity. }
    rewrite E.
    destruct (then_ret (emit (AddRecentItem (_filePath r));; fatal) true r)
      as (Hthis & Htrace & Hcompl).
    rewrite emit_then in Hthis, Htrace, Hcompl. cbn [this trace completion] in *.
    split; [by rewrite Htrace|].
    apply (fatal_path_outcome env _ r [AddRecentItem (_filePath r)]);
      [reflexivity | reflexivity | exact Hthis | exact Htrace | |].
    + intros e He. fold fatal in He. by rewrite Hcompl, He.
    + intros He. fold fatal in He. rewrite Hcompl, He. by eexists.
  - intros Hps.
    set (fatal := _handleFatalPipelineError env "Unexpected EOS message while in state INIT").
    assert (E : _onBusMessage env Gst.EOS r = (fatal;; mret true) r).
    { unfold _onBusMessage. step_M. rewrite Hps. reflexivity. }
    rewrite E. destruct (then_ret fatal true r) as (Hthis & Htrace & Hcompl).
    split.
    + rewrite Htrace. subst fatal. rewrite fatal_closed. apply bailed_out_no_recent_item.
    + apply (fatal_path_outcome env _ r []);
        [reflexivity | reflexivity | exact Hthis | exact Htrace | |].
      * intros e He. fold fatal in He. by rewrite Hcompl, He.
      * intros He. fold fatal in He. rewrite Hcompl, He. by eexists.
  - intros Hps. rewrite (EOS_flushing_closed env r Hps).
    assert (Hss : _sessionState (released r) ≠ SessionState.ACTIVE).
    { unfold released. cbn [_sessionState set_sessionState]. case_decide; [discriminate|done]. }
    assert (Hst : ∀ tail, stages tail = [] ->
              stages (AddRecentItem (_filePath r) :: release_trace env r ++ tail)
              = (when (bool_decide (is_Some (_pipeline r))) [TearDownPipeline]
                 ++ when (bool_decide (_nameWatchId r ≠ 0%N)) [StopWatching]
                 ++ when (bool_decide (_sessionState r = SessionState.ACTIVE))
                      [StopRemoteSession])%list).
    { intros tail Htail.
      change (AddRecentItem (_filePath r) :: release_trace env r ++ tail)
        with ([AddRecentItem (_filePath r)] ++ release_trace env r ++ tail)%list.
      rewrite !stages_app, Htail. unfold release_trace. rewrite !stages_app.
      destruct (_pipeline r); destruct (decide (_nameWatchId r ≠ 0%N));
        destruct (decide (_sessionState r = SessionState.ACTIVE));
        try destruct (decide (set_state_NULL env ≠ Gst.SUCCESS));
        repeat match goal with
               | H : ?P |- context [bool_decide ?P] =>
                   rewrite (bool_decide_eq_true_2 P H)
               | H : ¬ ?P |- context [bool_decide ?P] =>
                   rewrite (bool_decide_eq_false_2 P H)
               end;
        reflexivity. }
    destruct (release_trace_silent env r) as [Hsil _].
    destruct (decide (_sessionState r = SessionState.ACTIVE)) as [Ha|Ha].
    + destruct (StopSync env) as [e|] eqn:He.
      * cbn [completion this trace head].
        do 4 (split; [done|]). split.
        { rewrite <- (app_nil_r (release_trace env r)). by apply Hst. }
        split; [intros q _ Hok; specialize (Hok Ha); discriminate Hok|].
        intros e' _ [= <-]. split; [reflexivity|].
        split; [by rewrite settlements_AddRecentItem|reflexivity].
      * destruct (_stopRequest r) as [q|] eqn:Hq; cbn [completion this trace head].
        -- do 4 (split; [done|]). split; [by apply Hst|]. split; [|by intros e' _ Hn].
           intros q' [= <-] _. split; [reflexivity|].
           split; [by rewrite app_comm_cons, last_snoc|].
           split; [by rewrite settlements_AddRecentItem, settlements_app, Hsil|].
           split; [reflexivity|]. unfold released.
           cbn [_pipelineState set_stopRequest set_sessionState set_nameWatchId
                set_pipeline set_pipelineState]. by rewrite Hps.
        -- do 4 (split; [done|]). split; [by apply Hst|].
           split; [by intros q' Hn|by intros e' _ Hn].
    + destruct (_stopRequest r) as [q|] eqn:Hq; cbn [completion this trace head].
      * do 4 (split; [done|]). split; [by apply Hst|]. split; [|by intros e' Hn].
        intros q' [= <-] _. split; [reflexivity|].
        split; [by rewrite app_comm_cons, last_snoc|].
        split; [by rewrite settlements_AddRecentItem, settlements_app, Hsil|].
        split; [reflexivity|]. unfold released.
        cbn [_pipelineState set_stopRequest set_sessionState set_nameWatchId
             set_pipeline set_pipelineState]. by rewrite Hps.
      * do 4 (split; [done|]). split; [by apply Hst|].
        split; [by intros q' Hn|by intros e' Hn].
Qed.

Lemma EOS_dispatch_witness :
  _pipelineState stopping = PipelineState.FLUSHING
  ∧ _stopRequest stopping = Some {| promise := 2 |}
  ∧ completion (_onBusMessage sample_env Gst.EOS stopping) = Normal true
  ∧ last (trace (_onBusMessage sample_env Gst.EOS stopping))
      = Some (Resolve {| promise := 2 |})
  ∧ _pipelineState (this (_onBusMessage sample_env Gst.EOS stopping))
      = PipelineState.STOPPED.
Proof.
  assert (Hps : _pipelineState stopping = PipelineState.FLUSHING) by reflexivity.
  assert (Hq : _stopRequest stopping = Some {| promise := 2 |}) by reflexivity.
  assert (Hok : _sessionState stopping = SessionState.ACTIVE -> StopSync sample_env = None)
    by reflexivity.
  split; [exact Hps|]. split; [exact Hq|].
  destruct (EOS_dispatch sample_env stopping) as (_ & _ & _ & H).
  destruct (H Hps) as (_ & _ & _ & _ & _ & Hres & _).
  destruct (Hres _ Hq Hok) as (H1 & H2 & _ & _ & H4).
  split; [exact H1|]. split; [exact H2|exact H4].
Defined.

(** C3, as the claim words it, fails: when the remote stop throws, the
    end of the stream resolves nothing.  The pipeline, the name watch and
    the session are released all the same, the exception leaves the
    handler, and the stop outcome stays pending. *)
Lemma EOS_with_failing_stop_resolves_nothing :
  _pipelineState stopping = PipelineState.FLUSHING
  ∧ _stopRequest stopping = Some {| promise := 2 |}
  ∧ completion (_onBusMessage env_StopSync_fails Gst.EOS stopping)
    = Throws (new_Error "GDBus.Error: Timeout was reached")
  ∧ trace (_onBusMessage env_StopSync_fails Gst.EOS stopping)
    = [AddRecentItem "/home/user/Videos/cap.webm"; PipelineSetState 7%nat Gst.NULL;
       UnwatchName 5%N; SessionStopSync]
  ∧ _stopRequest (this (_onBusMessage env_StopSync_fails Gst.EOS stopping))
    = Some {| promise := 2 |}.
Proof. repeat split; vm_compute; reflexivity. Qed.

(** ** stopRecording *)

(** C4.  While a start is pending, [stopRecording] returns a promise
    rejected with "Unable to stop recorder while still starting" and touches
    nothing: the recorder is the same object state as before, no call is
    made on any collaborator, so no flush is requested and no stop outcome
    is recorded. *)
Theorem stopRecording_while_starting (q : Request) (r : Recorder) :
  is_Some (_startRequest r) ->
  let x := stopRecording q r in
  completion x = Normal (Rejected (new_Error "Unable to stop recorder while still starting"))
  ∧ this x = r
  ∧ trace x = []
  ∧ _pipelineState (this x) = _pipelineState r
  ∧ _sessionState (this x) = _sessionState r
  ∧ _stopRequest (this x) = _stopRequest r.
Proof.
  intros Hstart x. subst x. unfold stopRecording. step_M.
  destruct (decide (is_Some (_startRequest r))) as [_|Hn]; [|contradiction].
  repeat split.
Qed.

Lemma stopRecording_while_starting_witness :
  is_Some (_startRequest starting)
  ∧ completion (stopRecording {| promise := 9 |} starting)
      = Normal (Rejected (new_Error "Unable to stop recorder while still starting"))
  ∧ this (stopRecording {| promise := 9 |} starting) = starting.
Proof.
  assert (H : is_Some (_startRequest starting)) by (eexists; reflexivity).
  split; [exact H|].
  pose proof (stopRecording_while_starting {| promise := 9 |} starting H) as (Hc & Ht & _).
  split; [exact Hc | exact Ht].
Defined.

(** ** The pipeline state never moves backwards *)

Lemma nondecreasing_ret {A : Type} (a : A) : nondecreasing (mret a).
Proof. intros r. reflexivity. Qed.

Lemma nondecreasing_bind {A B : Type} (m : M A) (k : A -> M B) :
  nondecreasing m -> (∀ a, nondecreasing (k a)) -> nondecreasing (m ≫= k).
Proof.
  intros Hm Hk r. specialize (Hm r). step_M.
  destruct (m r) as [[a|e] r' tr]; cbn in *; [|exact Hm].
  specialize (Hk a r'). destruct (k a r') as [c r'' tr']; cbn in *. lia.
Qed.

Lemma nondecreasing_getThis : nondecreasing getThis.
Proof. intros r. reflexivity. Qed.

Lemma nondecreasing_emit (e : Effect) : nondecreasing (emit e).
Proof. intros r. reflexivity. Qed.

Lemma nondecreasing_throw {A : Type} (e : Error) : nondecreasing (@throw A e).
Proof. intros r. reflexivity. Qed.

Lemma nondecreasing_assign (f : Recorder -> Recorder) :
  (∀ r, (rank (_pipelineState r) ≤ rank (_pipelineState (f r)))%nat) ->
  nondecreasing (assign f).
Proof. intros Hf r. apply Hf. Qed.

Lemma nondecreasing_from_this {A : Type} (k : Recorder -> M A) :
  (∀ r, (rank (_pipelineState r) ≤ rank (_pipelineState (this (k r r))))%nat) ->
  nondecreasing (getThis ≫= k).
Proof.
  intros Hk r. specialize (Hk r). step_M.
  destruct (k r r) as [c r' tr]; exact Hk.
Qed.

Lemma rank_top (s : PipelineState.t) : (rank s ≤ 3)%nat.
Proof. destruct s; cbn; lia. Qed.

Create HintDb lifecycle.
#[local] Hint Resolve nondecreasing_ret nondecreasing_getThis nondecreasing_emit
  nondecreasing_throw rank_top : lifecycle.

(** Finishes [nondecreasing m] for a method body [m]: walks through the
    binds and the branches, leaving the assignments to [lia]. *)
Ltac lifecycle :=
  repeat first
    [ apply nondecreasing_bind; [|intros ?]
    | apply nondecreasing_assign; intros ?; cbn; auto with lifecycle; lia
    | progress auto with lifecycle
    | case_decide
    | case_match ].

Lemma nondecreasing_teardownPipeline (env : Env) : nondecreasing (_teardownPipeline env).
Proof. unfold _teardownPipeline, log. lifecycle. Qed.

Lemma nondecreasing_unwatchSender : nondecreasing _unwatchSender.
Proof. unfold _unwatchSender. lifecycle. Qed.

Lemma nondecreasing_stopSession (env : Env) : nondecreasing (_stopSession env).
Proof. unfold _stopSession. lifecycle. Qed.

#[local] Hint Resolve nondecreasing_teardownPipeline nondecreasing_unwatchSender
  nondecreasing_stopSession : lifecycle.

Lemma nondecreasing_bailOutOnError (env : Env) (error : Error) :
  nondecreasing (_bailOutOnError env error).
Proof. unfold _bailOutOnError, log. lifecycle. Qed.

#[local] Hint Resolve nondecreasing_bailOutOnError : lifecycle.

Lemma nondecreasing_handleFatalPipelineError (env : Env) (msg : string) :
  nondecreasing (_handleFatalPipelineError env msg).
Proof. unfold _handleFatalPipelineError. lifecycle. Qed.

#[local] Hint Resolve nondecreasing_handleFatalPipelineError : lifecycle.

Lemma nondecreasing_ensurePipeline (env : Env) (nodeId : Z) :
  nondecreasing (_ensurePipeline env nodeId).
Proof. unfold _ensurePipeline. lifecycle. Qed.

#[local] Hint Resolve nondecreasing_ensurePipeline : lifecycle.

Lemma nondecreasing_onBusMessage (env : Env) (msg : Gst.Message) :
  nondecreasing (_onBusMessage env msg).
Proof.
  unfold _onBusMessage, _addRecentItem. destruct msg.
  - apply nondecreasing_bind; [|intros ?; auto with lifecycle].
    apply nondecreasing_from_this. intros r.
    case_decide as H; [|reflexivity].
    destruct H as (Hinit & _ & _). rewrite Hinit. cbn. lia.
  - lifecycle.
  - lifecycle.
  - lifecycle.
Qed.

(** The state after a fatal pipeline error. *)
Lemma state_after_fatal (env : Env) (msg : string) (r : Recorder) :
  _pipelineState (this (_handleFatalPipelineError env msg r))
  = if _pipeline r is Some _ then PipelineState.STOPPED else PipelineState.ERROR.
Proof.
  split_env env; name_fields r; destruct cb, pl, w, ss, sq, tq; vm_compute; reflexivity.
Qed.

(** C6, where the code falls short of it.  Under every signal a
    recorder handles, the pipeline state never moves backwards along INIT,
    PLAYING, FLUSHING and then STOPPED or ERROR.  But the state a fatal
    pipeline error sets does not last: [_handleFatalPipelineError] assigns
    ERROR and hands over to [_bailOutOnError], whose first step, the
    teardown of the pipeline, assigns STOPPED whenever there is a pipeline.
    So a fatal pipeline error on a recorder that has a pipeline, such as a
    GStreamer error while it plays, leaves the recorder in STOPPED; it ends
    in ERROR only when there was no pipeline. *)
Theorem fatal_error_state_is_overwritten (env : Env) (r : Recorder) :
  (∀ sig, (rank (_pipelineState r)
           ≤ rank (_pipelineState (this (handler env sig r))))%nat)
  ∧ (∀ msg p, _pipeline r = Some p ->
       _handleFatalPipelineError env msg r
       = _bailOutOnError env (new_Error ("Fatal pipeline error: " +:+ msg))
           (set_pipelineState PipelineState.ERROR r)
       ∧ _pipelineState (this (_handleFatalPipelineError env msg r))
         = PipelineState.STOPPED)
  ∧ (∀ msg, _pipeline r = None ->
       _pipelineState (this (_handleFatalPipelineError env msg r)) = PipelineState.ERROR)
  ∧ (∀ text p, _pipeline r = Some p ->
       _pipelineState r = PipelineState.INIT ∨ _pipelineState r = PipelineState.PLAYING
       ∨ _pipelineState r = PipelineState.FLUSHING ->
       _pipelineState (this (_onBusMessage env (Gst.ERROR text) r))
       = PipelineState.STOPPED).
Proof.
  split; [|split; [|split]].
  - intros sig. revert r. change (nondecreasing (handler env sig)).
    destruct sig; unfold handler.
    + unfold _senderVanished. lifecycle.
    + unfold _onSessionClosed. lifecycle.
    + unfold _startPipeline. lifecycle.
    + apply nondecreasing_bind; [apply nondecreasing_onBusMessage|]. intros ?. lifecycle.
  - intros msg p Hp. split.
    + unfold _handleFatalPipelineError. apply assign_then.
    + by rewrite state_after_fatal, Hp.
  - intros msg Hp. by rewrite state_after_fatal, Hp.
  - intros text p Hp Hps.
    set (msg := "GStreamer error while in state "
                  +:+ PipelineState.to_string (_pipelineState r) +:+ ": " +:+ text).
    assert (E : _onBusMessage env (Gst.ERROR text) r
                = (_handleFatalPipelineError env msg;; mret true) r).
    { unfold _onBusMessage. subst msg. step_M.
      destruct Hps as [-> | [-> | ->]]; reflexivity. }
    rewrite E. destruct (then_ret (_handleFatalPipelineError env msg) true r) as (-> & _).
    by rewrite state_after_fatal, Hp.
Qed.

Lemma fatal_error_state_is_overwritten_witness :
  _pipeline recording = Some 7%nat
  ∧ _pipelineState recording = PipelineState.PLAYING
  ∧ _pipelineState (this (_onBusMessage sample_env (Gst.ERROR "boom") recording))
    = PipelineState.STOPPED
  ∧ trace (_onBusMessage sample_env (Gst.ERROR "boom") recording)
    = [PipelineSetState 7%nat Gst.NULL; UnwatchName 5%N; SessionStopSync;
       Log "Recorder error: Fatal pipeline error: GStreamer error while in state PLAYING: boom";
       Call (RemoveRecorder ":1.42")].
Proof.
  destruct (fatal_error_state_is_overwritten sample_env recording) as (_ & _ & _ & H).
  split; [reflexivity|]. split; [reflexivity|].
  split; [exact (H "boom" 7%nat eq_refl (or_intror (or_introl eq_refl)))|].
  vm_compute. reflexivity.
Defined.

(** ** Destination templates *)

Lemma append_cons (c : Ascii.ascii) (s t : string) :
  String c s +:+ t = String c (s +:+ t).
Proof. reflexivity. Qed.

Lemma append_nil_l (t : string) : "" +:+ t = t.
Proof. reflexivity. Qed.

Lemma append_nil_r (s : string) : s +:+ "" = s.
Proof. induction s as [|c s IH]; [reflexivity | by rewrite append_cons, IH]. Qed.

Lemma append_assoc (a b c : string) : (a +:+ b) +:+ c = a +:+ (b +:+ c).
Proof. induction a as [|x a IH]; [reflexivity | by rewrite !append_cons, IH]. Qed.

Lemma forEach_app (env : Env) (a b : list string) (st : Scan) :
  forEach env (a ++ b) st = forEach env b (forEach env a st).
Proof.
  revert st. induction a as [|c a IH]; intros st; [reflexivity|].
  cbn [app forEach]. apply IH.
Qed.

(** [spread] only cuts: the characters put together again are the string. *)
Lemma spread_join (template : string) :
  foldr String.append "" (spread template) = template.
Proof.
  induction template as [|b rest IH]; [reflexivity|]. cbn [spread].
  destruct (spread rest) as [|[|b' tail] chars]; cbn [foldr] in *.
  - by rewrite <- IH.
  - by rewrite <- IH.
  - destruct (is_continuation b' && negb (is_ASCII b)); cbn [foldr];
      rewrite ?append_cons, ?append_nil_l; by rewrite <- IH.
Qed.

(** A percent sign at the end is a character of its own. *)
Lemma spread_percent_last (template : string) :
  spread (template +:+ "%") = (spread template ++ ["%"])%list.
Proof.
  induction template as [|b rest IH]; [reflexivity|].
  rewrite append_cons. cbn [spread]. rewrite IH.
  destruct (spread rest) as [|[|b' tail] chars]; cbn [app]; [reflexivity|reflexivity|].
  by destruct (is_continuation b' && negb (is_ASCII b)).
Qed.

(** The loop against the spec's reading, from any state of the loop
    variables: a pending escape is a percent sign put back in front. *)
Lemma forEach_spec (env : Env) (chars : list string) (st : Scan) :
  let st' := forEach env chars st in
  let pending := if escape st then ["%"] else [] in
  (if escape st' then filename st' +:+ "%" else filename st')
    = filename st +:+ spec_expand env (readings st) (pending ++ chars)
  ∧ warnings st' = (warnings st ++ spec_warnings (pending ++ chars))%list.
Proof.
  cbv zeta. revert st.
  induction chars as [|c chars IH]; intros [f e n w].
  - destruct e; cbn [forEach escape filename readings warnings app spec_expand
                     spec_warnings];
      rewrite ?decide_True by reflexivity; rewrite ?append_nil_r, ?app_nil_r; done.
  - cbn [forEach]. destruct (IH (scan_char env {| filename := f; escape := e;
      readings := n; warnings := w |} c)) as [IHf IHw].
    rewrite IHf, IHw. clear IH IHf IHw.
    unfold scan_char. cbn [escape filename readings warnings].
    destruct e; cbn [app spec_expand spec_warnings].
    + rewrite !(decide_True (P := "%" = "%")) by reflexivity.
      destruct (decide (c = "%")) as [->|H1].
      { rewrite decide_True by auto.
        cbn [escape filename readings warnings app]. by rewrite append_assoc. }
      destruct (decide (c = "d")) as [->|H2].
      { rewrite decide_True by auto.
        cbn [escape filename readings warnings app]. by rewrite append_assoc. }
      destruct (decide (c = "t")) as [->|H3].
      { rewrite decide_True by auto.
        cbn [escape filename readings warnings app]. by rewrite append_assoc. }
      rewrite decide_False by tauto.
      cbn [escape filename readings warnings app]. by rewrite <- app_assoc.
    + destruct (decide (c = "%")) as [->|H1];
        cbn [escape filename readings warnings app]; [done|].
      by rewrite append_assoc.
Qed.

(** C7.  For every template, the file name the loop builds is the spec's
    expansion of its characters: [%d] becomes the date, [%t] the time,
    [%%] one percent sign, any other escape nothing, the character after the
    percent sign being dropped whole with one warning that names it. *)
Theorem template_expansion (env : Env) (template : string) :
  expanded_filename env template = spec_expand env 0 (spread template)
  ∧ (_generateFilePath env template).1
      = _getAbsolutePath env (spec_expand env 0 (spread template))
  ∧ (_generateFilePath env template).2 = spec_warnings (spread template)
  ∧ expanded_filename env "100%%done" = "100%done"
  ∧ expanded_filename env "%z" = ""
  ∧ (_generateFilePath env "%z").2 = [Log "Warning: Unknown escape z"]
  ∧ spread ("%" +:+ e_acute +:+ "z") = ["%"; e_acute; "z"]
  ∧ expanded_filename env ("%" +:+ e_acute +:+ "z") = "z"
  ∧ (_generateFilePath env ("%" +:+ e_acute +:+ "z")).2
      = [Log ("Warning: Unknown escape " +:+ e_acute)]
  ∧ expanded_filename env "cap-%d-%t.ext"
      = "cap-" +:+ format_Y_m_d (new_now_local env 0) +:+ "-"
          +:+ format_H_M_S (new_now_local env 1) +:+ ".ext"
  ∧ format_Y_m_d {| year := 2024; month := 3; day := 9;
                    hour := 7; minute := 5; second := 3 |} = "2024-03-09"
  ∧ format_H_M_S {| year := 2024; month := 3; day := 9;
                    hour := 7; minute := 5; second := 3 |} = "07-05-03".
Proof.
  assert (E : ∀ t, expanded_filename env t = spec_expand env 0 (spread t)
                   ∧ warnings (scan_template env t) = spec_warnings (spread t)).
  { intros t. unfold expanded_filename, scan_template.
    destruct (forEach_spec env (spread t)
      {| filename := ""; escape := false; readings := 0%nat; warnings := [] |}) as [Hf Hw].
    cbn [filename escape readings warnings app] in Hf, Hw.
    rewrite !append_nil_l in Hf. done. }
  destruct (E template) as [Ef Ew].
  split; [exact Ef|]. split; [unfold _generateFilePath; cbn [fst]; by rewrite Ef|].
  split; [exact Ew|].
  split; [reflexivity|]. split; [reflexivity|]. split; [reflexivity|].
  split; [reflexivity|]. split; [reflexivity|]. split; [reflexivity|].
  split; [|split; reflexivity].
  rewrite (proj1 (E _)). reflexivity.
Qed.

(** C10.  A template whose last character is a percent sign that does not
    close an escape yields a file name that ends in that percent sign. *)
Theorem dangling_percent_is_kept (env : Env) (template : string) :
  escape (scan_template env template) = false ->
  expanded_filename env (template +:+ "%") = expanded_filename env template +:+ "%"
  ∧ (_generateFilePath env (template +:+ "%")).1
      = _getAbsolutePath env (expanded_filename env template +:+ "%")
  ∧ (path_is_absolute env (expanded_filename env template +:+ "%") = true ->
     (_generateFilePath env (template +:+ "%")).1 = expanded_filename env template +:+ "%").
Proof.
  intros Hesc.
  assert (E : expanded_filename env (template +:+ "%")
              = expanded_filename env template +:+ "%").
  { unfold expanded_filename, scan_template in *.
    rewrite spread_percent_last, forEach_app.
    destruct (forEach env (spread template) _) as [f e n w]. cbn in Hesc. subst e.
    reflexivity. }
  split; [exact E|].
  unfold _generateFilePath. cbn [fst]. rewrite E. split; [reflexivity|].
  intros Habs. unfold _getAbsolutePath. by rewrite Habs.
Qed.

Lemma dangling_percent_is_kept_witness :
  escape (scan_template sample_env "/tmp/100") = false
  ∧ (_generateFilePath sample_env "/tmp/100%").1 = "/tmp/100%"
  ∧ (_generateFilePath sample_env "half%").1 = "/home/user/Videos/half%".
Proof.
  assert (H : escape (scan_template sample_env "/tmp/100") = false) by reflexivity.
  split; [exact H|].
  split; [|reflexivity].
  exact (proj2 (proj2 (dangling_percent_is_kept sample_env "/tmp/100" H)) eq_refl).
Defined.

(** ** The registry and the keep-alive count *)

Lemma tracks_refl (s : ScreencastService) : tracks s s.
Proof. unfold tracks. lia. Qed.

Lemma tracks_trans (s1 s2 s3 : ScreencastService) :
  tracks s1 s2 -> tracks s2 s3 -> tracks s1 s3.
Proof. unfold tracks. lia. Qed.

Lemma tracks_same (s0 s s' : ScreencastService) :
  _recorders s' = _recorders s -> _holdCount s' = _holdCount s ->
  tracks s0 s -> tracks s0 s'.
Proof. unfold tracks, occupied. intros -> ->. done. Qed.

Lemma occupied_lookup (s : ScreencastService) (sender : string) (ref : nat) :
  _recorders s !! sender = Some ref -> occupied s = 1.
Proof.
  intros H. unfold occupied. case_decide as He; [|reflexivity].
  rewrite He, lookup_empty in H. discriminate.
Qed.

Lemma tracks_removeRecorder (s0 s : ScreencastService) (sender : string) :
  tracks s0 s -> tracks s0 (_removeRecorder sender s).
Proof.
  intros H0. apply (tracks_trans _ s); [exact H0|]. clear H0 s0.
  unfold _removeRecorder.
  destruct (_recorders s !! sender) as [ref|] eqn:Hl; [|apply tracks_refl].
  pose proof (occupied_lookup _ _ _ Hl) as Hocc.
  cbn [_recorders set_recorders]. unfold tracks.
  case_decide as Hsz.
  - apply map_size_empty_iff in Hsz.
    unfold release, occupied in *. cbn [_recorders _holdCount set_holdCount set_recorders].
    rewrite decide_True by exact Hsz. lia.
  - apply map_size_non_empty_iff in Hsz.
    unfold occupied in *. cbn [_recorders _holdCount set_recorders].
    rewrite decide_False by exact Hsz. lia.
Qed.

Lemma tracks_addRecorder (s0 s : ScreencastService) (sender : string) (ref : nat) :
  _recorders s !! sender = None ->
  tracks s0 s -> tracks s0 (_addRecorder sender ref s).
Proof.
  intros Hl H0. apply (tracks_trans _ s); [exact H0|]. clear H0 s0.
  unfold _addRecorder. cbn [_recorders set_recorders]. unfold tracks.
  assert (Hne : <[sender:=ref]> (_recorders s) ≠ ∅) by apply insert_non_empty.
  rewrite (map_size_insert_None _ _ _ Hl).
  case_decide as Hsz.
  - assert (He : _recorders s = ∅) by (apply map_size_empty_iff; lia).
    unfold hold, occupied. cbn [_recorders _holdCount set_holdCount set_recorders].
    rewrite decide_False by exact Hne. rewrite decide_True by exact He. lia.
  - assert (He : _recorders s ≠ ∅) by (apply map_size_non_empty_iff; lia).
    unfold occupied. cbn [_recorders _holdCount set_recorders].
    rewrite decide_False by exact Hne. rewrite decide_False by exact He. lia.
Qed.

Lemma recorders_addRecorder (s : ScreencastService) (sender : string) (ref : nat) :
  _recorders (_addRecorder sender ref s) = <[sender:=ref]> (_recorders s).
Proof. unfold _addRecorder. case_decide; reflexivity. Qed.

Lemma tracks_record (s0 s : ScreencastService) (es : list Effect) :
  tracks s0 s -> tracks s0 (record es s).
Proof. by apply tracks_same. Qed.

Lemma tracks_return_value (s0 s : ScreencastService) (i : Invocation) (v : Variant) :
  tracks s0 s -> tracks s0 (return_value i v s).
Proof. by apply tracks_same. Qed.

Lemma tracks_set_heap (s0 s : ScreencastService) (h : gmap nat Recorder) :
  tracks s0 s -> tracks s0 (set_heap h s).
Proof. by apply tracks_same. Qed.

Lemma tracks_set_awaiting (s0 s : ScreencastService) (a : gmap nat Continuation) :
  tracks s0 s -> tracks s0 (set_awaiting a s).
Proof. by apply tracks_same. Qed.

Lemma tracks_allocate (s0 s : ScreencastService) :
  tracks s0 s -> tracks s0 (allocate s).2.
Proof. by apply tracks_same. Qed.

(** Peels the state updates that cannot unbalance the count. *)
Ltac registry :=
  cbv zeta;
  repeat first
    [ apply tracks_return_value | apply tracks_removeRecorder | apply tracks_record
    | apply tracks_set_heap | apply tracks_set_awaiting | apply tracks_allocate ];
  first [assumption | apply tracks_refl].

Lemma tracks_resume (s0 s : ScreencastService) (k : Continuation) (settled : option Error) :
  tracks s0 s -> tracks s0 (resume k settled s).
Proof.
  intros H. destruct k, settled; cbn [resume after_startRecording after_stopRecording];
    registry.
Qed.

Lemma tracks_settle (s0 s : ScreencastService) (q : Request) (settled : option Error) :
  tracks s0 s -> tracks s0 (settle q settled s).
Proof.
  intros H. unfold settle. destruct (awaiting s !! promise q); [|exact H].
  apply tracks_resume. registry.
Qed.

Lemma tracks_callbacks (tr : list Effect) (s0 s : ScreencastService) :
  tracks s0 s -> tracks s0 (fold_left run_callback tr s).
Proof.
  revert s. induction tr as [|e tr IH]; intros s H; [exact H|].
  cbn [fold_left]. apply IH. destruct e as [| | | | | | | | | | | | |[sender]| | |];
    cbn [run_callback]; registry.
Qed.

Lemma tracks_settlements (tr : list Effect) (s0 s : ScreencastService) :
  tracks s0 s -> tracks s0 (fold_left run_settlement tr s).
Proof.
  revert s. induction tr as [|e tr IH]; intros s H; [exact H|].
  cbn [fold_left]. apply IH. destruct e; cbn [run_settlement];
    auto using tracks_settle.
Qed.

Lemma tracks_deliver (env : Env) (ref : nat) (sig : Signal) (s : ScreencastService) :
  tracks s (deliver env ref sig s).
Proof.
  unfold deliver. destruct (heap s !! ref) as [recorder|]; [|apply tracks_refl].
  destruct (handler env sig recorder) as [c r' tr]. cbn [this trace completion].
  apply tracks_settlements.
  destruct c; [|apply tracks_record]; apply tracks_callbacks; registry.
Qed.

Lemma tracks_record_into (env : Env) (sessionPath : string) (x y width height : Z)
    (filePath : string) (options : Options) (invocation : Invocation)
    (s0 s : ScreencastService) :
  _recorders s !! get_sender invocation = None ->
  tracks s0 s ->
  tracks s0 (record_into env sessionPath x y width height filePath options invocation s).2.
Proof.
  intros Hl H. unfold record_into.
  destruct (Recorder_constructor _ _ _ _ _ _ _ _ _ _) as [[recorder|error] tr].
  - unfold allocate. cbn [fst snd allocated].
    set (s4 := _addRecorder _ _ _).
    assert (H4 : tracks s0 s4).
    { apply tracks_addRecorder; [exact Hl | registry]. }
    clearbody s4.
    destruct (startRecording env _ recorder) as [[[q|error]|error] r' tr'];
      cbn [this trace completion snd after_startRecording]; registry.
  - cbn [snd]. registry.
Qed.

Lemma tracks_step (s : ScreencastService) (turn : Env * Event) : tracks s (step s turn).
Proof.
  destruct turn as [env [[template options] invocation
                        | [[[[[x y] width] height] template] options] invocation
                        | invocation | ref sig]]; cbn [step].
  - unfold ScreencastAsync.
    destruct (disable_save_to_disk env); [cbn [snd]; registry|].
    case_decide as Hl; [cbn [snd]; registry|].
    destruct (CreateSessionSync env) as [error|sessionPath]; [apply tracks_refl|].
    destruct (ScreenSize env) as [[w h]|]; [|apply tracks_refl].
    destruct (_generateFilePath env template) as [filePath logged].
    apply tracks_record_into; [|registry].
    cbn. by apply eq_None_not_Some.
  - unfold ScreencastAreaAsync.
    destruct (disable_save_to_disk env); [cbn [snd]; registry|].
    case_decide as Hl; [cbn [snd]; registry|].
    destruct (CreateSessionSync env) as [error|sessionPath]; [apply tracks_refl|].
    destruct (_generateFilePath env template) as [filePath logged].
    apply tracks_record_into; [|registry].
    cbn. by apply eq_None_not_Some.
  - unfold StopScreencastAsync.
    destruct (_recorders s !! get_sender invocation) as [ref|]; [|cbn [snd]; registry].
    destruct (heap s !! ref) as [recorder|]; [|apply tracks_refl].
    unfold allocate. cbn [fst snd].
    destruct (stopRecording _ recorder) as [[[q|error]|error] r' tr'];
      cbn [this trace completion snd after_stopRecording]; registry.
  - apply tracks_deliver.
Qed.

Lemma tracks_run (turns : list (Env * Event)) (s : ScreencastService) :
  tracks s (fold_left step turns s).
Proof.
  revert s. induction turns as [|turn turns IH]; intros s; [apply tracks_refl|].
  cbn [fold_left]. eapply tracks_trans; [apply tracks_step | apply IH].
Qed.

(** C8.  Over every turn of the service (a D-Bus call or a signal
    delivered to a recorder) the keep-alive count changes by exactly the
    change of "the registry is occupied": plus one when the map goes from
    empty to non-empty, minus one when it goes back to empty, and not at all
    otherwise.  So after any sequence of turns the count is back at its
    value whenever the map is back at empty, and from the constructor on it
    is 1 while a recorder is registered and 0 otherwise.  The two methods by
    themselves: adding a recorder for another client to an occupied map and
    removing a client that is not in the map leave the count alone. *)
Theorem keepalive_follows_registry :
  (∀ s turn, _holdCount (step s turn) - _holdCount s = occupied (step s turn) - occupied s)
  ∧ (∀ s turns,
       _holdCount (fold_left step turns s) - _holdCount s
       = occupied (fold_left step turns s) - occupied s)
  ∧ (∀ s turns, _recorders s = ∅ -> _recorders (fold_left step turns s) = ∅ ->
       _holdCount (fold_left step turns s) = _holdCount s)
  ∧ (∀ turns,
       _holdCount (fold_left step turns ScreencastService_constructor)
       = occupied (fold_left step turns ScreencastService_constructor))
  ∧ (∀ s sender ref, _recorders s = ∅ ->
       _holdCount (_addRecorder sender ref s) = _holdCount s + 1)
  ∧ (∀ s sender ref, _recorders s !! sender = None -> _recorders s ≠ ∅ ->
       _holdCount (_addRecorder sender ref s) = _holdCount s)
  ∧ (∀ s sender, _recorders s !! sender = None -> _removeRecorder sender s = s)
  ∧ (∀ s sender ref, _recorders s = {[sender := ref]} ->
       _holdCount (_removeRecorder sender s) = _holdCount s - 1
       ∧ _recorders (_removeRecorder sender s) = ∅).
Proof.
  split; [exact tracks_step|].
  split; [intros s turns; apply tracks_run|].
  split.
  { intros s turns He He'. pose proof (tracks_run turns s) as H.
    unfold tracks, occupied in H. rewrite !decide_True in H by assumption. lia. }
  split.
  { intros turns. pose proof (tracks_run turns ScreencastService_constructor) as H.
    unfold tracks in H. change (_holdCount ScreencastService_constructor) with 0 in H.
    change (occupied ScreencastService_constructor) with 0 in H. lia. }
  split.
  { intros s sender ref He.
    assert (Hl : _recorders s !! sender = None) by (rewrite He; apply lookup_empty).
    pose proof (tracks_addRecorder s s sender ref Hl (tracks_refl s)) as H.
    unfold tracks, occupied in H. rewrite (decide_True _ _ He) in H.
    rewrite recorders_addRecorder in H.
    rewrite decide_False in H by apply insert_non_empty. lia. }
  split.
  { intros s sender ref Hl Hne.
    pose proof (tracks_addRecorder s s sender ref Hl (tracks_refl s)) as H.
    unfold tracks, occupied in H. rewrite (decide_False _ _ Hne) in H.
    rewrite recorders_addRecorder in H.
    rewrite decide_False in H by apply insert_non_empty. lia. }
  split.
  { intros s sender Hl. unfold _removeRecorder. by rewrite Hl. }
  intros s sender ref He.
  assert (Hd : _recorders (_removeRecorder sender s) = ∅).
  { unfold _removeRecorder. rewrite He, lookup_singleton_eq.
    cbn [_recorders set_recorders]. rewrite delete_singleton_eq.
    case_decide; reflexivity. }
  split; [|exact Hd].
  pose proof (tracks_removeRecorder s s sender (tracks_refl s)) as H.
  unfold tracks, occupied in H. rewrite (decide_True _ _ Hd) in H.
  rewrite decide_False in H; [lia|]. rewrite He. apply insert_non_empty.
Qed.

Lemma keepalive_follows_registry_witness :
  _recorders ScreencastService_constructor = ∅
  ∧ _recorders (fold_left step sample_session ScreencastService_constructor) = ∅
  ∧ _holdCount (fold_left step sample_session ScreencastService_constructor)
    = _holdCount ScreencastService_constructor
  ∧ _holdCount (fold_left step (take 3 sample_session) ScreencastService_constructor) = 1.
Proof.
  assert (H0 : _recorders ScreencastService_constructor = ∅) by reflexivity.
  assert (H1 : _recorders (fold_left step sample_session ScreencastService_constructor) = ∅)
    by (vm_compute; reflexivity).
  destruct keepalive_follows_registry as (_ & _ & Hback & _).
  split; [exact H0|]. split; [exact H1|].
  split; [exact (Hback _ _ H0 H1) | vm_compute; reflexivity].
Defined.

(** ** The D-Bus methods *)

Lemma replies_app (i : Invocation) (tr1 tr2 : list Effect) :
  replies i (tr1 ++ tr2) = (replies i tr1 ++ replies i tr2)%list.
Proof. apply omap_app. Qed.

Lemma replies_ReturnValue (i : Invocation) (v : Variant) :
  replies i [ReturnValue i v] = [v].
Proof. unfold replies. simpl. case_decide; [reflexivity | contradiction]. Qed.

Lemma lookup_removeRecorder (sender : string) (s : ScreencastService) :
  _recorders (_removeRecorder sender s) !! sender = None.
Proof.
  unfold _removeRecorder. destruct (_recorders s !! sender) eqn:Hl; [|exact Hl].
  cbn [_recorders set_recorders]. case_decide; apply lookup_delete_eq.
Qed.

Lemma journal_removeRecorder (sender : string) (s : ScreencastService) :
  journal (_removeRecorder sender s) = journal s.
Proof.
  unfold _removeRecorder. destruct (_recorders s !! sender); [|reflexivity].
  cbn [_recorders set_recorders]. case_decide; reflexivity.
Qed.

(** What [await recorder.stopRecording()] finds, whatever the recorder: a
    promise already rejected, or a pending one after the end-of-stream event
    was sent into the pipeline. *)
Lemma stopRecording_cases (q : Request) (r : Recorder) :
  (∃ error, completion (stopRecording q r) = Normal (Rejected error)
            ∧ trace (stopRecording q r) = [])
  ∨ (∃ p, completion (stopRecording q r) = Normal (Pending q)
          ∧ trace (stopRecording q r) = [PipelineSendEos p]).
Proof.
  unfold stopRecording. step_M. case_decide; [left; eexists; done|].
  cbn [_pipeline set_pipelineState set_stopRequest].
  destruct (_pipeline r) as [p|]; [right | left]; eexists; done.
Qed.

(** After the [await] of [StopScreencastAsync]: the client is dropped from
    the registry and the reply is [true], however the promise settled. *)
Lemma after_stopRecording_replies_true (sender : string) (invocation : Invocation)
    (settled : option Error) (s : ScreencastService) :
  (∃ tr, journal (after_stopRecording sender invocation settled s) = (journal s ++ tr)%list
         ∧ replies invocation tr = [V_b true])
  ∧ _recorders (after_stopRecording sender invocation settled s) !! sender = None.
Proof.
  unfold after_stopRecording, return_value. split.
  - destruct settled as [error|]; cbn [journal record];
      rewrite journal_removeRecorder; cbn [journal record].
    + eexists. rewrite <- app_assoc. split; [reflexivity|].
      rewrite replies_app. apply replies_ReturnValue.
    + eexists. split; [reflexivity|]. apply replies_ReturnValue.
  - cbn [_recorders record]. apply lookup_removeRecorder.
Qed.



(** C5, where the code falls short of it.  When [CreateSessionSync]
    throws, neither method replies: the exception leaves the [async] method,
    nothing is sent on the invocation, and the service is as it was. *)
Theorem session_failure_leaves_call_unanswered (env : Env) (invocation : Invocation)
    (s : ScreencastService) (error : Error) :
  disable_save_to_disk env = false ->
  _recorders s !! get_sender invocation = None ->
  CreateSessionSync env = inl error ->
  (∀ params, ScreencastAsync env params invocation s = (Uncaught error, s))
  ∧ (∀ params, ScreencastAreaAsync env params invocation s = (Uncaught error, s)).
Proof.
  intros Hlock Hl Hcs. split; intros params.
  - unfold ScreencastAsync. rewrite Hlock, Hcs.
    rewrite decide_False; [reflexivity|]. rewrite Hl. by intros [? ?].
  - unfold ScreencastAreaAsync. rewrite Hlock, Hcs.
    rewrite decide_False; [reflexivity|]. rewrite Hl. by intros [? ?].
Qed.

Lemma session_failure_leaves_call_unanswered_witness :
  ScreencastAsync env_CreateSession_fails ("cap-%d.webm", no_options) sample_invocation
    ScreencastService_constructor
  = (Uncaught (new_Error "GDBus.Error: org.freedesktop.DBus.Error.ServiceUnknown"),
     ScreencastService_constructor)
  ∧ replies sample_invocation
      (journal (ScreencastAsync env_CreateSession_fails ("cap-%d.webm", no_options)
                  sample_invocation ScreencastService_constructor).2) = [].
Proof.
  pose proof (session_failure_leaves_call_unanswered env_CreateSession_fails
    sample_invocation ScreencastService_constructor _ eq_refl eq_refl eq_refl) as [H _].
  split; [exact (H _)|]. rewrite (H _). reflexivity.
Defined.

(** ** What the two recording methods do answer

    Once the session is created and the recorder is about to be made,
    every way through [ScreencastAsync] and [ScreencastAreaAsync] replies
    once, or waits for the start promise and replies once when it
    settles. *)

Lemma Recorder_constructor_silent (env : Env) (sessionPath : string) (x y width height : Z)
    (filePath : string) (options : Options) (invocation : Invocation)
    (cb : option Callback) (i : Invocation) :
  replies i (Recorder_constructor env sessionPath x y width height filePath options
               invocation cb).2 = [].
Proof.
  unfold Recorder_constructor, _initSession, _watchSender, _applyOptions. step_M.
  destruct (make_directory_with_parents env); destruct (new_SessionProxy env); reflexivity.
Qed.

Lemma startRecording_silent (env : Env) (q : Request) (r : Recorder) (i : Invocation) :
  replies i (trace (startRecording env q r)) = []
  ∧ (completion (startRecording env q r) = Normal (Pending q)
     ∨ ∃ error, completion (startRecording env q r) = Normal (Rejected error)).
Proof.
  unfold startRecording. step_M.
  destruct (RecordAreaSync env); [split; [reflexivity | right; by eexists]|].
  destruct (new_StreamProxy env); [split; [reflexivity | right; by eexists]|].
  destruct (StartSync env); (split; [reflexivity|]); [right; by eexists | by left].
Qed.

Lemma warnings_silent (env : Env) (chars : list string) (st : Scan) (i : Invocation) :
  replies i (warnings (forEach env chars st)) = replies i (warnings st).
Proof.
  revert st. induction chars as [|c chars IH]; intros st; [reflexivity|].
  cbn [forEach]. rewrite IH. unfold scan_char.
  destruct (escape st); repeat case_decide; cbn [warnings]; try reflexivity.
  rewrite replies_app. cbn. apply app_nil_r.
Qed.

Lemma after_startRecording_replies_once (sender filePath : string)
    (invocation : Invocation) (settled : option Error) (s : ScreencastService) :
  ∃ tr, journal (after_startRecording sender filePath invocation settled s)
        = (journal s ++ tr)%list
        ∧ replies invocation tr
          = [if settled is Some _ then V_bs false "" else V_bs true filePath].
Proof.
  unfold after_startRecording, return_value. destruct settled as [error|].
  - cbn [journal record]. rewrite journal_removeRecorder. cbn [journal record].
    eexists. rewrite <- app_assoc. split; [reflexivity|].
    rewrite replies_app. apply replies_ReturnValue.
  - eexists. split; [reflexivity|]. apply replies_ReturnValue.
Qed.

Lemma record_into_answers (env : Env) (sessionPath : string) (x y width height : Z)
    (filePath : string) (options : Options) (invocation : Invocation)
    (s : ScreencastService) :
  let result := (record_into env sessionPath x y width height filePath options
                   invocation s).1 in
  let s' := (record_into env sessionPath x y width height filePath options
               invocation s).2 in
  (result = Returned
   ∧ ∃ tr, journal s' = (journal s ++ tr)%list
           ∧ replies invocation tr = [V_bs false ""])
  ∨ (∃ q, result = Suspended q
          ∧ awaiting s' !! promise q
            = Some (AwaitStart (get_sender invocation) filePath invocation)
          ∧ ∃ tr, journal s' = (journal s ++ tr)%list ∧ replies invocation tr = []).
Proof.
  cbv zeta. unfold record_into.
  pose proof (Recorder_constructor_silent env sessionPath x y width height filePath
                options invocation (Some (RemoveRecorder (get_sender invocation)))
                invocation) as Hctor.
  destruct (Recorder_constructor _ _ _ _ _ _ _ _ _ _) as [[recorder|error] tr];
    cbn [snd] in Hctor.
  - unfold allocate. cbn [fst snd allocated].
    set (s4 := _addRecorder _ _ _).
    assert (H4 : journal s4 = (journal s ++ tr)%list).
    { subst s4. unfold _addRecorder. cbn [_recorders set_recorders].
      case_decide; reflexivity. }
    set (q := {| promise := allocated s4 |}).
    destruct (startRecording_silent env q recorder invocation) as [Hsil [Hc | [error Hc]]];
      rewrite Hc; cbn [fst snd].
    + right. exists q. split; [reflexivity|].
      cbn [awaiting set_awaiting promise]. split; [apply lookup_insert_eq|].
      eexists. cbn [journal set_awaiting record set_heap]. rewrite H4, <- app_assoc.
      split; [reflexivity|]. rewrite replies_app, Hctor, Hsil. reflexivity.
    + left. split; [reflexivity|].
      match goal with
      | |- context [after_startRecording ?a ?b ?c ?d ?e] =>
          destruct (after_startRecording_replies_once a b c d e) as (tr' & Hj & Hr)
      end.
      eexists. rewrite Hj. cbn [journal set_awaiting record set_heap].
      rewrite H4, <- !app_assoc. split; [reflexivity|].
      rewrite !replies_app, Hctor, Hsil, Hr. reflexivity.
  - left. cbn [fst snd]. split; [reflexivity|].
    eexists. unfold return_value. cbn [journal record]. rewrite <- !app_assoc.
    split; [reflexivity|]. rewrite !replies_app, Hctor.
    cbn [app]. apply replies_ReturnValue.
Qed.

(** * Further properties of the Recorder *)

(** ** The three release steps *)

(** X1.  Each of the three release steps does its work once: run again,
    on the recorder the first run left (even a first run that threw), it
    makes no call and changes nothing. *)
Theorem release_steps_idempotent (env env' : Env) (r : Recorder) :
  _teardownPipeline env' (this (_teardownPipeline env r))
    = mkRun (Normal tt) (this (_teardownPipeline env r)) []
  ∧ _unwatchSender (this (_unwatchSender r))
    = mkRun (Normal tt) (this (_unwatchSender r)) []
  ∧ _stopSession env' (this (_stopSession env r))
    = mkRun (Normal tt) (this (_stopSession env r)) [].
Proof.
  split; [|split].
  - split_env env; name_fields r; destruct pl; reflexivity.
  - name_fields r; destruct w; reflexivity.
  - split_env env; name_fields r; destruct ss; reflexivity.
Qed.

(** ** What the fatal-error path releases *)

(** X2.  Whenever the fatal-error path is entered it releases the pipeline,
    the name watch and the session, whether or not it runs to its end.  When
    it does run to its end, every outcome that was pending has been rejected
    and is cleared, and the callback is cleared.  When it does not, the
    exception is the one [StopSync] threw, and the callback and the pending
    outcomes are left as they were: nothing was rejected. *)
Theorem error_path_releases_resources (env : Env) (o : Origin) (r : Recorder) :
  entered o r = true ->
  let x := unified_error_path env o r in
  _pipeline (this x) = None
  ∧ _nameWatchId (this x) = 0%N
  ∧ _sessionState (this x) ≠ SessionState.ACTIVE
  ∧ (completion x = Normal tt ->
       _onErrorCallback (this x) = None
       ∧ _startRequest (this x) = None
       ∧ _stopRequest (this x) = None
       ∧ (∀ q, _startRequest r = Some q ∨ _stopRequest r = Some q ->
               ∃ error, Reject q error ∈ trace x))
  ∧ (∀ e, completion x = Throws e ->
       StopSync env = Some e
       ∧ _onErrorCallback (this x) = _onErrorCallback r
       ∧ _startRequest (this x) = _startRequest r
       ∧ _stopRequest (this x) = _stopRequest r
       ∧ settlements_of (trace x) = []).
Proof.
  intros He x. subst x.
  destruct (entered_closed o r He) as (error & r0 & Hx & Hcb & Hsq & Htq).
  rewrite (Hx env). rewrite <- Hcb, <- Hsq, <- Htq. clear Hx Hcb Hsq Htq He.
  unfold bailed_out.
  assert (Hss : _sessionState (released r0) ≠ SessionState.ACTIVE).
  { unfold released. cbn [_sessionState set_sessionState]. case_decide; [discriminate|done]. }
  destruct (decide (_sessionState r0 = SessionState.ACTIVE)) as [Ha|Ha];
    [destruct (StopSync env) as [e|]|]; cbn [completion this trace].
  - do 3 (split; [done|]). split; [discriminate|].
    intros e' [= <-]. do 4 (split; [reflexivity|]).
    apply release_trace_silent.
  - do 3 (split; [done|]). split; [|discriminate].
    intros _. do 3 (split; [reflexivity|]).
    intros q Hq. exists error. unfold rejections.
    rewrite elem_of_app, elem_of_cons, !elem_of_app.
    destruct Hq as [-> | ->]; rewrite !elem_of_cons; tauto.
  - do 3 (split; [done|]). split; [|discriminate].
    intros _. do 3 (split; [reflexivity|]).
    intros q Hq. exists error. unfold rejections.
    rewrite elem_of_app, elem_of_cons, !elem_of_app.
    destruct Hq as [-> | ->]; rewrite !elem_of_cons; tauto.
Qed.

Lemma error_path_releases_resources_witness :
  entered SenderVanished starting = true
  ∧ completion (unified_error_path sample_env SenderVanished starting) = Normal tt
  ∧ _startRequest (this (unified_error_path sample_env SenderVanished starting)) = None
  ∧ _pipeline (this (unified_error_path sample_env SenderVanished starting)) = None.
Proof.
  assert (He : entered SenderVanished starting = true) by reflexivity.
  assert (Hc : completion (unified_error_path sample_env SenderVanished starting) = Normal tt)
    by (vm_compute; reflexivity).
  destruct (error_path_releases_resources sample_env SenderVanished starting He)
    as (H1 & _ & _ & Hend & _).
  destruct (Hend Hc) as (_ & H2 & _).
  split; [exact He|]. split; [exact Hc|]. split; [exact H2|exact H1].
Defined.

(** ** startRecording *)

(** X3.  [startRecording] records the pending start before it talks to
    the session and does not take it back: whichever of [RecordAreaSync],
    the construction of the stream proxy and [StartSync] throws, the promise
    is rejected with that error, the session state is as it was and
    [_startRequest] is still set when [startRecording] returns, so that a
    [stopRecording] on the recorder as [startRecording] left it is refused.
    Only when all three return is the promise left pending and the session
    ACTIVE. *)
Theorem startRecording_outcome (env : Env) (q : Request) (r : Recorder) :
  let x := startRecording env q r in
  let area := SessionRecordAreaSync (_x r) (_y r) (_width r) (_height r)
                (if _drawCursor r then 1 else 0) in
  _startRequest (this x) = Some q
  ∧ (∀ q', stopRecording q' (this x)
           = mkRun (Normal (Rejected
                              (new_Error "Unable to stop recorder while still starting")))
               (this x) [])
  ∧ (∀ e, RecordAreaSync env = inl e ->
       x = mkRun (Normal (Rejected e)) (set_startRequest (Some q) r) [area])
  ∧ (∀ path e, RecordAreaSync env = inr path -> new_StreamProxy env = Some e ->
       x = mkRun (Normal (Rejected e)) (set_startRequest (Some q) r) [area])
  ∧ (∀ path e, RecordAreaSync env = inr path -> new_StreamProxy env = None ->
       StartSync env = Some e ->
       x = mkRun (Normal (Rejected e))
             (set_streamProxy (Some path) (set_startRequest (Some q) r))
             [area; ConnectSignal "PipeWireStreamAdded"; SessionStartSync])
  ∧ (∀ path, RecordAreaSync env = inr path -> new_StreamProxy env = None ->
       StartSync env = None ->
       x = mkRun (Normal (Pending q))
             (set_sessionState SessionState.ACTIVE
                (set_streamProxy (Some path) (set_startRequest (Some q) r)))
             [area; ConnectSignal "PipeWireStreamAdded"; SessionStartSync]).
Proof.
  cbv zeta.
  assert (Hq : _startRequest (this (startRecording env q r)) = Some q).
  { unfold startRecording. step_M.
    destruct (RecordAreaSync env); [reflexivity|].
    destruct (new_StreamProxy env); [reflexivity|].
    destruct (StartSync env); reflexivity. }
  split; [exact Hq|]. split.
  { intros q'. unfold stopRecording. rewrite this_then.
    rewrite decide_True by (rewrite Hq; by eexists). reflexivity. }
  unfold startRecording. step_M.
  split; [|split; [|split]].
  - intros e ->. reflexivity.
  - intros path e -> ->. reflexivity.
  - intros path e -> -> ->. reflexivity.
  - intros path -> -> ->. reflexivity.
Qed.

Lemma startRecording_outcome_witness :
  RecordAreaSync env_StartSync_fails = inr "/org/gnome/Mutter/ScreenCast/Stream/u1"
  ∧ new_StreamProxy env_StartSync_fails = None
  ∧ StartSync env_StartSync_fails = Some (new_Error "GDBus.Error: Timeout was reached")
  ∧ completion (startRecording env_StartSync_fails {| promise := 1 |} constructed)
    = Normal (Rejected (new_Error "GDBus.Error: Timeout was reached"))
  ∧ _sessionState (this (startRecording env_StartSync_fails {| promise := 1 |} constructed))
    = SessionState.INIT.
Proof.
  destruct (startRecording_outcome env_StartSync_fails {| promise := 1 |} constructed)
    as (_ & _ & _ & _ & Hfail & _).
  pose proof (Hfail _ _ eq_refl eq_refl eq_refl) as H.
  split; [reflexivity|]. split; [reflexivity|]. split; [reflexivity|].
  rewrite H. split; reflexivity.
Defined.

(** ** The stream is ready: _startPipeline *)

Lemma ensurePipeline_parsed (env : Env) (nodeId : Z) (r : Recorder) (p : Gst.Element) :
  parse_launch_full env = inr p ->
  _ensurePipeline env nodeId r
  = mkRun (Normal true) (set_pipeline (Some p) r)
      [ParseLaunchFull
         {| descr_path := nodeId;
            descr_always_copy := pipewiresrc_0_3_57 env && negb (videoconvert_1_20_4 env);
            descr_max_framerate := _framerate r;
            descr_pipeline := _pipelineString r;
            descr_threads := _substituteThreadCount env;
            descr_location := _filePath r |}].
Proof. intros Hp. unfold _ensurePipeline. step_M. rewrite Hp. reflexivity. Qed.

Lemma ensurePipeline_failed (env : Env) (nodeId : Z) (r : Recorder) (e : Error) :
  parse_launch_full env = inl e ->
  _ensurePipeline env nodeId r
  = mkRun
      (match completion (_handleFatalPipelineError env
                           ("Failed to create pipeline: " +:+ message e) r) with
       | Normal _ => Normal false
       | Throws e' => Throws e'
       end)
      (this (_handleFatalPipelineError env
               ("Failed to create pipeline: " +:+ message e) r))
      (ParseLaunchFull
         {| descr_path := nodeId;
            descr_always_copy := pipewiresrc_0_3_57 env && negb (videoconvert_1_20_4 env);
            descr_max_framerate := _framerate r;
            descr_pipeline := _pipelineString r;
            descr_threads := _substituteThreadCount env;
            descr_location := _filePath r |}
       :: trace (_handleFatalPipelineError env
                   ("Failed to create pipeline: " +:+ message e) r)).
Proof.
  intros He. unfold _ensurePipeline. step_M. rewrite He.
  pose proof (bailed_out_releases env
                (new_Error ("Fatal pipeline error: "
                              +:+ ("Failed to create pipeline: " +:+ message e)))
                (set_pipelineState PipelineState.ERROR r)) as (H1 & _).
  rewrite <- fatal_closed in H1.
  destruct (_handleFatalPipelineError env _ r) as [c r' tr].
  cbn [this trace completion] in *. destruct c as [[]|e']; [|reflexivity].
  rewrite H1. cbn. by rewrite app_nil_r.
Qed.

(** X4.  [_startPipeline] either installs the parsed pipeline, asks it to
    play and waits (when the description parses and [set_state] answers
    SUCCESS or ASYNC), or goes through the fatal-error path: with the parse
    error's text when the description does not parse, with "Failed to start
    pipeline" when the pipeline refuses to play.  After either failure the
    recorder has no pipeline and its state is STOPPED or ERROR. *)
Theorem startPipeline_outcome (env : Env) (nodeId : Z) (r : Recorder) :
  let x := _startPipeline env nodeId r in
  let d := {| descr_path := nodeId;
              descr_always_copy := pipewiresrc_0_3_57 env && negb (videoconvert_1_20_4 env);
              descr_max_framerate := _framerate r;
              descr_pipeline := _pipelineString r;
              descr_threads := _substituteThreadCount env;
              descr_location := _filePath r |} in
  (∀ p, parse_launch_full env = inr p ->
        set_state_PLAYING env = Gst.SUCCESS ∨ set_state_PLAYING env = Gst.ASYNC ->
        x = mkRun (Normal tt) (set_pipeline (Some p) r)
              [ParseLaunchFull d; BusAddWatch p; PipelineSetState p Gst.PLAYING])
  ∧ (∀ p, parse_launch_full env = inr p ->
        ¬ (set_state_PLAYING env = Gst.SUCCESS ∨ set_state_PLAYING env = Gst.ASYNC) ->
        let y := unified_error_path env (PipelineFatal "Failed to start pipeline")
                   (set_pipeline (Some p) r) in
        completion x = completion y
        ∧ this x = this y
        ∧ trace x = ParseLaunchFull d :: BusAddWatch p :: PipelineSetState p Gst.PLAYING
                      :: trace y
        ∧ _pipeline (this x) = None
        ∧ _pipelineState (this x) = PipelineState.STOPPED)
  ∧ (∀ e, parse_launch_full env = inl e ->
        let y := unified_error_path env
                   (PipelineFatal ("Failed to create pipeline: " +:+ message e)) r in
        completion x = completion y
        ∧ this x = this y
        ∧ trace x = ParseLaunchFull d :: trace y
        ∧ _pipeline (this x) = None
        ∧ _pipelineState (this x)
          = (if _pipeline r is Some _ then PipelineState.STOPPED else PipelineState.ERROR)).
Proof.
  cbv zeta. unfold unified_error_path. split; [|split].
  - intros p Hp Hs. unfold _startPipeline.
    rewrite bind_run, (ensurePipeline_parsed _ _ _ _ Hp). cbn [completion this trace negb].
    rewrite this_then. cbn [_pipeline set_pipeline].
    rewrite !emit_then. rewrite decide_True by exact Hs. reflexivity.
  - intros p Hp Hs. unfold _startPipeline.
    rewrite bind_run, (ensurePipeline_parsed _ _ _ _ Hp). cbn [completion this trace negb].
    rewrite this_then. cbn [_pipeline set_pipeline].
    rewrite !emit_then. rewrite decide_False by exact Hs. cbn [completion this trace].
    destruct (bailed_out_releases env
                (new_Error ("Fatal pipeline error: " +:+ "Failed to start pipeline"))
                (set_pipelineState PipelineState.ERROR (set_pipeline (Some p) r)))
      as (H1 & _ & _ & H4).
    rewrite <- fatal_closed in H1, H4. done.
  - intros e He. unfold _startPipeline.
    rewrite bind_run, (ensurePipeline_failed _ _ _ _ He). cbn [completion this trace].
    destruct (bailed_out_releases env
                (new_Error ("Fatal pipeline error: "
                              +:+ ("Failed to create pipeline: " +:+ message e)))
                (set_pipelineState PipelineState.ERROR r)) as (H1 & _ & _ & H4).
    rewrite <- fatal_closed in H1, H4.
    destruct (_handleFatalPipelineError env _ r) as [c r' tr].
    cbn [this trace completion] in *. destruct c as [[]|e']; cbn; rewrite ?app_nil_r; done.
Qed.

Lemma startPipeline_outcome_witness :
  parse_launch_full env_parse_fails = inl (new_Error "no element vp8enc")
  ∧ _pipeline (this (_startPipeline env_parse_fails 33 starting)) = None
  ∧ _pipelineState (this (_startPipeline env_parse_fails 33 starting)) = PipelineState.STOPPED
  ∧ Reject {| promise := 1 |}
      (new_Error "Fatal pipeline error: Failed to create pipeline: no element vp8enc")
    ∈ trace (_startPipeline env_parse_fails 33 starting).
Proof.
  destruct (startPipeline_outcome env_parse_fails 33 starting) as (_ & _ & Hparse).
  destruct (Hparse _ eq_refl) as (_ & _ & _ & H1 & H2).
  split; [reflexivity|]. split; [exact H1|]. split; [exact H2|].
  vm_compute. repeat first [apply list_elem_of_here | apply list_elem_of_further].
Defined.

(** ** More bus messages *)

(** X5.  A state-change message resolves the pending start only when the
    recorder is in INIT, the message comes from the pipeline itself and the
    new state is PLAYING; then the recorder moves to PLAYING and the start
    outcome is resolved and cleared.  Any other state-change message (a
    child element's, another state, a recorder past INIT) is ignored: no
    call, no change.  With the three conditions met but no start pending,
    the handler throws after it has moved the recorder to PLAYING. *)
Theorem STATE_CHANGED_dispatch (env : Env) (src : Gst.Element) (newState : Gst.State)
    (r : Recorder) :
  let x := _onBusMessage env (Gst.STATE_CHANGED src newState) r in
  let reached := _pipelineState r = PipelineState.INIT
                 ∧ _pipeline r = Some src
                 ∧ newState = Gst.PLAYING in
  (¬ reached -> x = mkRun (Normal true) r [])
  ∧ (reached -> ∀ q, _startRequest r = Some q ->
       x = mkRun (Normal true)
             (set_startRequest None (set_pipelineState PipelineState.PLAYING r))
             [Resolve q])
  ∧ (reached -> _startRequest r = None ->
       (∃ e, completion x = Throws e)
       ∧ this x = set_pipelineState PipelineState.PLAYING r
       ∧ trace x = []).
Proof.
  cbv zeta. unfold _onBusMessage. split; [|split].
  - intros Hn. step_M. rewrite decide_False by exact Hn. reflexivity.
  - intros Hy q Hq. step_M. rewrite decide_True by exact Hy. rewrite Hq. reflexivity.
  - intros Hy Hq. step_M. rewrite decide_True by exact Hy. rewrite Hq.
    split; [by eexists|]. split; reflexivity.
Qed.

Lemma STATE_CHANGED_dispatch_witness :
  _onBusMessage sample_env (Gst.STATE_CHANGED 7%nat Gst.PLAYING) starting
  = mkRun (Normal true)
      (set_startRequest None (set_pipelineState PipelineState.PLAYING starting))
      [Resolve {| promise := 1 |}]
  ∧ _onBusMessage sample_env (Gst.STATE_CHANGED 8%nat Gst.PLAYING) starting
    = mkRun (Normal true) starting [].
Proof.
  destruct (STATE_CHANGED_dispatch sample_env 7%nat Gst.PLAYING starting) as (_ & H & _).
  destruct (STATE_CHANGED_dispatch sample_env 8%nat Gst.PLAYING starting) as (Hn & _).
  split.
  - apply H; [repeat split|reflexivity].
  - apply Hn. intros (_ & Hp & _). discriminate Hp.
Defined.

(** X6.  A GStreamer error message is ignored in STOPPED and ERROR; in
    INIT, PLAYING and FLUSHING it goes through the fatal-error path with a
    message that names the state and carries the error's text, and when the
    path runs to its end that message is what every pending outcome is
    rejected with. *)
Theorem ERROR_dispatch (env : Env) (text : string) (r : Recorder) :
  let x := _onBusMessage env (Gst.ERROR text) r in
  let msg := "GStreamer error while in state "
               +:+ PipelineState.to_string (_pipelineState r) +:+ ": " +:+ text in
  (_pipelineState r = PipelineState.STOPPED ∨ _pipelineState r = PipelineState.ERROR ->
     x = mkRun (Normal true) r [])
  ∧ (¬ (_pipelineState r = PipelineState.STOPPED ∨ _pipelineState r = PipelineState.ERROR) ->
     let y := unified_error_path env (PipelineFatal msg) r in
     this x = this y
     ∧ trace x = trace y
     ∧ completion x = match completion y with Normal _ => Normal true | Throws e => Throws e end
     ∧ (completion x = Normal true ->
        ∀ q, _startRequest r = Some q ∨ _stopRequest r = Some q ->
             Reject q (new_Error ("Fatal pipeline error: " +:+ msg)) ∈ trace x)).
Proof.
  cbv zeta. split.
  - intros Hps. unfold _onBusMessage. step_M.
    destruct Hps as [-> | ->]; destruct r; reflexivity.
  - intros Hps. unfold unified_error_path.
    set (msg := "GStreamer error while in state " +:+ _).
    assert (E : _onBusMessage env (Gst.ERROR text) r
                = (_handleFatalPipelineError env msg;; mret true) r).
    { unfold _onBusMessage. subst msg. step_M.
      destruct (_pipelineState r); try reflexivity; exfalso; apply Hps; auto. }
    rewrite E.
    destruct (then_ret (_handleFatalPipelineError env msg) true r) as (-> & -> & ->).
    do 3 (split; [reflexivity|]).
    rewrite fatal_closed. unfold bailed_out.
    destruct (if decide _ then _ else _); cbn [completion trace]; [discriminate|].
    intros _ q Hq. unfold rejections. cbn [_startRequest _stopRequest set_pipelineState].
    rewrite elem_of_app, elem_of_cons, !elem_of_app.
    destruct Hq as [-> | ->]; rewrite !elem_of_cons; tauto.
Qed.

Lemma ERROR_dispatch_witness :
  ¬ (_pipelineState stopping = PipelineState.STOPPED
     ∨ _pipelineState stopping = PipelineState.ERROR)
  ∧ completion (_onBusMessage sample_env (Gst.ERROR "boom") stopping) = Normal true
  ∧ Reject {| promise := 2 |}
      (new_Error "Fatal pipeline error: GStreamer error while in state FLUSHING: boom")
    ∈ trace (_onBusMessage sample_env (Gst.ERROR "boom") stopping).
Proof.
  assert (Hps : ¬ (_pipelineState stopping = PipelineState.STOPPED
                   ∨ _pipelineState stopping = PipelineState.ERROR))
    by (intros [H|H]; discriminate H).
  assert (Hc : completion (_onBusMessage sample_env (Gst.ERROR "boom") stopping)
               = Normal true) by (vm_compute; reflexivity).
  split; [exact Hps|]. split; [exact Hc|].
  destruct (ERROR_dispatch sample_env "boom" stopping) as (_ & H).
  destruct (H Hps) as (_ & _ & _ & Hrej).
  exact (Hrej Hc {| promise := 2 |} (or_intror eq_refl)).
Defined.

(** ** Signals only wind a recorder down *)

Lemma winds_down_refl (r : Recorder) : winds_down r r.
Proof. unfold winds_down. tauto. Qed.

Lemma winds_down_trans (r1 r2 r3 : Recorder) :
  winds_down r1 r2 -> winds_down r2 r3 -> winds_down r1 r3.
Proof.
  unfold winds_down.
  intros (A1 & A2 & A3 & A4 & A5 & A6 & A7 & A8 & A9 & A10)
         (B1 & B2 & B3 & B4 & B5 & B6 & B7 & B8 & B9 & B10).
  rewrite B1, B2, B3, B4, B5.
  repeat split; try assumption.
  - destruct B6 as [-> | ->]; tauto.
  - destruct B7 as [-> | ->]; tauto.
  - destruct B8 as [-> | ->]; tauto.
  - destruct B9 as [-> | ->]; tauto.
  - destruct B10 as [-> | ->]; tauto.
Qed.

Lemma winding_down_ret {A : Type} (a : A) : winding_down (mret a).
Proof. intros r. apply winds_down_refl. Qed.

Lemma winding_down_bind {A B : Type} (m : M A) (k : A -> M B) :
  winding_down m -> (∀ a, winding_down (k a)) -> winding_down (m ≫= k).
Proof.
  intros Hm Hk r. specialize (Hm r). rewrite bind_run.
  destruct (m r) as [[a|e] r' tr]; cbn [completion this trace] in *; [|exact Hm].
  eapply winds_down_trans; [exact Hm | apply Hk].
Qed.

Lemma winding_down_getThis : winding_down getThis.
Proof. intros r. apply winds_down_refl. Qed.

Lemma winding_down_emit (e : Effect) : winding_down (emit e).
Proof. intros r. apply winds_down_refl. Qed.

Lemma winding_down_throw {A : Type} (e : Error) : winding_down (@throw A e).
Proof. intros r. apply winds_down_refl. Qed.

Lemma winding_down_assign (f : Recorder -> Recorder) :
  (∀ r, winds_down r (f r)) -> winding_down (assign f).
Proof. intros Hf r. apply Hf. Qed.

(** Finishes [winding_down m] for a method body [m]: through the binds and
    the branches, down to the assignments, each of which either leaves the
    protected fields alone or clears one of them. *)
Ltac wind_down known :=
  repeat first
    [ apply winding_down_bind; [|intros ?]
    | apply winding_down_ret | apply winding_down_getThis
    | apply winding_down_emit | apply winding_down_throw
    | apply winding_down_assign; intros []; unfold winds_down; cbn; tauto
    | known
    | case_decide
    | case_match ].

Lemma winding_down_teardownPipeline (env : Env) : winding_down (_teardownPipeline env).
Proof. unfold _teardownPipeline, log. wind_down fail. Qed.

Lemma winding_down_unwatchSender : winding_down _unwatchSender.
Proof. unfold _unwatchSender. wind_down fail. Qed.

Lemma winding_down_stopSession (env : Env) : winding_down (_stopSession env).
Proof. unfold _stopSession. wind_down fail. Qed.

Lemma winding_down_bailOutOnError (env : Env) (error : Error) :
  winding_down (_bailOutOnError env error).
Proof.
  unfold _bailOutOnError, log.
  wind_down ltac:(first [ apply winding_down_teardownPipeline
                        | apply winding_down_unwatchSender
                        | apply winding_down_stopSession ]).
Qed.

Lemma winding_down_handleFatalPipelineError (env : Env) (msg : string) :
  winding_down (_handleFatalPipelineError env msg).
Proof.
  unfold _handleFatalPipelineError. wind_down ltac:(apply winding_down_bailOutOnError).
Qed.

Lemma winding_down_handler (env : Env) (sig : Signal) : winding_down (handler env sig).
Proof.
  destruct sig as [| |nodeId|[src newState| |text|]]; unfold handler.
  - unfold _senderVanished. apply winding_down_bailOutOnError.
  - unfold _onSessionClosed. wind_down ltac:(apply winding_down_bailOutOnError).
  - unfold _startPipeline, _ensurePipeline.
    wind_down ltac:(apply winding_down_handleFatalPipelineError).
  - unfold _onBusMessage. wind_down fail.
  - unfold _onBusMessage, _addRecentItem.
    wind_down ltac:(first [ apply winding_down_handleFatalPipelineError
                          | apply winding_down_teardownPipeline
                          | apply winding_down_unwatchSender
                          | apply winding_down_stopSession ]).
  - unfold _onBusMessage.
    wind_down ltac:(apply winding_down_handleFatalPipelineError).
  - unfold _onBusMessage. wind_down fail.
Qed.

(** A bus message keeps the pipeline there is or drops it. *)
Lemma onBusMessage_pipeline (env : Env) (msg : Gst.Message) (r : Recorder) :
  _pipeline (this (_onBusMessage env msg r)) = _pipeline r
  ∨ _pipeline (this (_onBusMessage env msg r)) = None.
Proof.
  assert (Hfatal : ∀ text, _pipeline (this (_handleFatalPipelineError env text r)) = None).
  { intros text. rewrite fatal_closed. apply bailed_out_releases. }
  destruct msg as [src newState| |text|].
  - left. unfold _onBusMessage. step_M. case_decide; [|reflexivity].
    destruct (_startRequest r); reflexivity.
  - destruct (_pipelineState r) eqn:Hps.
    + right.
      assert (E : _onBusMessage env Gst.EOS r
                  = (_handleFatalPipelineError env
                       "Unexpected EOS message while in state INIT";; mret true) r).
      { unfold _onBusMessage. step_M. rewrite Hps. reflexivity. }
      rewrite E. destruct (then_ret (_handleFatalPipelineError env
        "Unexpected EOS message while in state INIT") true r) as (-> & _). apply Hfatal.
    + right.
      assert (E : _onBusMessage env Gst.EOS r
                  = ((emit (AddRecentItem (_filePath r));;
                      _handleFatalPipelineError env "Unexpected EOS message");;
                     mret true) r).
      { unfold _onBusMessage, _addRecentItem. step_M. rewrite Hps. reflexivity. }
      rewrite E.
      destruct (then_ret (emit (AddRecentItem (_filePath r));;
                          _handleFatalPipelineError env "Unexpected EOS message") true r)
        as (-> & _).
      rewrite emit_then. apply Hfatal.
    + right. rewrite (EOS_flushing_closed env r Hps).
      destruct (if decide _ then _ else _); [reflexivity|].
      destruct (_stopRequest r); reflexivity.
    + left. unfold _onBusMessage. step_M. rewrite Hps. reflexivity.
    + left. unfold _onBusMessage. step_M. rewrite Hps. reflexivity.
  - set (msg := "GStreamer error while in state "
                  +:+ PipelineState.to_string (_pipelineState r) +:+ ": " +:+ text).
    destruct (_pipelineState r) eqn:Hps.
    1-3: right;
      assert (E : _onBusMessage env (Gst.ERROR text) r
                  = (_handleFatalPipelineError env msg;; mret true) r)
        by (unfold _onBusMessage; subst msg; step_M; rewrite Hps; reflexivity);
      rewrite E;
      destruct (then_ret (_handleFatalPipelineError env msg) true r) as (-> & _);
      apply Hfatal.
    all: left; unfold _onBusMessage; step_M; rewrite Hps; reflexivity.
  - left. reflexivity.
Qed.

(** X7.  Whatever signal a recorder handles, and in whatever state, none
    of these fields is set by the run: where it records, what it records and
    for whom stay as they were; the callback, the pending start and stop
    outcomes and the name watch are kept or cleared; the session state is
    kept or becomes STOPPED, so a signal never makes a session ACTIVE.  The
    pipeline is set by one handler only, that of the stream-added signal:
    under every other signal it is kept or dropped. *)
Theorem signals_only_wind_down (env : Env) (sig : Signal) (r : Recorder) :
  winds_down r (this (handler env sig r))
  ∧ (stream_added sig = true
     ∨ _pipeline (this (handler env sig r)) = _pipeline r
     ∨ _pipeline (this (handler env sig r)) = None).
Proof.
  split; [apply winding_down_handler|].
  destruct sig as [| |nodeId|msg]; [right; right|right|by left|right].
  - unfold handler, _senderVanished. rewrite bailOut_closed. apply bailed_out_releases.
  - unfold handler. pose proof (path_closed env SessionClosed r) as E.
    unfold unified_error_path in E. rewrite E.
    case_decide; [by left|right]. apply bailed_out_releases.
  - unfold handler. rewrite bind_run.
    destruct (onBusMessage_pipeline env msg r) as [H|H];
      destruct (_onBusMessage env msg r) as [[b|e] r' tr];
      cbn [completion this trace] in *; [by left|by left|by right|by right].
Qed.

(** ** The constructor *)

(** X8.  The constructor throws in two cases only: when the directory
    cannot be made for a reason other than its being there already (then
    nothing else was done), and when the session proxy cannot be made (then
    the name watch was already registered, and is not taken back).
    Otherwise it returns a recorder in the INIT states with no pipeline and
    nothing pending, watched under the identifier [watch_name] returned,
    with the geometry and the file path it was given and with each option
    that is present put over its default. *)
Theorem Recorder_constructor_outcome (env : Env) (sessionPath : string)
    (x y width height : Z) (filePath : string) (options : Options)
    (invocation : Invocation) (cb : option Callback) :
  let result := Recorder_constructor env sessionPath x y width height filePath options
                  invocation cb in
  let watched := WatchName (get_sender invocation) (Npos (watch_name env)) in
  (∀ e, make_directory_with_parents env = MkdirFails e ->
        result = (Throws e, [MakeDirectoryWithParents filePath]))
  ∧ ((∀ e, make_directory_with_parents env ≠ MkdirFails e) ->
     ∀ e, new_SessionProxy env = Some e ->
          result = (Throws e, [MakeDirectoryWithParents filePath; watched]))
  ∧ ((∀ e, make_directory_with_parents env ≠ MkdirFails e) ->
     new_SessionProxy env = None ->
     result
     = (Normal
          {| _startInvocation := invocation; _onErrorCallback := cb;
             _x := x; _y := y; _width := width; _height := height;
             _filePath := filePath;
             _pipelineString := default DEFAULT_PIPELINE (opt_pipeline options);
             _framerate := default DEFAULT_FRAMERATE (opt_framerate options);
             _drawCursor := default DEFAULT_DRAW_CURSOR (opt_draw_cursor options);
             _pipelineState := PipelineState.INIT; _pipeline := None;
             _nameWatchId := Npos (watch_name env);
             _sessionState := SessionState.INIT;
             _sessionProxy := sessionPath; _streamProxy := None;
             _startRequest := None; _stopRequest := None |},
        [MakeDirectoryWithParents filePath; watched; ConnectSignal "Closed"])).
Proof.
  cbv zeta. unfold Recorder_constructor, _initSession, _watchSender, _applyOptions. step_M.
  split; [|split].
  - intros e ->. reflexivity.
  - intros Hm e ->. destruct (make_directory_with_parents env) as [| |e'];
      [reflexivity | reflexivity | by destruct (Hm e')].
  - intros Hm ->. destruct (make_directory_with_parents env) as [| |e'];
      [reflexivity | reflexivity | by destruct (Hm e')].
Qed.

Lemma Recorder_constructor_outcome_witness :
  (∀ e, make_directory_with_parents sample_env ≠ MkdirFails e)
  ∧ _nameWatchId constructed = 5%N
  ∧ _sessionState constructed = SessionState.INIT
  ∧ _framerate constructed = 30.
Proof.
  assert (Hm : ∀ e, make_directory_with_parents sample_env ≠ MkdirFails e)
    by (intros e H; discriminate H).
  split; [exact Hm|].
  destruct (Recorder_constructor_outcome sample_env
              "/org/gnome/Mutter/ScreenCast/Session/u1" 0 0 1920 1080
              "/home/user/Videos/cap.webm" no_options sample_invocation
              (Some (RemoveRecorder ":1.42"))) as (_ & _ & H).
  specialize (H Hm eq_refl). unfold constructed. rewrite H. cbn [fst].
  repeat split.
Defined.

(** * Further properties of the service *)

(** ** References stay valid *)

Lemma outlives_refl (s : ScreencastService) : outlives s s.
Proof. split; auto. Qed.

Lemma outlives_trans (s1 s2 s3 : ScreencastService) :
  outlives s1 s2 -> outlives s2 s3 -> outlives s1 s3.
Proof. intros [A1 A2] [B1 B2]. split; auto. Qed.

Lemma outlives_same (s0 s s' : ScreencastService) :
  _recorders s' = _recorders s -> heap s' = heap s -> outlives s0 s -> outlives s0 s'.
Proof. unfold outlives. intros -> ->. done. Qed.

Lemma outlives_removeRecorder (s0 s : ScreencastService) (sender : string) :
  outlives s0 s -> outlives s0 (_removeRecorder sender s).
Proof.
  intros H0. apply (outlives_trans _ s); [exact H0|]. clear H0 s0.
  unfold _removeRecorder. destruct (_recorders s !! sender); [|apply outlives_refl].
  cbn [_recorders set_recorders].
  assert (H : outlives s (set_recorders (delete sender (_recorders s)) s)).
  { split; [auto|]. cbn [_recorders set_recorders]. intros k ref Hk.
    apply lookup_delete_Some in Hk. tauto. }
  case_decide; [|exact H]. revert H. by apply outlives_same.
Qed.

Lemma outlives_set_heap (s0 s : ScreencastService) (ref : nat) (r : Recorder) :
  outlives s0 s -> outlives s0 (set_heap (<[ref := r]> (heap s)) s).
Proof.
  intros H0. apply (outlives_trans _ s); [exact H0|]. split; [|auto].
  cbn [heap set_heap]. intros k Hk. destruct (decide (ref = k)) as [->|Hne].
  - rewrite lookup_insert_eq. by eexists.
  - by rewrite lookup_insert_ne.
Qed.

Lemma outlives_record (s0 s : ScreencastService) (es : list Effect) :
  outlives s0 s -> outlives s0 (record es s).
Proof. by apply outlives_same. Qed.

Lemma outlives_return_value (s0 s : ScreencastService) (i : Invocation) (v : Variant) :
  outlives s0 s -> outlives s0 (return_value i v s).
Proof. by apply outlives_same. Qed.

Lemma outlives_set_awaiting (s0 s : ScreencastService) (a : gmap nat Continuation) :
  outlives s0 s -> outlives s0 (set_awaiting a s).
Proof. by apply outlives_same. Qed.

Lemma outlives_allocate (s0 s : ScreencastService) :
  outlives s0 s -> outlives s0 (allocate s).2.
Proof. by apply outlives_same. Qed.

(** Peels the state updates that neither drop an object nor register one. *)
Ltac lasting :=
  cbv zeta;
  repeat first
    [ apply outlives_return_value | apply outlives_removeRecorder | apply outlives_record
    | apply outlives_set_heap | apply outlives_set_awaiting | apply outlives_allocate ];
  first [assumption | apply outlives_refl].

Lemma outlives_resume (s0 s : ScreencastService) (k : Continuation) (settled : option Error) :
  outlives s0 s -> outlives s0 (resume k settled s).
Proof.
  intros H. destruct k, settled; cbn [resume after_startRecording after_stopRecording];
    lasting.
Qed.

Lemma outlives_settle (s0 s : ScreencastService) (q : Request) (settled : option Error) :
  outlives s0 s -> outlives s0 (settle q settled s).
Proof.
  intros H. unfold settle. destruct (awaiting s !! promise q); [|exact H].
  apply outlives_resume. lasting.
Qed.

Lemma outlives_callbacks (tr : list Effect) (s0 s : ScreencastService) :
  outlives s0 s -> outlives s0 (fold_left run_callback tr s).
Proof.
  revert s. induction tr as [|e tr IH]; intros s H; [exact H|].
  cbn [fold_left]. apply IH. destruct e as [| | | | | | | | | | | | |[sender]| | |];
    cbn [run_callback]; lasting.
Qed.

Lemma outlives_settlements (tr : list Effect) (s0 s : ScreencastService) :
  outlives s0 s -> outlives s0 (fold_left run_settlement tr s).
Proof.
  revert s. induction tr as [|e tr IH]; intros s H; [exact H|].
  cbn [fold_left]. apply IH. destruct e; cbn [run_settlement];
    auto using outlives_settle.
Qed.

Lemma outlives_deliver (env : Env) (ref : nat) (sig : Signal) (s : ScreencastService) :
  outlives s (deliver env ref sig s).
Proof.
  unfold deliver. destruct (heap s !! ref) as [recorder|]; [|apply outlives_refl].
  destruct (handler env sig recorder) as [c r' tr]. cbn [this trace completion].
  apply outlives_settlements.
  destruct c; [|apply outlives_record]; apply outlives_callbacks; lasting.
Qed.

Lemma outlives_StopScreencastAsync (invocation : Invocation) (s : ScreencastService) :
  outlives s (StopScreencastAsync invocation s).2.
Proof.
  unfold StopScreencastAsync.
  destruct (_recorders s !! get_sender invocation) as [ref|]; [|cbn [snd]; lasting].
  destruct (heap s !! ref) as [recorder|]; [|apply outlives_refl].
  unfold allocate. cbn [fst snd].
  destruct (stopRecording _ recorder) as [[[q|error]|error] r' tr'];
    cbn [this trace completion snd after_stopRecording]; lasting.
Qed.

Lemma heap_closed_outlives (s s' : ScreencastService) :
  outlives s s' -> heap_closed s -> heap_closed s'.
Proof. intros [H1 H2] Hc sender ref Hl. eauto. Qed.

Lemma heap_closed_record_into (env : Env) (sessionPath : string) (x y width height : Z)
    (filePath : string) (options : Options) (invocation : Invocation)
    (s : ScreencastService) :
  heap_closed s ->
  heap_closed (record_into env sessionPath x y width height filePath options invocation s).2.
Proof.
  intros Hc. unfold record_into.
  destruct (Recorder_constructor _ _ _ _ _ _ _ _ _ _) as [[recorder|error] tr].
  - unfold allocate. cbn [fst snd allocated].
    set (s4 := _addRecorder _ _ _).
    assert (H4 : heap_closed s4).
    { subst s4. intros sender ref. rewrite recorders_addRecorder.
      assert (Hh : ∀ s0, heap (_addRecorder (get_sender invocation) (allocated s) s0)
                         = heap s0) by (intros s0; unfold _addRecorder; by case_decide).
      rewrite Hh. cbn [_recorders heap set_heap record].
      intros Hl. destruct (decide (allocated s = ref)) as [<-|Hne].
      - rewrite lookup_insert_eq. by eexists.
      - rewrite lookup_insert_ne by exact Hne.
        apply lookup_insert_Some in Hl as [[_ E] | [_ Hl]]; [by destruct Hne|].
        exact (Hc _ _ Hl). }
    clearbody s4. revert H4. apply heap_closed_outlives.
    destruct (startRecording env _ recorder) as [[[q|error]|error] r' tr'];
      cbn [this trace completion snd after_startRecording]; lasting.
  - cbn [snd]. revert Hc. apply heap_closed_outlives. lasting.
Qed.

Lemma heap_closed_step (s : ScreencastService) (turn : Env * Event) :
  heap_closed s -> heap_closed (step s turn).
Proof.
  intros Hc.
  destruct turn as [env [[template options] invocation
                        | [[[[[x y] width] height] template] options] invocation
                        | invocation | ref sig]]; cbn [step].
  - unfold ScreencastAsync.
    destruct (disable_save_to_disk env); [exact Hc|].
    case_decide; [exact Hc|].
    destruct (CreateSessionSync env) as [error|sessionPath]; [exact Hc|].
    destruct (ScreenSize env) as [[w h]|]; [|exact Hc].
    destruct (_generateFilePath env template) as [filePath logged].
    apply heap_closed_record_into. exact Hc.
  - unfold ScreencastAreaAsync.
    destruct (disable_save_to_disk env); [exact Hc|].
    case_decide; [exact Hc|].
    destruct (CreateSessionSync env) as [error|sessionPath]; [exact Hc|].
    destruct (_generateFilePath env template) as [filePath logged].
    apply heap_closed_record_into. exact Hc.
  - revert Hc. apply heap_closed_outlives, outlives_StopScreencastAsync.
  - revert Hc. apply heap_closed_outlives, outlives_deliver.
Qed.

Lemma heap_closed_run (turns : list (Env * Event)) (s : ScreencastService) :
  heap_closed s -> heap_closed (fold_left step turns s).
Proof.
  revert s. induction turns as [|turn turns IH]; intros s Hc; [exact Hc|].
  cbn [fold_left]. apply IH, heap_closed_step, Hc.
Qed.

(** X9.  Unlike the two methods that start a recording, the method that
    stops one never ends with an exception: after any sequence of calls and
    signals, from the constructor on, [StopScreencastAsync] either returns
    having replied once ([false] without a recorder for the caller, [true]
    with one) or waits for the stop promise having replied nothing yet. *)
Theorem StopScreencast_always_completes (turns : list (Env * Event))
    (invocation : Invocation) :
  let s := fold_left step turns ScreencastService_constructor in
  let result := (StopScreencastAsync invocation s).1 in
  let s' := (StopScreencastAsync invocation s).2 in
  (result = Returned
   ∧ ∃ tr flag, journal s' = (journal s ++ tr)%list ∧ replies invocation tr = [V_b flag]
                ∧ flag = bool_decide (is_Some (_recorders s !! get_sender invocation)))
  ∨ (∃ q, result = Suspended q
          ∧ awaiting s' !! promise q = Some (AwaitStop (get_sender invocation) invocation)
          ∧ ∃ tr, journal s' = (journal s ++ tr)%list ∧ replies invocation tr = []).
Proof.
  cbv zeta. set (s := fold_left step turns ScreencastService_constructor).
  assert (Hc : heap_closed s).
  { apply heap_closed_run. intros sender ref Hl. cbn in Hl.
    rewrite lookup_empty in Hl. discriminate Hl. }
  clearbody s. unfold StopScreencastAsync.
  destruct (_recorders s !! get_sender invocation) as [ref|] eqn:Hl.
  - destruct (Hc _ _ Hl) as [recorder Hh]. rewrite Hh.
    unfold allocate. cbn [fst snd].
    destruct (stopRecording_cases {| promise := allocated s |} recorder)
      as [(error & Hcompl & Ht) | (p & Hcompl & Ht)];
      rewrite Hcompl, Ht; cbn [fst snd].
    + left. split; [reflexivity|].
      match goal with
      | |- context [after_stopRecording ?a ?b ?c ?d] =>
          destruct (after_stopRecording_replies_true a b c d) as [(tr & Hj & Hr) Hn]
      end.
      exists tr, true. split; [|split; [exact Hr|]].
      * rewrite Hj. cbn [journal record set_heap]. by rewrite app_nil_r.
      * symmetry. apply bool_decide_eq_true. by eexists.
    + right. eexists. split; [reflexivity|].
      cbn [awaiting set_awaiting promise]. split; [apply lookup_insert_eq|].
      eexists. split; reflexivity.
  - left. cbn [fst snd]. split; [reflexivity|].
    exists [ReturnValue invocation (V_b false)], false.
    split; [reflexivity|]. split; [apply replies_ReturnValue|].
    symmetry. apply bool_decide_eq_false. by intros [? ?].
Qed.

(** ** From a signal to the reply *)

Lemma removeRecorder_present (sender : string) (ref : nat) (s : ScreencastService) :
  _recorders s !! sender = Some ref ->
  _recorders (_removeRecorder sender s) = delete sender (_recorders s)
  ∧ _holdCount (_removeRecorder sender s)
    = _holdCount s - (if decide (size (_recorders s) = 1%nat) then 1 else 0)
  ∧ heap (_removeRecorder sender s) = heap s
  ∧ awaiting (_removeRecorder sender s) = awaiting s
  ∧ allocated (_removeRecorder sender s) = allocated s.
Proof.
  intros Hl. unfold _removeRecorder. rewrite Hl. cbn [_recorders set_recorders].
  assert (Hsz : size (delete sender (_recorders s)) = pred (size (_recorders s)))
    by (apply map_size_delete_Some; by eexists).
  assert (Hne : size (_recorders s) ≠ 0%nat).
  { apply map_size_non_empty_iff. intros He. rewrite He, lookup_empty in Hl. discriminate. }
  case_decide as H0; case_decide as H1; unfold release;
    cbn [_recorders _holdCount heap awaiting allocated set_holdCount set_recorders];
    repeat split; lia.
Qed.

Lemma removeRecorder_absent (sender : string) (s : ScreencastService) :
  _recorders s !! sender = None -> _removeRecorder sender s = s.
Proof. intros Hl. unfold _removeRecorder. by rewrite Hl. Qed.

(** X10.  The call that started a recording is answered when the
    pipeline reports PLAYING: delivered to a recorder in INIT whose start is
    pending and awaited by the call, the message resolves the promise and
    the call replies [true] with the file path, once; the registry and the
    keep-alive count are not touched. *)
Theorem PLAYING_answers_the_start_call (env : Env) (ref : nat) (src : Gst.Element)
    (r : Recorder) (q : Request) (sender filePath : string) (invocation : Invocation)
    (s : ScreencastService) :
  heap s !! ref = Some r ->
  _pipelineState r = PipelineState.INIT ->
  _pipeline r = Some src ->
  _startRequest r = Some q ->
  awaiting s !! promise q = Some (AwaitStart sender filePath invocation) ->
  let s' := deliver env ref (BusMessage (Gst.STATE_CHANGED src Gst.PLAYING)) s in
  journal s' = (journal s ++ [Resolve q; ReturnValue invocation (V_bs true filePath)])%list
  ∧ heap s' = <[ref := set_startRequest None (set_pipelineState PipelineState.PLAYING r)]>
                (heap s)
  ∧ awaiting s' = delete (promise q) (awaiting s)
  ∧ _recorders s' = _recorders s
  ∧ _holdCount s' = _holdCount s.
Proof.
  intros Hh Hps Hpl Hq Ha. cbv zeta. unfold deliver. rewrite Hh. unfold handler.
  assert (E : _onBusMessage env (Gst.STATE_CHANGED src Gst.PLAYING) r
              = mkRun (Normal true)
                  (set_startRequest None (set_pipelineState PipelineState.PLAYING r))
                  [Resolve q]).
  { unfold _onBusMessage. step_M. rewrite decide_True by done. rewrite Hq. reflexivity. }
  rewrite bind_run, E. cbn [completion this trace]. rewrite ret_run.
  cbn [completion this trace app fold_left run_callback run_settlement].
  unfold settle. cbn [awaiting record set_heap]. rewrite Ha.
  cbn [resume after_startRecording]. unfold return_value.
  cbn [journal heap awaiting _recorders _holdCount record set_awaiting set_heap].
  rewrite <- app_assoc. done.
Qed.

Lemma PLAYING_answers_the_start_call_witness :
  replies sample_invocation
    (journal (deliver sample_env 0 (BusMessage (Gst.STATE_CHANGED 7%nat Gst.PLAYING))
                (fold_left step (take 2 sample_session) ScreencastService_constructor)))
  = [V_bs true "/home/user/Videos/cap-2024-03-09.webm"].
Proof.
  set (s := fold_left step (take 2 sample_session) ScreencastService_constructor).
  set (r := default recording (heap s !! 0%nat)).
  assert (Hh : heap s !! 0%nat = Some r) by (vm_compute; reflexivity).
  destruct (PLAYING_answers_the_start_call sample_env 0 7%nat r {| promise := 1 |}
              ":1.42" "/home/user/Videos/cap-2024-03-09.webm" sample_invocation s Hh)
    as (Hj & _);
    [vm_compute; reflexivity | vm_compute; reflexivity | vm_compute; reflexivity
    | vm_compute; reflexivity |].
  rewrite Hj. vm_compute. reflexivity.
Defined.

Lemma handler_bails (env : Env) (sig : Signal) (r : Recorder) :
  sig = NameVanished
  ∨ (sig = Closed ∧ _sessionState r ≠ SessionState.STOPPED)
  ∨ (∃ text, sig = BusMessage (Gst.ERROR text)
             ∧ ¬ (_pipelineState r = PipelineState.STOPPED
                  ∨ _pipelineState r = PipelineState.ERROR)) ->
  ∃ error r0,
    handler env sig r = bailed_out env error r0
    ∧ _onErrorCallback r0 = _onErrorCallback r
    ∧ _startRequest r0 = _startRequest r
    ∧ _stopRequest r0 = _stopRequest r
    ∧ _sessionState r0
      = (if sig is Closed then SessionState.STOPPED else _sessionState r).
Proof.
  intros [-> | [[-> Hss] | (text & -> & Hps)]]; unfold handler.
  - exists (new_Error "Sender has vanished"), r. split; [apply bailOut_closed|done].
  - exists (new_Error "Session closed unexpectedly"),
      (set_sessionState SessionState.STOPPED r).
    split; [|done]. pose proof (path_closed env SessionClosed r) as E.
    unfold unified_error_path in E. rewrite E. by rewrite decide_False.
  - set (msg := "GStreamer error while in state "
                  +:+ PipelineState.to_string (_pipelineState r) +:+ ": " +:+ text).
    exists (new_Error ("Fatal pipeline error: " +:+ msg)),
      (set_pipelineState PipelineState.ERROR r).
    split; [|done].
    assert (E : _onBusMessage env (Gst.ERROR text) r
                = (_handleFatalPipelineError env msg;; mret true) r).
    { unfold _onBusMessage. subst msg. step_M.
      destruct (_pipelineState r); try reflexivity; exfalso; apply Hps; auto. }
    rewrite bind_run, E.
    destruct (then_ret (_handleFatalPipelineError env msg) true r) as (-> & -> & ->).
    rewrite <- fatal_closed.
    destruct (_handleFatalPipelineError env msg r) as [[[]|e] r' tr];
      cbn [completion this trace]; [|reflexivity].
    rewrite ret_run. cbn [completion this trace]. by rewrite app_nil_r.
Qed.

Lemma callbacks_release_trace (env : Env) (r : Recorder) (s : ScreencastService) :
  fold_left run_callback (release_trace env r) s = s.
Proof.
  unfold release_trace. rewrite !fold_left_app.
  destruct (_pipeline r); repeat case_decide; reflexivity.
Qed.

Lemma settlements_release_trace (env : Env) (r : Recorder) (s : ScreencastService) :
  fold_left run_settlement (release_trace env r) s = s.
Proof.
  unfold release_trace. rewrite !fold_left_app.
  destruct (_pipeline r); repeat case_decide; reflexivity.
Qed.

Lemma replies_release_trace (env : Env) (r : Recorder) (i : Invocation) :
  replies i (release_trace env r) = [].
Proof.
  unfold release_trace. rewrite !replies_app.
  destruct (_pipeline r); repeat case_decide; reflexivity.
Qed.

(** X11.  A recording that fails while its start is still pending is
    reported to the caller.  When the sender vanishes, the session is closed
    under the recorder or GStreamer reports an error, and the handler runs
    to its end, the call that started the recording replies [false] with an
    empty path, once; the sender leaves the registry through the callback
    (the second removal, in the method's catch block, finds nothing, so the
    keep-alive count goes down once, and only if this was the last
    recorder); and the recorder that stays behind holds no resource. *)
Theorem failure_while_starting_is_answered (env : Env) (ref : nat) (sig : Signal)
    (r : Recorder) (q : Request) (sender filePath : string) (invocation : Invocation)
    (s : ScreencastService) :
  heap s !! ref = Some r ->
  _recorders s !! sender = Some ref ->
  _onErrorCallback r = Some (RemoveRecorder sender) ->
  _startRequest r = Some q ->
  _stopRequest r = None ->
  awaiting s !! promise q = Some (AwaitStart sender filePath invocation) ->
  sig = NameVanished
  ∨ (sig = Closed ∧ _sessionState r ≠ SessionState.STOPPED)
  ∨ (∃ text, sig = BusMessage (Gst.ERROR text)
             ∧ ¬ (_pipelineState r = PipelineState.STOPPED
                  ∨ _pipelineState r = PipelineState.ERROR)) ->
  completion (handler env sig r) = Normal tt ->
  let s' := deliver env ref sig s in
  (∃ tr, journal s' = (journal s ++ tr)%list ∧ replies invocation tr = [V_bs false ""])
  ∧ _recorders s' = delete sender (_recorders s)
  ∧ _holdCount s'
    = _holdCount s - (if decide (size (_recorders s) = 1%nat) then 1 else 0)
  ∧ awaiting s' = delete (promise q) (awaiting s)
  ∧ ∃ r', heap s' !! ref = Some r' ∧ spent r'.
Proof.
  intros Hh Hl Hcb Hsq Htq Ha Hsig Hc. cbv zeta.
  destruct (handler_bails env sig r Hsig) as (error & r0 & E & Hcb0 & Hsq0 & Htq0 & _).
  rewrite E in Hc. apply bailed_out_normal in Hc. rewrite Hc in E. clear Hc.
  unfold rejections in E. rewrite Hcb0, Hsq0, Htq0, Hcb, Hsq, Htq in E. cbn [app] in E.
  unfold deliver. rewrite Hh, E. cbn [completion this trace]. clear E.
  set (s1 := record _ (set_heap _ s)).
  assert (Hl1 : _recorders s1 !! sender = Some ref) by exact Hl.
  rewrite !fold_left_app, callbacks_release_trace, settlements_release_trace.
  cbn [fold_left run_callback run_settlement].
  destruct (removeRecorder_present sender ref s1 Hl1) as (R1 & R2 & R3 & R4 & R5).
  pose proof (journal_removeRecorder sender s1) as R6.
  remember (_removeRecorder sender s1) as s2 eqn:Es2. clear Es2.
  unfold settle. rewrite R4. subst s1. cbn [awaiting record set_heap]. rewrite Ha.
  cbn [resume after_startRecording].
  rewrite removeRecorder_absent
    by (cbn [_recorders record set_awaiting]; rewrite R1; apply lookup_delete_eq).
  unfold return_value.
  cbn [journal heap awaiting _recorders _holdCount record set_awaiting].
  rewrite ?R1, ?R2, ?R3, ?R4, ?R6.
  cbn [journal heap awaiting _recorders _holdCount record set_heap].
  split; [|split; [reflexivity|split; [reflexivity|split; [reflexivity|]]]].
  - eexists. rewrite <- !app_assoc. split; [reflexivity|].
    rewrite !replies_app, replies_release_trace. cbn [app].
    rewrite replies_ReturnValue. reflexivity.
  - eexists. split; [apply lookup_insert_eq | apply spent_cleared_released].
Qed.

Lemma failure_while_starting_is_answered_witness :
  completion (handler sample_env Closed
                (default recording (heap starting_service !! 0%nat))) = Normal tt
  ∧ _recorders (deliver sample_env 0 Closed starting_service) = ∅
  ∧ _holdCount (deliver sample_env 0 Closed starting_service) = 0.
Proof.
  set (r := default recording (heap starting_service !! 0%nat)).
  assert (Hc : completion (handler sample_env Closed r) = Normal tt)
    by (vm_compute; reflexivity).
  destruct (failure_while_starting_is_answered sample_env 0 Closed r {| promise := 1 |}
              ":1.42" "/home/user/Videos/cap-2024-03-09.webm" sample_invocation
              starting_service)
    as (_ & H1 & H2 & _);
    [vm_compute; reflexivity | vm_compute; reflexivity | vm_compute; reflexivity
    | vm_compute; reflexivity | vm_compute; reflexivity | vm_compute; reflexivity
    | right; left; split; [reflexivity | intros H; vm_compute in H; discriminate H]
    | exact Hc |].
  split; [exact Hc|]. rewrite H1, H2. split; vm_compute; reflexivity.
Defined.

(** ** Stopping before the recording has started *)

Lemma stopRecording_refused (q q0 : Request) (r : Recorder) :
  _startRequest r = Some q0 ->
  stopRecording q r
  = mkRun (Normal (Rejected (new_Error "Unable to stop recorder while still starting")))
      r [].
Proof.
  intros Hq. unfold stopRecording. rewrite this_then.
  rewrite decide_True by (rewrite Hq; by eexists). reflexivity.
Qed.

(** X12.  A stop call that arrives while the recording is still starting
    replies [true] and drops the caller from the registry, but does not
    touch the recorder: the object stays as it was, pipeline, session and
    name watch included, and the call that started it goes on waiting. *)
Theorem stop_while_starting_forgets_the_recorder (invocation : Invocation) (ref : nat)
    (r : Recorder) (q0 : Request) (s : ScreencastService) :
  _recorders s !! get_sender invocation = Some ref ->
  heap s !! ref = Some r ->
  _startRequest r = Some q0 ->
  let sender := get_sender invocation in
  let s' := (StopScreencastAsync invocation s).2 in
  (StopScreencastAsync invocation s).1 = Returned
  ∧ journal s'
    = (journal s
       ++ [Log (sender +:+ ": Error while stopping recorder: "
                  +:+ "Unable to stop recorder while still starting");
           ReturnValue invocation (V_b true)])%list
  ∧ _recorders s' = delete sender (_recorders s)
  ∧ heap s' = heap s
  ∧ awaiting s' = awaiting s.
Proof.
  intros Hl Hh Hq. cbv zeta. unfold StopScreencastAsync. rewrite Hl, Hh.
  unfold allocate. cbn [fst snd]. rewrite (stopRecording_refused _ q0 r Hq).
  cbn [completion this trace fst snd]. split; [reflexivity|].
  unfold after_stopRecording, return_value.
  set (s1 := record [Log _] _).
  assert (Hl1 : _recorders s1 !! get_sender invocation = Some ref) by exact Hl.
  destruct (removeRecorder_present _ ref s1 Hl1) as (R1 & R2 & R3 & R4 & R5).
  pose proof (journal_removeRecorder (get_sender invocation) s1) as R6.
  cbn [journal heap awaiting _recorders record].
  rewrite ?R1, ?R3, ?R4, ?R6. subst s1.
  cbn [journal heap awaiting _recorders record set_heap].
  rewrite app_nil_r, <- app_assoc, (insert_id _ _ _ Hh).
  repeat split; auto.
Qed.

Lemma stop_while_starting_forgets_the_recorder_witness :
  (StopScreencastAsync stop_invocation starting_service).1 = Returned
  ∧ _recorders (StopScreencastAsync stop_invocation starting_service).2 = ∅
  ∧ heap (StopScreencastAsync stop_invocation starting_service).2 = heap starting_service.
Proof.
  set (r := default recording (heap starting_service !! 0%nat)).
  destruct (stop_while_starting_forgets_the_recorder stop_invocation 0 r
              {| promise := 1 |} starting_service)
    as (H1 & _ & H3 & H4 & _);
    [vm_compute; reflexivity | vm_compute; reflexivity | vm_compute; reflexivity |].
  split; [exact H1|]. split; [rewrite H3; vm_compute; reflexivity | exact H4].
Defined.

(** ** One recording for each sender *)

Lemma record_into_registers (env : Env) (sessionPath : string) (x y width height : Z)
    (filePath : string) (options : Options) (invocation : Invocation)
    (s : ScreencastService) (q : Request) :
  (record_into env sessionPath x y width height filePath options invocation s).1
  = Suspended q ->
  is_Some (_recorders (record_into env sessionPath x y width height filePath options
                         invocation s).2 !! get_sender invocation).
Proof.
  unfold record_into.
  destruct (Recorder_constructor _ _ _ _ _ _ _ _ _ _) as [[recorder|error] tr];
    [|discriminate].
  unfold allocate. cbn [fst snd allocated].
  set (s4 := _addRecorder _ _ _).
  assert (H4 : is_Some (_recorders s4 !! get_sender invocation)).
  { subst s4. rewrite recorders_addRecorder, lookup_insert_eq. by eexists. }
  clearbody s4.
  destruct (startRecording env _ recorder) as [[[q'|error]|error] r' tr'];
    cbn [this trace completion fst snd]; try discriminate.
  intros _. exact H4.
Qed.

Lemma ScreencastAsync_registers (env : Env) (params : string * Options)
    (invocation : Invocation) (s : ScreencastService) (q : Request) :
  (ScreencastAsync env params invocation s).1 = Suspended q ->
  is_Some (_recorders (ScreencastAsync env params invocation s).2 !! get_sender invocation).
Proof.
  unfold ScreencastAsync.
  destruct (disable_save_to_disk env); [discriminate|].
  case_decide; [discriminate|].
  destruct (CreateSessionSync env) as [error|sessionPath]; [discriminate|].
  destruct params as [template options].
  destruct (ScreenSize env) as [[w h]|]; [|discriminate].
  destruct (_generateFilePath env template) as [filePath logged].
  apply record_into_registers.
Qed.

Lemma ScreencastAreaAsync_registers (env : Env) (params : Z * Z * Z * Z * string * Options)
    (invocation : Invocation) (s : ScreencastService) (q : Request) :
  (ScreencastAreaAsync env params invocation s).1 = Suspended q ->
  is_Some (_recorders (ScreencastAreaAsync env params invocation s).2
             !! get_sender invocation).
Proof.
  unfold ScreencastAreaAsync.
  destruct (disable_save_to_disk env); [discriminate|].
  case_decide; [discriminate|].
  destruct (CreateSessionSync env) as [error|sessionPath]; [discriminate|].
  destruct params as [[[[[x y] width] height] template] options].
  destruct (_generateFilePath env template) as [filePath logged].
  apply record_into_registers.
Qed.

Lemma registered_is_refused (env : Env) (invocation : Invocation) (s : ScreencastService) :
  is_Some (_recorders s !! get_sender invocation) ->
  (∀ params, ScreencastAsync env params invocation s
             = (Returned, return_value invocation (V_bs false "") s))
  ∧ (∀ params, ScreencastAreaAsync env params invocation s
               = (Returned, return_value invocation (V_bs false "") s)).
Proof.
  intros Hl. split; intros params.
  - unfold ScreencastAsync. destruct (disable_save_to_disk env); [reflexivity|].
    by rewrite decide_True.
  - unfold ScreencastAreaAsync. destruct (disable_save_to_disk env); [reflexivity|].
    by rewrite decide_True.
Qed.

(** X13.  One recording for each registered sender.  A start call that
    waits has put its sender into the registry, and a start call of either
    method from a sender that is in the registry, whatever its parameters
    and whatever the collaborators would answer, replies [false] with an
    empty path and changes nothing else: no session is created, no
    directory is made and no recorder is touched.  So the call that follows
    a waiting start call of the same sender is refused, and so is every
    later one for as long as the sender stays in the registry. *)
Theorem one_recording_per_sender (env : Env) (invocation : Invocation)
    (s : ScreencastService) :
  let answer := V_bs false "" in
  (∀ params q, (ScreencastAsync env params invocation s).1 = Suspended q ->
     is_Some (_recorders (ScreencastAsync env params invocation s).2
                !! get_sender invocation))
  ∧ (∀ params q, (ScreencastAreaAsync env params invocation s).1 = Suspended q ->
       is_Some (_recorders (ScreencastAreaAsync env params invocation s).2
                  !! get_sender invocation))
  ∧ (is_Some (_recorders s !! get_sender invocation) ->
       (∀ params, ScreencastAsync env params invocation s
                  = (Returned, return_value invocation answer s))
       ∧ (∀ params, ScreencastAreaAsync env params invocation s
                    = (Returned, return_value invocation answer s)))
  ∧ (∀ params q (env' : Env) (invocation' : Invocation),
       (ScreencastAsync env params invocation s).1 = Suspended q ->
       get_sender invocation' = get_sender invocation ->
       let s1 := (ScreencastAsync env params invocation s).2 in
       (∀ params', ScreencastAsync env' params' invocation' s1
                   = (Returned, return_value invocation' answer s1))
       ∧ (∀ params', ScreencastAreaAsync env' params' invocation' s1
                     = (Returned, return_value invocation' answer s1)))
  ∧ (∀ params q (env' : Env) (invocation' : Invocation),
       (ScreencastAreaAsync env params invocation s).1 = Suspended q ->
       get_sender invocation' = get_sender invocation ->
       let s1 := (ScreencastAreaAsync env params invocation s).2 in
       (∀ params', ScreencastAsync env' params' invocation' s1
                   = (Returned, return_value invocation' answer s1))
       ∧ (∀ params', ScreencastAreaAsync env' params' invocation' s1
                     = (Returned, return_value invocation' answer s1))).
Proof.
  cbv zeta. split; [|split; [|split; [|split]]].
  - intros params q. apply ScreencastAsync_registers.
  - intros params q. apply ScreencastAreaAsync_registers.
  - apply registered_is_refused.
  - intros params q env' invocation' Hq Hs.
    apply registered_is_refused. rewrite Hs.
    exact (ScreencastAsync_registers _ _ _ _ _ Hq).
  - intros params q env' invocation' Hq Hs.
    apply registered_is_refused. rewrite Hs.
    exact (ScreencastAreaAsync_registers _ _ _ _ _ Hq).
Qed.

Lemma one_recording_per_sender_witness :
  (ScreencastAsync sample_env ("cap-%d.webm", no_options) sample_invocation
     ScreencastService_constructor).1 = Suspended {| promise := 1 |}
  ∧ ScreencastAreaAsync env_CreateSession_fails (0, 0, 640, 480, "again.webm", no_options)
      stop_invocation starting_service
    = (Returned, return_value stop_invocation (V_bs false "") starting_service).
Proof.
  assert (Hq : (ScreencastAsync sample_env ("cap-%d.webm", no_options) sample_invocation
                  ScreencastService_constructor).1 = Suspended {| promise := 1 |})
    by (vm_compute; reflexivity).
  split; [exact Hq|].
  destruct (one_recording_per_sender sample_env sample_invocation
              ScreencastService_constructor) as (_ & _ & _ & H & _).
  destruct (H _ _ env_CreateSession_fails stop_invocation Hq eq_refl) as [_ Harea].
  exact (Harea _).
Defined.

(** ** The reply to a start call *)

Lemma record_into_settles (env : Env) (sessionPath : string) (x y width height : Z)
    (filePath : string) (options : Options) (invocation : Invocation)
    (s : ScreencastService) :
  let result := (record_into env sessionPath x y width height filePath options
                   invocation s).1 in
  let s' := (record_into env sessionPath x y width height filePath options
               invocation s).2 in
  (result = Returned
   ∧ ∃ tr, journal s' = (journal s ++ tr)%list
           ∧ replies invocation tr = [V_bs false ""])
  ∨ (∃ q, result = Suspended q
          ∧ (∃ tr, journal s' = (journal s ++ tr)%list ∧ replies invocation tr = [])
          ∧ ∀ settled,
              ∃ tr, journal (settle q settled s') = (journal s' ++ tr)%list
                    ∧ replies invocation tr
                      = [if settled is Some _ then V_bs false "" else V_bs true filePath]).
Proof.
  cbv zeta.
  destruct (record_into_answers env sessionPath x y width height filePath options
              invocation s) as [H | (q & Hr & Ha & Hj)]; [left; exact H|].
  right. exists q. split; [exact Hr|]. split; [exact Hj|].
  intros settled. unfold settle. rewrite Ha. cbn [resume].
  match goal with
  | |- context [after_startRecording ?a ?b ?c ?d ?e] =>
      destruct (after_startRecording_replies_once a b c d e) as (tr' & Hj' & Hr')
  end.
  exists tr'. split; [exact Hj' | exact Hr'].
Qed.

(** X14.  Unless [CreateSessionSync] throws, [ScreencastAreaAsync] is
    answered exactly once, and so is [ScreencastAsync] when the screen size
    is there to be read.  Either the method returns having replied [false]
    with an empty path, or it waits having replied nothing, and then replies
    once when the start promise settles: [true] with the path that
    [_generateFilePath] made of the template when the promise is resolved,
    [false] with an empty path when it is rejected.  When the screen size
    is null, a [ScreencastAsync] call that got past the two refusals ends
    with an exception instead: it replies nothing and leaves the service as
    it was. *)
Theorem start_call_is_answered_once (env : Env) (invocation : Invocation)
    (s : ScreencastService) :
  (∀ error, CreateSessionSync env ≠ inl error) ->
  let answered := fun (template : string) (result : AsyncResult * ScreencastService) =>
    (result.1 = Returned
     ∧ ∃ tr, journal result.2 = (journal s ++ tr)%list
             ∧ replies invocation tr = [V_bs false ""])
    ∨ (∃ q, result.1 = Suspended q
            ∧ (∃ tr, journal result.2 = (journal s ++ tr)%list
                     ∧ replies invocation tr = [])
            ∧ ∀ settled,
                ∃ tr, journal (settle q settled result.2) = (journal result.2 ++ tr)%list
                      ∧ replies invocation tr
                        = [if settled is Some _ then V_bs false ""
                           else V_bs true (_generateFilePath env template).1]) in
  (is_Some (ScreenSize env) ->
   ∀ template options,
     answered template (ScreencastAsync env (template, options) invocation s))
  ∧ (∀ x y width height template options,
       answered template
         (ScreencastAreaAsync env (x, y, width, height, template, options) invocation s))
  ∧ (ScreenSize env = None ->
     disable_save_to_disk env = false ->
     _recorders s !! get_sender invocation = None ->
     ∀ params, ∃ e, ScreencastAsync env params invocation s = (Uncaught e, s)).
Proof.
  intros Hcs. cbv zeta.
  assert (Hrefuse : ∀ result : AsyncResult * ScreencastService,
            result = (Returned, return_value invocation (V_bs false "") s) ->
            result.1 = Returned
            ∧ ∃ tr, journal result.2 = (journal s ++ tr)%list
                    ∧ replies invocation tr = [V_bs false ""]).
  { intros result ->. split; [reflexivity|]. eexists. split; [reflexivity|].
    apply replies_ReturnValue. }
  assert (Hgo : ∀ sessionPath x y width height template options,
            let result := record_into env sessionPath x y width height
                            (_getAbsolutePath env (expanded_filename env template))
                            options invocation
                            (record (warnings (scan_template env template)) s) in
            (result.1 = Returned
             ∧ ∃ tr, journal result.2 = (journal s ++ tr)%list
                     ∧ replies invocation tr = [V_bs false ""])
            ∨ (∃ q, result.1 = Suspended q
                    ∧ (∃ tr, journal result.2 = (journal s ++ tr)%list
                             ∧ replies invocation tr = [])
                    ∧ ∀ settled,
                        ∃ tr, journal (settle q settled result.2)
                              = (journal result.2 ++ tr)%list
                              ∧ replies invocation tr
                                = [if settled is Some _ then V_bs false ""
                                   else V_bs true (_generateFilePath env template).1])).
  { intros sessionPath x y width height template options. cbv zeta.
    pose proof (warnings_silent env (spread template)
      {| filename := ""; escape := false; readings := 0%nat; warnings := [] |} invocation)
      as Hw.
    fold (scan_template env template) in Hw. cbn [warnings] in Hw.
    destruct (record_into_settles env sessionPath x y width height
                (_getAbsolutePath env (expanded_filename env template)) options invocation
                (record (warnings (scan_template env template)) s))
      as [(Hr & tr & Hj & Hrep) | (q & Hr & (tr & Hj & Hrep) & Hset)].
    - left. split; [exact Hr|]. eexists. rewrite Hj. cbn [journal record].
      rewrite <- app_assoc. split; [reflexivity|]. by rewrite replies_app, Hw, Hrep.
    - right. exists q. split; [exact Hr|]. split; [|exact Hset].
      eexists. rewrite Hj. cbn [journal record].
      rewrite <- app_assoc. split; [reflexivity|]. by rewrite replies_app, Hw, Hrep. }
  split; [|split].
  - intros [[w h] Hsz] template options. unfold ScreencastAsync.
    destruct (disable_save_to_disk env); [left; by apply Hrefuse|].
    case_decide; [left; by apply Hrefuse|].
    destruct (CreateSessionSync env) as [error|sessionPath]; [by destruct (Hcs error)|].
    rewrite Hsz. unfold _generateFilePath. apply Hgo.
  - intros x y width height template options. unfold ScreencastAreaAsync.
    destruct (disable_save_to_disk env); [left; by apply Hrefuse|].
    case_decide; [left; by apply Hrefuse|].
    destruct (CreateSessionSync env) as [error|sessionPath]; [by destruct (Hcs error)|].
    unfold _generateFilePath. apply Hgo.
  - intros Hsz Hlock Hl [template options]. unfold ScreencastAsync.
    rewrite Hlock, Hsz. rewrite decide_False by (rewrite Hl; by intros [? ?]).
    destruct (CreateSessionSync env) as [error|sessionPath]; [by destruct (Hcs error)|].
    by eexists.
Qed.

Lemma start_call_is_answered_once_witness :
  (∀ error, CreateSessionSync sample_env ≠ inl error)
  ∧ is_Some (ScreenSize sample_env)
  ∧ (ScreencastAsync sample_env ("cap-%d.webm", no_options) sample_invocation
       ScreencastService_constructor).1 = Suspended {| promise := 1 |}
  ∧ ∃ tr, journal (settle {| promise := 1 |} None starting_service)
          = (journal starting_service ++ tr)%list
          ∧ replies sample_invocation tr = [V_bs true "/home/user/Videos/cap-2024-03-09.webm"].
Proof.
  assert (Hcs : ∀ error, CreateSessionSync sample_env ≠ inl error)
    by (intros error H; discriminate H).
  assert (Hsz : is_Some (ScreenSize sample_env)) by (by eexists).
  assert (Hq : (ScreencastAsync sample_env ("cap-%d.webm", no_options) sample_invocation
                  ScreencastService_constructor).1 = Suspended {| promise := 1 |})
    by (vm_compute; reflexivity).
  split; [exact Hcs|]. split; [exact Hsz|]. split; [exact Hq|].
  destruct (start_call_is_answered_once sample_env sample_invocation
              ScreencastService_constructor Hcs) as [H _].
  destruct (H Hsz "cap-%d.webm" no_options) as [[Hr _] | (q & Hr & _ & Hset)].
  - rewrite Hq in Hr. discriminate Hr.
  - rewrite Hq in Hr. injection Hr as <-.
    destruct (Hset None) as (tr & Hj & Hrep). exists tr. split; [exact Hj|].
    rewrite Hrep. vm_compute. reflexivity.
Defined.

(** ** Stopping a recording *)

Lemma stopRecording_accepted (q : Request) (r : Recorder) :
  _startRequest r = None ->
  stopRecording q r
  = mkRun
      (match _pipeline r with
       | Some _ => Normal (Pending q)
       | None => Normal (Rejected (new_Error "TypeError: this._pipeline is null"))
       end)
      (set_pipelineState PipelineState.FLUSHING (set_stopRequest (Some q) r))
      (match _pipeline r with Some p => [PipelineSendEos p] | None => [] end).
Proof.
  intros Hq. unfold stopRecording. rewrite this_then.
  rewrite decide_False by (rewrite Hq; by intros [? ?]).
  step_M. cbn [_pipeline set_pipelineState set_stopRequest].
  destruct (_pipeline r); reflexivity.
Qed.

(** X15.  With no start pending, [stopRecording] always stores the new
    stop outcome and moves the recorder to FLUSHING, whatever state it was
    in and whether or not a stop was pending already: an earlier pending
    stop outcome is overwritten, and the end of stream that follows settles
    the new one only.  With a pipeline the promise stays pending and the
    end-of-stream event is sent; without one the promise is rejected, and
    the recorder is still left in FLUSHING with the outcome stored. *)
Theorem stopRecording_outcome (q : Request) (r : Recorder) :
  _startRequest r = None ->
  let x := stopRecording q r in
  this x = set_pipelineState PipelineState.FLUSHING (set_stopRequest (Some q) r)
  ∧ (∀ p, _pipeline r = Some p ->
          completion x = Normal (Pending q) ∧ trace x = [PipelineSendEos p])
  ∧ (_pipeline r = None ->
       completion x = Normal (Rejected (new_Error "TypeError: this._pipeline is null"))
       ∧ trace x = [])
  ∧ (∀ env, let y := _onBusMessage env Gst.EOS (this x) in
            (completion y = Normal true
             ∧ settlements_of (trace y) = [(q, None)]
             ∧ _stopRequest (this y) = None)
            ∨ (∃ e, StopSync env = Some e
                    ∧ completion y = Throws e
                    ∧ settlements_of (trace y) = []
                    ∧ _stopRequest (this y) = Some q)).
Proof.
  intros Hq. cbv zeta. rewrite (stopRecording_accepted q r Hq). cbn [this completion trace].
  split; [reflexivity|]. split; [by intros p ->|]. split; [by intros ->|].
  intros env. rewrite EOS_flushing_closed by reflexivity.
  cbn [_sessionState _stopRequest set_pipelineState set_stopRequest].
  destruct (release_trace_silent env
              (set_pipelineState PipelineState.FLUSHING (set_stopRequest (Some q) r)))
    as [Hsil _].
  case_decide; [destruct (StopSync env) as [e|]|]; cbn [completion this trace].
  - right. exists e. split; [reflexivity|]. split; [reflexivity|]. split; [|reflexivity].
    rewrite settlements_AddRecentItem. exact Hsil.
  - left. split; [reflexivity|]. split; [|reflexivity].
    rewrite settlements_AddRecentItem, settlements_app, Hsil. reflexivity.
  - left. split; [reflexivity|]. split; [|reflexivity].
    rewrite settlements_AddRecentItem, settlements_app, Hsil. reflexivity.
Qed.

Lemma stopRecording_outcome_witness :
  _startRequest stopping = None
  ∧ _stopRequest stopping = Some {| promise := 2 |}
  ∧ _stopRequest (this (stopRecording {| promise := 9 |} stopping))
    = Some {| promise := 9 |}
  ∧ completion (stopRecording {| promise := 9 |} stopping)
    = Normal (Pending {| promise := 9 |}).
Proof.
  destruct (stopRecording_outcome {| promise := 9 |} stopping eq_refl) as (H1 & H2 & _).
  destruct (H2 7%nat eq_refl) as [H3 _].
  split; [reflexivity|]. split; [reflexivity|]. split; [rewrite H1; reflexivity | exact H3].
Defined.

Lemma replies_AddRecentItem (i : Invocation) (filePath : string) (tr : list Effect) :
  replies i (AddRecentItem filePath :: tr) = replies i tr.
Proof. reflexivity. Qed.

(** X16.  A second stop call from a sender whose first stop call is still
    waiting takes the recording over: it stores its own outcome in place of
    the first one, so the end of stream answers the second call [true] and
    drops the sender, while the first call gets no reply and goes on
    waiting for a promise that the recorder no longer knows. *)
Theorem second_stop_orphans_the_first (env : Env) (ref : nat) (r : Recorder)
    (p : Gst.Element) (q1 : Request) (first second : Invocation) (s : ScreencastService) :
  _recorders s !! get_sender second = Some ref ->
  heap s !! ref = Some r ->
  _startRequest r = None ->
  _pipeline r = Some p ->
  _stopRequest r = Some q1 ->
  awaiting s !! promise q1 = Some (AwaitStop (get_sender second) first) ->
  promise q1 ≠ allocated s ->
  first ≠ second ->
  let q2 := {| promise := allocated s |} in
  let s1 := (StopScreencastAsync second s).2 in
  let s2 := deliver env ref (BusMessage Gst.EOS) s1 in
  (_sessionState r = SessionState.ACTIVE -> StopSync env = None) ->
  (StopScreencastAsync second s).1 = Suspended q2
  ∧ (∃ tr, journal s2 = (journal s ++ tr)%list
           ∧ replies second tr = [V_b true]
           ∧ replies first tr = [])
  ∧ _recorders s2 !! get_sender second = None
  ∧ awaiting s2 !! promise q1 = Some (AwaitStop (get_sender second) first)
  ∧ ∃ r', heap s2 !! ref = Some r' ∧ _stopRequest r' = None ∧ _startRequest r' = None.
Proof.
  intros Hl Hh Hsq Hpl Htq Ha Hfresh Hne. cbv zeta. intros Hstop.
  unfold StopScreencastAsync. rewrite Hl, Hh. unfold allocate. cbn [fst snd].
  rewrite (stopRecording_accepted _ r Hsq), Hpl. cbn [completion this trace fst snd].
  split; [reflexivity|].
  set (q2 := {| promise := allocated s |}).
  set (r1 := set_pipelineState PipelineState.FLUSHING (set_stopRequest (Some q2) r)).
  unfold deliver. cbn [heap set_awaiting record set_heap]. rewrite lookup_insert_eq.
  unfold handler. rewrite bind_run, EOS_flushing_closed by reflexivity.
  assert (Hno : (if decide (_sessionState r1 = SessionState.ACTIVE) then StopSync env
                 else None) = None).
  { case_decide as Hact; [|reflexivity]. exact (Hstop Hact). }
  rewrite Hno. cbn [_stopRequest r1 set_pipelineState set_stopRequest].
  cbn [completion this trace]. rewrite ret_run. cbn [completion this trace].
  rewrite app_nil_r.
  cbn [fold_left run_callback run_settlement].
  rewrite !fold_left_app, callbacks_release_trace, settlements_release_trace.
  cbn [fold_left run_callback run_settlement].
  unfold settle. cbn [awaiting set_awaiting record set_heap promise q2].
  rewrite lookup_insert_eq. cbn [resume]. unfold after_stopRecording, return_value.
  set (s3 := set_awaiting _ _).
  assert (Hl3 : _recorders s3 !! get_sender second = Some ref) by exact Hl.
  destruct (removeRecorder_present _ ref s3 Hl3) as (R1 & R2 & R3 & R4 & R5).
  pose proof (journal_removeRecorder (get_sender second) s3) as R6.
  cbn [journal heap awaiting _recorders record].
  rewrite ?R1, ?R3, ?R4, ?R6. subst s3.
  cbn [journal heap awaiting _recorders record set_heap set_awaiting].
  split; [|split; [apply lookup_delete_eq|split]].
  - eexists. rewrite <- !app_assoc. split; [reflexivity|].
    rewrite !replies_app, !replies_AddRecentItem, !replies_app, !replies_release_trace.
    split.
    + rewrite replies_ReturnValue. reflexivity.
    + unfold replies. simpl. destruct (decide (second = first)) as [E|E];
        [exfalso; apply Hne; symmetry; exact E | reflexivity].
  - rewrite lookup_delete_ne by (intros E; by destruct Hfresh).
    rewrite lookup_insert_ne by (intros E; by destruct Hfresh). exact Ha.
  - eexists. split; [apply lookup_insert_eq|]. split; [reflexivity | exact Hsq].
Qed.

Lemma second_stop_orphans_the_first_witness :
  (StopScreencastAsync {| serial := 3; get_sender := ":1.42" |} stopping_service).1
  = Suspended {| promise := 3 |}
  ∧ awaiting (deliver sample_env 0 (BusMessage Gst.EOS)
                (StopScreencastAsync {| serial := 3; get_sender := ":1.42" |}
                   stopping_service).2) !! 2%nat
    = Some (AwaitStop ":1.42" stop_invocation)
  ∧ _recorders (deliver sample_env 0 (BusMessage Gst.EOS)
                  (StopScreencastAsync {| serial := 3; get_sender := ":1.42" |}
                     stopping_service).2) !! ":1.42" = None.
Proof.
  set (r := default recording (heap stopping_service !! 0%nat)).
  destruct (second_stop_orphans_the_first sample_env 0 r 7%nat {| promise := 2 |}
              stop_invocation {| serial := 3; get_sender := ":1.42" |} stopping_service)
    as (H1 & _ & H3 & H4 & _);
    [vm_compute; reflexivity | vm_compute; reflexivity | vm_compute; reflexivity
    | vm_compute; reflexivity | vm_compute; reflexivity | vm_compute; reflexivity
    | intros H; vm_compute in H; discriminate H | intros H; discriminate H
    | intros _; reflexivity |].
  split; [exact H1|]. split; [exact H4 | exact H3].
Defined.

(** * Further properties of the paths and of the pipeline text *)

(** ** Templates without escapes *)

Lemma spread_plain (template : string) :
  plain template = true -> Forall (fun c => c ≠ "%") (spread template).
Proof.
  induction template as [|b rest IH]; intros Hp; [constructor|].
  cbn [plain] in Hp. apply andb_true_iff in Hp as [Hb Hp].
  apply negb_true_iff, Ascii.eqb_neq in Hb. specialize (IH Hp). cbn [spread].
  assert (Hone : String b "" ≠ "%") by (intros [= E]; by destruct Hb).
  destruct (spread rest) as [|[|b' tail] chars].
  - constructor; [exact Hone | constructor].
  - constructor; [exact Hone | exact IH].
  - apply Forall_cons in IH as [Hc IH].
    destruct (is_continuation b' && negb (is_ASCII b)).
    + constructor; [intros E; discriminate E | exact IH].
    + constructor; [exact Hone|]. constructor; [exact Hc | exact IH].
Qed.

Lemma forEach_plain (env : Env) (chars : list string) (st : Scan) :
  Forall (fun c => c ≠ "%") chars -> escape st = false ->
  forEach env chars st
  = {| filename := filename st +:+ foldr String.append "" chars; escape := false;
       readings := readings st; warnings := warnings st |}.
Proof.
  revert st. induction chars as [|c chars IH]; intros st Hp He.
  - cbn [forEach foldr]. rewrite append_nil_r. destruct st. cbn in He. by subst.
  - apply Forall_cons in Hp as [Hc Hp].
    cbn [forEach foldr]. unfold scan_char at 1. rewrite He.
    rewrite decide_False by exact Hc.
    rewrite IH by (exact Hp || reflexivity).
    cbn [filename escape readings warnings]. by rewrite append_assoc.
Qed.

(** X17.  A template in which no percent sign occurs is taken as the
    file name as it stands: nothing is expanded, no warning is logged and
    the clock is not read.  The path is then what [_getAbsolutePath] makes
    of the template itself, which is the template when it is absolute. *)
Theorem plain_template_is_kept (env : Env) (template : string) :
  plain template = true ->
  expanded_filename env template = template
  ∧ _generateFilePath env template = (_getAbsolutePath env template, [])
  ∧ readings (scan_template env template) = 0%nat
  ∧ (path_is_absolute env template = true ->
     (_generateFilePath env template).1 = template).
Proof.
  intros Hp.
  assert (E : scan_template env template
              = {| filename := template; escape := false; readings := 0%nat;
                   warnings := [] |}).
  { unfold scan_template.
    rewrite forEach_plain by (by apply spread_plain || reflexivity).
    cbn [filename readings warnings]. by rewrite append_nil_l, spread_join. }
  assert (E' : expanded_filename env template = template).
  { unfold expanded_filename. rewrite E. reflexivity. }
  split; [exact E'|]. unfold _generateFilePath. rewrite E', E. cbn [readings warnings fst].
  split; [reflexivity|]. split; [reflexivity|].
  intros Ha. unfold _getAbsolutePath. by rewrite Ha.
Qed.

Lemma plain_template_is_kept_witness :
  plain "recording.webm" = true
  ∧ _generateFilePath sample_env "recording.webm"
    = (_getAbsolutePath sample_env "recording.webm", []).
Proof.
  assert (Hp : plain "recording.webm" = true) by reflexivity.
  destruct (plain_template_is_kept sample_env "recording.webm" Hp) as (_ & H & _).
  split; [exact Hp | exact H].
Defined.

(** ** The thread count in the pipeline text *)

Lemma replaceAll_T_two (rep : string) (c d : Ascii.ascii) (s : string) :
  replaceAll_T rep (String c (String d s))
  = if Ascii.eqb c "%"%char && Ascii.eqb d "T"%char
    then rep +:+ replaceAll_T rep s
    else String c (replaceAll_T rep (String d s)).
Proof. reflexivity. Qed.

Lemma has_T_cons (c : Ascii.ascii) (u : string) :
  has_T (String c u)
  = (Ascii.eqb c "%"%char && starts_T u) || (if u is String _ _ then has_T u else false).
Proof. destruct u; [cbn [has_T starts_T]; by rewrite andb_false_r|reflexivity]. Qed.

Lemma has_T_cons_other (c : Ascii.ascii) (u : string) :
  Ascii.eqb c "%"%char = false -> has_T (String c u) = has_T u.
Proof. intros Hc. rewrite has_T_cons, Hc. by destruct u. Qed.

Lemma has_T_inert (rep t : string) : inert rep = true -> has_T (rep +:+ t) = has_T t.
Proof.
  induction rep as [|a rep IH]; intros Hi; [by rewrite append_nil_l|].
  cbn [inert] in Hi. apply andb_true_iff in Hi as [Ha Hi].
  apply andb_true_iff in Ha as [Ha _]. apply negb_true_iff in Ha.
  rewrite append_cons, has_T_cons_other by exact Ha. by apply IH.
Qed.

Lemma starts_T_inert (rep t : string) :
  inert rep = true -> rep ≠ "" -> starts_T (rep +:+ t) = false.
Proof.
  destruct rep as [|a rep]; [done|]. intros Hi _. cbn [inert] in Hi.
  apply andb_true_iff in Hi as [Ha _]. apply andb_true_iff in Ha as [_ Ha].
  apply negb_true_iff in Ha. rewrite append_cons. exact Ha.
Qed.

Lemma starts_T_replaceAll (rep s : string) :
  inert rep = true -> rep ≠ "" ->
  starts_T (replaceAll_T rep s) = true -> starts_T s = true.
Proof.
  intros Hi Hne. destruct s as [|c [|d s]]; [done|done|].
  rewrite replaceAll_T_two. destruct (Ascii.eqb c "%"%char && Ascii.eqb d "T"%char).
  - by rewrite starts_T_inert.
  - done.
Qed.

Lemma has_T_replaceAll_both (rep s : string) :
  inert rep = true -> rep ≠ "" ->
  has_T (replaceAll_T rep s) = false
  ∧ ∀ c, has_T (replaceAll_T rep (String c s)) = false.
Proof.
  intros Hi Hne. induction s as [|d s [IH1 IH2]]; [by split|].
  split; [apply IH2|]. intros c. rewrite replaceAll_T_two.
  destruct (Ascii.eqb c "%"%char) eqn:Hc; cbn [andb].
  - destruct (Ascii.eqb d "T"%char) eqn:Hd.
    + by rewrite has_T_inert.
    + rewrite has_T_cons, Hc. cbn [andb].
      destruct (starts_T (replaceAll_T rep (String d s))) eqn:Hs.
      * apply starts_T_replaceAll in Hs; [|exact Hi|exact Hne]. cbn [starts_T] in Hs.
        by rewrite Hs in Hd.
      * cbn [orb]. specialize (IH2 d). by destruct (replaceAll_T rep (String d s)).
  - rewrite has_T_cons_other by exact Hc. apply IH2.
Qed.

Lemma threads_inert (n : Z) : 1 ≤ n ≤ 64 -> inert (pretty n) = true ∧ pretty n ≠ "".
Proof.
  intros Hn.
  assert (Hall : forallb (fun k => inert (pretty (Z.of_nat k))
                                   && negb (String.eqb (pretty (Z.of_nat k)) ""))
                   (seq 1 64) = true) by (vm_compute; reflexivity).
  rewrite forallb_forall in Hall. specialize (Hall (Z.to_nat n)).
  rewrite Z2Nat.id in Hall by lia.
  assert (Hin : In (Z.to_nat n) (seq 1 64)) by (apply in_seq; lia).
  apply Hall, andb_true_iff in Hin as [H1 H2]. split; [exact H1|].
  apply negb_true_iff, String.eqb_neq in H2. exact H2.
Qed.

Lemma replaceAll_T_app (rep a b : string) :
  ends_percent a && starts_T b = false ->
  replaceAll_T rep (a +:+ b) = replaceAll_T rep a +:+ replaceAll_T rep b.
Proof.
  intros Hsafe.
  assert (H : (ends_percent a && starts_T b = false ->
               replaceAll_T rep (a +:+ b) = replaceAll_T rep a +:+ replaceAll_T rep b)
              ∧ ∀ c, ends_percent (String c a) && starts_T b = false ->
                     replaceAll_T rep (String c a +:+ b)
                     = replaceAll_T rep (String c a) +:+ replaceAll_T rep b);
    [|by apply H].
  clear Hsafe. induction a as [|d a [IH1 IH2]].
  - split; [intros _; by rewrite append_nil_l|].
    intros c Hs. rewrite append_cons, append_nil_l. cbn [ends_percent] in Hs.
    destruct b as [|e b]; [reflexivity|]. rewrite replaceAll_T_two.
    cbn [starts_T] in Hs. rewrite Hs. reflexivity.
  - split; [apply IH2|]. intros c Hs.
    assert (Hs' : ends_percent (String d a) && starts_T b = false) by exact Hs.
    rewrite !append_cons, !replaceAll_T_two.
    destruct (Ascii.eqb c "%"%char && Ascii.eqb d "T"%char).
    + rewrite append_assoc. f_equal. apply IH1.
      destruct a; [by destruct (starts_T b)|exact Hs'].
    + rewrite append_cons. f_equal. rewrite <- append_cons. by apply IH2.
Qed.

Lemma ends_percent_last (x : string) (c : Ascii.ascii) (y : string) :
  ends_percent (x +:+ String c y) = ends_percent (String c y).
Proof.
  induction x as [|a x IH]; [by rewrite append_nil_l|].
  rewrite append_cons. cbn [ends_percent].
  destruct (x +:+ String c y) eqn:E; [|exact IH].
  destruct x; discriminate E.
Qed.

Lemma replaceAll_T_id (rep s : string) : has_T s = false -> replaceAll_T rep s = s.
Proof.
  intros Hs.
  assert (H : (has_T s = false -> replaceAll_T rep s = s)
              ∧ ∀ c, has_T (String c s) = false -> replaceAll_T rep (String c s) = String c s);
    [|by apply H].
  clear Hs. induction s as [|d s [IH1 IH2]]; [by split|].
  split; [apply IH2|]. intros c Hc. rewrite replaceAll_T_two.
  rewrite has_T_cons in Hc. apply orb_false_iff in Hc as [Hc1 Hc2].
  cbn [starts_T] in Hc1. rewrite Hc1. f_equal. by apply IH2.
Qed.

Lemma replaceAll_T_keep (rep piece rest : string) :
  has_T piece || ends_percent piece = false ->
  replaceAll_T rep (piece +:+ rest) = piece +:+ replaceAll_T rep rest.
Proof.
  intros H. apply orb_false_iff in H as [H1 H2].
  rewrite replaceAll_T_app by (by rewrite H2). by rewrite replaceAll_T_id.
Qed.

Lemma front_step (rep piece rest tail : string) :
  ends_percent piece && starts_T rest = false ->
  (∃ front, replaceAll_T rep rest = front +:+ tail) ->
  ∃ front, replaceAll_T rep (piece +:+ rest) = front +:+ tail.
Proof.
  intros Hsafe [front H]. exists (replaceAll_T rep piece +:+ front).
  by rewrite replaceAll_T_app, H, append_assoc.
Qed.

(** X18.  The text handed to [Gst.parse_launch_full].  The thread count
    put into it lies between 1 and 64 whatever number of processors GLib
    reports; no [%T] is left anywhere in the text; and the substitution is
    made in the whole text, not only in the pipeline option: the text ends
    with the pipeline string and then the [filesink] location, each with
    every [%T] replaced by the count, so that a [%T] in the file path is
    replaced as well. *)
Theorem thread_count_is_substituted (env : Env) (nodeId : Z) (r : Recorder) :
  ∃ d rest,
    trace (_ensurePipeline env nodeId r) = ParseLaunchFull d :: rest
    ∧ descr_pipeline d = _pipelineString r
    ∧ descr_location d = _filePath r
    ∧ 1 ≤ descr_threads d ≤ 64
    ∧ has_T (fullPipeline d) = false
    ∧ ∃ front,
        fullPipeline d
        = front
          +:+ replaceAll_T (pretty (descr_threads d)) (_pipelineString r)
          +:+ " !" +:+ LF +:+ "            filesink location=" +:+ DQUOTE
          +:+ replaceAll_T (pretty (descr_threads d)) (_filePath r)
          +:+ DQUOTE.
Proof.
  set (d := {| descr_path := nodeId;
               descr_always_copy := pipewiresrc_0_3_57 env && negb (videoconvert_1_20_4 env);
               descr_max_framerate := _framerate r;
               descr_pipeline := _pipelineString r;
               descr_threads := _substituteThreadCount env;
               descr_location := _filePath r |}).
  assert (Hn : 1 ≤ descr_threads d ≤ 64) by (cbn; unfold _substituteThreadCount; lia).
  destruct (threads_inert _ Hn) as [Hi Hne].
  exists d. eexists. split.
  { unfold _ensurePipeline. rewrite this_then, emit_then. cbn [trace]. reflexivity. }
  do 2 (split; [reflexivity|]). split; [exact Hn|]. split.
  { apply has_T_replaceAll_both; assumption. }
  unfold fullPipeline, fullPipeline_template.
  set (rep := pretty (descr_threads d)). cbn [descr_pipeline descr_location d].
  generalize (pretty (descr_path d)) (if descr_always_copy d then "true" else "false")
    (pretty (descr_max_framerate d)).
  intros a b c.
  do 18 (apply front_step;
         [first [reflexivity | apply andb_false_intro2; reflexivity]|]).
  exists "". rewrite append_nil_l.
  rewrite (replaceAll_T_app rep (_pipelineString r))
    by (apply andb_false_intro2; reflexivity).
  do 4 (rewrite replaceAll_T_keep by reflexivity).
  rewrite (replaceAll_T_app rep (_filePath r)) by (apply andb_false_intro2; reflexivity).
  reflexivity.
Qed.

(** ** A recording that breaks *)

(** X19.  A recording that breaks after it has started, with no call
    waiting on it, is cleaned up without a word to the client: when the
    sender vanishes, the session is closed under the recorder or GStreamer
    reports an error, and the handler runs to its end, the sender leaves
    the registry (so that it may record again), the keep-alive count goes
    down if this was the last recorder, the recorder holds no resource any
    more, and no reply is sent on any invocation. *)
Theorem failure_while_recording_is_silent (env : Env) (ref : nat) (sig : Signal)
    (r : Recorder) (sender : string) (s : ScreencastService) :
  heap s !! ref = Some r ->
  _recorders s !! sender = Some ref ->
  _onErrorCallback r = Some (RemoveRecorder sender) ->
  _startRequest r = None ->
  _stopRequest r = None ->
  sig = NameVanished
  ∨ (sig = Closed ∧ _sessionState r ≠ SessionState.STOPPED)
  ∨ (∃ text, sig = BusMessage (Gst.ERROR text)
             ∧ ¬ (_pipelineState r = PipelineState.STOPPED
                  ∨ _pipelineState r = PipelineState.ERROR)) ->
  completion (handler env sig r) = Normal tt ->
  let s' := deliver env ref sig s in
  (∃ tr, journal s' = (journal s ++ tr)%list ∧ ∀ i, replies i tr = [])
  ∧ _recorders s' = delete sender (_recorders s)
  ∧ _holdCount s'
    = _holdCount s - (if decide (size (_recorders s) = 1%nat) then 1 else 0)
  ∧ awaiting s' = awaiting s
  ∧ ∃ r', heap s' !! ref = Some r' ∧ spent r'.
Proof.
  intros Hh Hl Hcb Hsq Htq Hsig Hc. cbv zeta.
  destruct (handler_bails env sig r Hsig) as (error & r0 & E & Hcb0 & Hsq0 & Htq0 & _).
  rewrite E in Hc. apply bailed_out_normal in Hc. rewrite Hc in E. clear Hc.
  unfold rejections in E. rewrite Hcb0, Hsq0, Htq0, Hcb, Hsq, Htq in E. cbn [app] in E.
  unfold deliver. rewrite Hh, E. cbn [completion this trace]. clear E.
  set (s1 := record _ (set_heap _ s)).
  assert (Hl1 : _recorders s1 !! sender = Some ref) by exact Hl.
  rewrite !fold_left_app, callbacks_release_trace, settlements_release_trace.
  cbn [fold_left run_callback run_settlement].
  destruct (removeRecorder_present sender ref s1 Hl1) as (R1 & R2 & R3 & R4 & R5).
  pose proof (journal_removeRecorder sender s1) as R6.
  rewrite R1, R2, R3, R4, R6. subst s1.
  cbn [journal heap awaiting _recorders _holdCount record set_heap].
  split; [|split; [reflexivity|split; [reflexivity|split; [reflexivity|]]]].
  - eexists. split; [reflexivity|]. intros i.
    rewrite replies_app, replies_release_trace. reflexivity.
  - eexists. split; [apply lookup_insert_eq | apply spent_cleared_released].
Qed.

Lemma failure_while_recording_is_silent_witness :
  completion (handler sample_env NameVanished
                (default recording (heap playing_service !! 0%nat))) = Normal tt
  ∧ _recorders (deliver sample_env 0 NameVanished playing_service) = ∅
  ∧ _holdCount (deliver sample_env 0 NameVanished playing_service) = 0
  ∧ awaiting (deliver sample_env 0 NameVanished playing_service) = ∅.
Proof.
  set (r := default recording (heap playing_service !! 0%nat)).
  assert (Hc : completion (handler sample_env NameVanished r) = Normal tt)
    by (vm_compute; reflexivity).
  destruct (failure_while_recording_is_silent sample_env 0 NameVanished r ":1.42"
              playing_service)
    as (_ & H1 & H2 & H3 & _);
    [vm_compute; reflexivity | vm_compute; reflexivity | vm_compute; reflexivity
    | vm_compute; reflexivity | vm_compute; reflexivity | left; reflexivity | exact Hc |].
  split; [exact Hc|]. rewrite H1, H2, H3. repeat split; vm_compute; reflexivity.
Defined.

(** X20.  When the fatal-error path is cut short because [StopSync]
    throws, the service is told nothing: the handler releases the pipeline
    and the name watch and marks the session stopped, but the callback is
    not run and no outcome is rejected.  So the sender stays in the
    registry with its recorder, the keep-alive count is as it was, every
    call that was waiting goes on waiting, and no reply is sent; the
    exception ends up in the log. *)
Theorem failed_session_stop_leaves_the_sender_registered (env : Env) (ref : nat)
    (sig : Signal) (r : Recorder) (e : Error) (s : ScreencastService) :
  heap s !! ref = Some r ->
  _sessionState r = SessionState.ACTIVE ->
  StopSync env = Some e ->
  sig = NameVanished
  ∨ (∃ text, sig = BusMessage (Gst.ERROR text)
             ∧ ¬ (_pipelineState r = PipelineState.STOPPED
                  ∨ _pipelineState r = PipelineState.ERROR)) ->
  let s' := deliver env ref sig s in
  _recorders s' = _recorders s
  ∧ _holdCount s' = _holdCount s
  ∧ awaiting s' = awaiting s
  ∧ (∃ tr, journal s'
           = (journal s ++ tr ++ [Log ("Uncaught exception: " +:+ message e)])%list
           ∧ ∀ i, replies i tr = [])
  ∧ ∃ r', heap s' !! ref = Some r'
          ∧ _pipeline r' = None
          ∧ _nameWatchId r' = 0%N
          ∧ _sessionState r' = SessionState.STOPPED
          ∧ _onErrorCallback r' = _onErrorCallback r
          ∧ _startRequest r' = _startRequest r
          ∧ _stopRequest r' = _stopRequest r.
Proof.
  intros Hh Hss He Hsig. cbv zeta.
  assert (Hsig' : sig = NameVanished
            ∨ (sig = Closed ∧ _sessionState r ≠ SessionState.STOPPED)
            ∨ (∃ text, sig = BusMessage (Gst.ERROR text)
                       ∧ ¬ (_pipelineState r = PipelineState.STOPPED
                            ∨ _pipelineState r = PipelineState.ERROR))) by tauto.
  destruct (handler_bails env sig r Hsig') as (error & r0 & E & Hcb0 & Hsq0 & Htq0 & Hss0).
  assert (Hact : _sessionState r0 = SessionState.ACTIVE).
  { rewrite Hss0, Hss. by destruct Hsig as [-> | (text & -> & _)]. }
  unfold bailed_out in E. rewrite decide_True, He in E by exact Hact.
  unfold deliver. rewrite Hh, E. cbn [completion this trace]. clear E.
  rewrite callbacks_release_trace, settlements_release_trace.
  cbn [journal heap awaiting _recorders _holdCount record set_heap].
  do 3 (split; [reflexivity|]). split.
  - eexists. rewrite <- app_assoc. split; [reflexivity|].
    intros i. apply replies_release_trace.
  - eexists. split; [apply lookup_insert_eq|].
    unfold released.
    cbn [_pipeline _nameWatchId _sessionState _onErrorCallback _startRequest _stopRequest
         set_sessionState set_nameWatchId set_pipeline set_pipelineState].
    rewrite decide_True by exact Hact. done.
Qed.

Lemma failed_session_stop_leaves_the_sender_registered_witness :
  StopSync env_StopSync_fails = Some (new_Error "GDBus.Error: Timeout was reached")
  ∧ _recorders (deliver env_StopSync_fails 0 NameVanished playing_service)
    = _recorders playing_service
  ∧ is_Some (_recorders playing_service !! ":1.42").
Proof.
  set (r := default recording (heap playing_service !! 0%nat)).
  destruct (failed_session_stop_leaves_the_sender_registered env_StopSync_fails 0
              NameVanished r (new_Error "GDBus.Error: Timeout was reached")
              playing_service)
    as (H1 & _);
    [vm_compute; reflexivity | vm_compute; reflexivity | reflexivity
    | left; reflexivity |].
  split; [reflexivity|]. split; [exact H1|]. vm_compute. by eexists.
Defined.
